(** * check_card_gui: device inventory, workflow runs and the options parser

    A shallow embedding of the non-visual core of [check_card_gui.py]:
    - [parse_workflow_options_yaml] and [_parse_yaml_scalar];
    - [WorkflowRunTask]: the slots that consume the output of the workflow
      process, extract the run link and estimate the flashing progress;
    - [MainWindow]: the slot that reconciles a fresh device listing with the
      previous one, the start of a workflow for a device and the cleanup of
      forgotten devices;
    - the text of [WorkflowStatusDialog.set_info], the start-up
      authentication of [MainWindow], the double click on a device and the
      geometry of the progress bar in [DeviceListDelegate.paint].

    Python values are modelled as follows.
    - A [str] is the list of its code points ([N]).  The character classes
      of [str.strip], [str.splitlines] and of the regular expressions are
      Python's; those that depend on the Unicode database outside ASCII
      ([\d], [\w]) take that part of the database as a parameter.
    - An [int] is a [Z]; [int(s)] of a run of decimal digits is exact (the
      interpreter's optional cap on the number of digits is taken to be
      switched off).
    - [int(a / b)] goes through a binary64 float: the quotient is correctly
      rounded, half to even, and an [OverflowError] is raised when it does
      not fit.
    - A [dict] whose order is observable is an association list kept in
      insertion order; the dictionaries and sets of [MainWindow] are
      [gmap]s and [gset]s.
    - An exception raised inside a slot leaves the slot at that point; the
      changes made before it stay (PySide reports the exception and goes
      on with the event loop). *)

From Stdlib Require Import ZArith NArith List String Ascii Bool Lia Sorted.
From stdpp Require Import gmap sorting.
Import ListNotations.

#[local] Set Warnings "-clear-no-such-hyp".

Local Open Scope Z_scope.

(** ** Python text *)

Abbreviation str := (list N).

Module Py.

(** An ASCII literal of the source as a list of code points. *)
Definition lit (s : string) : str :=
  List.map N_of_ascii (list_ascii_of_string s).

(** An ASCII text of the given lines, each ended by a line feed. *)
Definition text (ls : list string) : str :=
  concat (List.map (fun l => lit l ++ [10%N]) ls).

Definition str_eqb (a b : str) : bool := bool_decide (a = b).

(** [str.isspace] of one character (the full Unicode set). *)
Definition isspace (c : N) : bool :=
  ((9 <=? c) && (c <=? 13) || (28 <=? c) && (c <=? 32) || (c =? 133)
   || (c =? 160) || (c =? 5760) || (8192 <=? c) && (c <=? 8202)
   || (c =? 8232) || (c =? 8233) || (c =? 8239) || (c =? 8287)
   || (c =? 12288))%N.

(** The line boundaries of [str.splitlines]. *)
Definition is_linebreak (c : N) : bool :=
  ((10 <=? c) && (c <=? 13) || (28 <=? c) && (c <=? 30) || (c =? 133)
   || (c =? 8232) || (c =? 8233))%N.

Fixpoint lstrip (s : str) : str :=
  match s with
  | c :: s' => if isspace c then lstrip s' else s
  | [] => []
  end.

Definition rstrip (s : str) : str := rev (lstrip (rev s)).

Definition strip (s : str) : str := rstrip (lstrip s).

(** [cur] holds, reversed, the characters of the line being read. *)
Fixpoint splitlines_from (cur : str) (s : str) : list str :=
  match s with
  | [] => match cur with [] => [] | _ => [rev cur] end
  | c :: s' =>
      if is_linebreak c then
        rev cur ::
          match s' with
          | c' :: s'' =>
              if ((c =? 13) && (c' =? 10))%N then splitlines_from [] s''
              else splitlines_from [] s'
          | [] => []
          end
      else splitlines_from (c :: cur) s'
  end.

Definition splitlines (s : str) : list str := splitlines_from [] s.

Fixpoint startswith (p s : str) : bool :=
  match p, s with
  | [], _ => true
  | a :: p', b :: s' => (a =? b)%N && startswith p' s'
  | _ :: _, [] => false
  end.

Definition endswith (p s : str) : bool := startswith (rev p) (rev s).

(** [sub in s] *)
Fixpoint contains (sub s : str) : bool :=
  startswith sub s ||
  match s with
  | [] => false
  | _ :: s' => contains sub s'
  end.

(** [s.split(sep)] for a separator of one character. *)
Fixpoint split_from (sep : N) (cur : str) (s : str) : list str :=
  match s with
  | [] => [rev cur]
  | c :: s' =>
      if (c =? sep)%N then rev cur :: split_from sep [] s'
      else split_from sep (c :: cur) s'
  end.

Definition split (sep : N) (s : str) : list str := split_from sep [] s.

(** [s.split(sep, 1)] for a separator of one character. *)
Fixpoint split1_from (sep : N) (cur : str) (s : str) : list str :=
  match s with
  | [] => [rev cur]
  | c :: s' =>
      if (c =? sep)%N then [rev cur; s'] else split1_from sep (c :: cur) s'
  end.

Definition split1 (sep : N) (s : str) : list str := split1_from sep [] s.

(** The slices [s[:-1]], [s[1:-1]] and [s[2:]]. *)
Definition slice_to_last (s : str) : str := removelast s.
Definition slice_1_to_last (s : str) : str := removelast (tl s).
Definition slice_from_2 (s : str) : str := skipn 2 s.

(** Comparison of two [str]: code point by code point, the shorter first. *)
Fixpoint str_leb (a b : str) : bool :=
  match a, b with
  | [], _ => true
  | _ :: _, [] => false
  | x :: a', y :: b' => (x <? y)%N || ((x =? y)%N && str_leb a' b')
  end.

End Py.

(** ** Python numbers *)

(** The part of the Unicode database the program consults outside ASCII:
    the decimal digits with their values (category Nd, [\d] and [int]) and
    the alphanumeric characters ([str.isalnum], [\w]). *)
Record UnicodeData := {
  decimal_value : N -> option N;
  alnum : N -> bool
}.

(** The database of an interpreter that knows no digit and no letter
    outside ASCII; enough for text that is ASCII. *)
Definition ascii_only : UnicodeData :=
  {| decimal_value := fun _ => None; alnum := fun _ => false |}.

Module PyNum.

Definition todecimal (ud : UnicodeData) (c : N) : option N :=
  if (c <? 128)%N then
    if ((48 <=? c) && (c <=? 57))%N then Some (c - 48)%N else None
  else decimal_value ud c.

Definition isdecimal (ud : UnicodeData) (c : N) : bool :=
  match todecimal ud c with Some _ => true | None => false end.

(** A word character of [\w] and [\b]: alphanumeric or the underscore. *)
Definition isword (ud : UnicodeData) (c : N) : bool :=
  if (c <? 128)%N then
    ((48 <=? c) && (c <=? 57) || (65 <=? c) && (c <=? 90) || (c =? 95)
     || (97 <=? c) && (c <=? 122))%N
  else alnum ud c || isdecimal ud c.

(** [int(s)] for a [str] of decimal digits, as [\d+] captures it. *)
Definition int_of_digits (ud : UnicodeData) (s : str) : Z :=
  fold_left
    (fun acc c => 10 * acc + match todecimal ud c with
                              | Some d => Z.of_N d
                              | None => 0
                              end) s 0.

(** The integer nearest to [n / d], halves going to the even one
    ([0 <= n], [0 < d]). *)
Definition round_half_even (n d : Z) : Z :=
  let q := n / d in
  let r := n mod d in
  if 2 * r <? d then q
  else if d <? 2 * r then q + 1
  else if Z.even q then q else q + 1.

(** [int(a / b)] for [0 <= a] and [0 < b], the case the program has.  The
    quotient is rounded to 53 significant bits: to a multiple of
    [2 ^ (e - 52)] where [2 ^ e <= a / b < 2 ^ (e + 1)]; below one half the
    float is below one and [e] no longer matters.  [None] is the
    [OverflowError] of a quotient that rounds to [2 ^ 1024] or more. *)
Definition int_truediv (a b : Z) : option Z :=
  let e := if a <? b then -1 else Z.log2 (a / b) in
  let m := if e <=? 52 then round_half_even (a * 2 ^ (52 - e)) b
           else round_half_even a (b * 2 ^ (e - 52)) in
  if (1024 <=? e) || ((e =? 1023) && (m =? 2 ^ 53)) then None
  else if e <=? 52 then Some (m / 2 ^ (52 - e))
  else Some (m * 2 ^ (e - 52)).

Definition clamp_percent (p : Z) : Z := Z.max 0 (Z.min 100 p).

(** The exponent [int_truediv] rounds at, and its result without the check
    for the overflow. *)
Definition expo (a b : Z) : Z := if a <? b then -1 else Z.log2 (a / b).

Definition trunc_quot (a b : Z) : Z :=
  let e := expo a b in
  if e <=? 52 then round_half_even (a * 2 ^ (52 - e)) b / 2 ^ (52 - e)
  else round_half_even a (b * 2 ^ (e - 52)) * 2 ^ (e - 52).

End PyNum.

(** ** Regular expressions

    The fragment of [re] the program uses, matched by backtracking in the
    order [re] tries the alternatives: the left branch of [|] first, the
    longest repetition first. *)

Module Re.

Inductive regex :=
| Lit (s : str)                 (* the characters of [s] *)
| Cls (p : N -> bool)           (* one character of a class *)
| Star (p : N -> bool)          (* [p*], greedy *)
| Plus (p : N -> bool)          (* [p+], greedy *)
| Bol                           (* [^], without MULTILINE *)
| WordB (w : N -> bool)         (* [\b], for the word characters [w] *)
| Cat (r1 r2 : regex)
| Alt (r1 r2 : regex)
| Group (r : regex).            (* the capturing group, number 1 *)

(** A position in the subject: the character before it ([None] at the
    start) and the text from it on. *)
Definition result := (option str * str)%type.

Definition cont := option N -> str -> option str -> option result.

Fixpoint star (p : N -> bool) (prev : option N) (s : str)
    (k : option N -> str -> option result) : option result :=
  match s with
  | c :: s' =>
      if p c then
        match star p (Some c) s' k with
        | Some r => Some r
        | None => k prev s
        end
      else k prev s
  | [] => k prev s
  end.

Fixpoint literal (l : str) (prev : option N) (s : str)
    (k : option N -> str -> option result) : option result :=
  match l, s with
  | [], _ => k prev s
  | a :: l', c :: s' => if (a =? c)%N then literal l' (Some c) s' k else None
  | _ :: _, [] => None
  end.

Definition opt_test (w : N -> bool) (c : option N) : bool :=
  match c with Some x => w x | None => false end.

Fixpoint rmatch (r : regex) (prev : option N) (s : str) (cap : option str)
    (k : cont) : option result :=
  match r with
  | Lit l => literal l prev s (fun p' s' => k p' s' cap)
  | Cls p =>
      match s with
      | c :: s' => if p c then k (Some c) s' cap else None
      | [] => None
      end
  | Star p => star p prev s (fun p' s' => k p' s' cap)
  | Plus p =>
      match s with
      | c :: s' => if p c then star p (Some c) s' (fun p' s' => k p' s' cap)
                   else None
      | [] => None
      end
  | Bol => match prev with None => k prev s cap | Some _ => None end
  | WordB w =>
      if xorb (opt_test w prev) (opt_test w (head s)) then k prev s cap
      else None
  | Cat r1 r2 => rmatch r1 prev s cap (fun p' s' cap' => rmatch r2 p' s' cap' k)
  | Alt r1 r2 =>
      match rmatch r1 prev s cap k with
      | Some x => Some x
      | None => rmatch r2 prev s cap k
      end
  | Group r1 =>
      rmatch r1 prev s cap
        (fun p' s' _ => k p' s' (Some (firstn (length s - length s') s)))
  end.

(** A match that starts at this position: the group and the rest. *)
Definition match_here (r : regex) (prev : option N) (s : str) : option result :=
  rmatch r prev s None (fun _ s' cap => Some (cap, s')).

Fixpoint search_from (r : regex) (prev : option N) (s : str) : option result :=
  match match_here r prev s with
  | Some x => Some x
  | None =>
      match s with
      | [] => None
      | c :: s' => search_from r (Some c) s'
      end
  end.

(** [re.search(r, s)]: the leftmost match, by its group. *)
Definition search (r : regex) (s : str) : option str :=
  match search_from r None s with
  | Some (cap, _) => Some (default [] cap)
  | None => None
  end.

(** [skip] counts the characters of the last match still to step over. *)
Fixpoint findall_from (r : regex) (skip : nat) (prev : option N) (s : str)
    : list str :=
  match skip with
  | S n =>
      match s with
      | [] => []
      | c :: s' => findall_from r n (Some c) s'
      end
  | O =>
      match match_here r prev s with
      | Some (cap, rest) =>
          default [] cap ::
            match s with
            | [] => []
            | c :: s' =>
                findall_from r (Nat.pred (length s - length rest)) (Some c) s'
            end
      | None =>
          match s with
          | [] => []
          | c :: s' => findall_from r O (Some c) s'
          end
      end
  end.

(** [re.findall(r, s)] for a pattern with one group whose matches are not
    empty: the groups of the matches, left to right, without overlap. *)
Definition findall (r : regex) (s : str) : list str := findall_from r O None s.

End Re.

(** ** Exceptions *)

Inductive PyExn := KeyError | ValueError | OverflowError.

Inductive res (A : Type) :=
| Ok (a : A)
| Raise (e : PyExn).
Arguments Ok {A} a.
Arguments Raise {A} e.

Definition res_bind {A B : Type} (x : res A) (f : A -> res B) : res B :=
  match x with
  | Ok a => f a
  | Raise e => Raise e
  end.

(** ** JSON strings *)

Module Json.

Definition hexval (c : N) : option N :=
  if ((48 <=? c) && (c <=? 57))%N then Some (c - 48)%N
  else if ((97 <=? c) && (c <=? 102))%N then Some (c - 87)%N
  else if ((65 <=? c) && (c <=? 70))%N then Some (c - 55)%N
  else None.

Definition hex4 (h1 h2 h3 h4 : N) : option N :=
  match hexval h1, hexval h2, hexval h3, hexval h4 with
  | Some a, Some b, Some c, Some d => Some (((a * 16 + b) * 16 + c) * 16 + d)%N
  | _, _, _, _ => None
  end.

Definition escape (c : N) : option N :=
  if (c =? 34)%N then Some 34%N          (* the double quote *)
  else if (c =? 92)%N then Some 92%N     (* the backslash *)
  else if (c =? 47)%N then Some 47%N     (* the slash *)
  else if (c =? 98)%N then Some 8%N      (* b: backspace *)
  else if (c =? 102)%N then Some 12%N    (* f: form feed *)
  else if (c =? 110)%N then Some 10%N    (* n: line feed *)
  else if (c =? 114)%N then Some 13%N    (* r: carriage return *)
  else if (c =? 116)%N then Some 9%N     (* t: tab *)
  else None.

Definition is_high_surrogate (c : N) : bool := ((55296 <=? c) && (c <=? 56319))%N.
Definition is_low_surrogate (c : N) : bool := ((56320 <=? c) && (c <=? 57343))%N.
Definition join_surrogates (hi lo : N) : N :=
  (65536 + (hi - 55296) * 1024 + (lo - 56320))%N.

(** The scanner of a string, from the character after the opening quote, in
    strict mode: the decoded text and what follows the closing quote.
    [acc] holds the decoded text so far, reversed; [None] is a
    [JSONDecodeError]. *)
Fixpoint scanstring (acc : str) (s : str) : option (str * str) :=
  match s with
  | [] => None
  | c :: s1 =>
      if (c =? 34)%N then Some (rev acc, s1)
      else if (c <=? 31)%N then None
      else if negb (c =? 92)%N then scanstring (c :: acc) s1
      else
        match s1 with
        | [] => None
        | e :: s2 =>
            if negb (e =? 117)%N then
              match escape e with
              | Some x => scanstring (x :: acc) s2
              | None => None
              end
            else
              match s2 with
              | h1 :: h2 :: h3 :: h4 :: s3 =>
                  match s3 with
                  | [] => None
                  | _ :: _ =>
                      match hex4 h1 h2 h3 h4 with
                      | None => None
                      | Some u =>
                          match s3 with
                          | b :: v :: g1 :: g2 :: g3 :: g4 :: s4 =>
                              if is_high_surrogate u && (b =? 92)%N
                                 && (v =? 117)%N
                                 && match s4 with [] => false | _ => true end
                              then
                                match hex4 g1 g2 g3 g4 with
                                | None => None
                                | Some u2 =>
                                    if is_low_surrogate u2
                                    then scanstring (join_surrogates u u2 :: acc) s4
                                    else scanstring (u :: acc) s3
                                end
                              else scanstring (u :: acc) s3
                          | _ => scanstring (u :: acc) s3
                          end
                      end
                  end
              | _ => None
              end
        end
  end.

Definition is_ws (c : N) : bool :=
  ((c =? 32) || (c =? 9) || (c =? 10) || (c =? 13))%N.

(** [json.loads(s)] for a document that begins with a double quote, which
    can only be a string: the decoded [str], or [None] for the
    [JSONDecodeError] of a malformed string or of text after it. *)
Definition loads (s : str) : option str :=
  match s with
  | q :: s1 =>
      if (q =? 34)%N then
        match scanstring [] s1 with
        | Some (v, rest) => if forallb is_ws rest then Some v else None
        | None => None
        end
      else None
  | [] => None
  end.

End Json.

(** ** Dictionaries in insertion order *)

Module Dict.

Definition dict (V : Type) := list (str * V).

Fixpoint get {V : Type} (d : dict V) (k : str) : option V :=
  match d with
  | [] => None
  | (k', v) :: d' => if Py.str_eqb k' k then Some v else get d' k
  end.

(** [d[k] = v]: a present key keeps its place, a new one goes last. *)
Fixpoint set {V : Type} (d : dict V) (k : str) (v : V) : dict V :=
  match d with
  | [] => [(k, v)]
  | (k', v') :: d' =>
      if Py.str_eqb k' k then (k', v) :: d' else (k', v') :: set d' k v
  end.

(** [d[k]] as an expression: a missing key raises. *)
Definition subscript {V : Type} (d : dict V) (k : str) : res V :=
  match get d k with
  | Some v => Ok v
  | None => Raise KeyError
  end.

End Dict.

(** ** The options parser *)

(** What [_parse_yaml_scalar] returns. *)
Inductive scalar :=
| VStr (s : str)
| VBool (b : bool)
| VNone.

(** A value of an attribute: a scalar, or the list under [options]. *)
Inductive pyval :=
| Scalar (v : scalar)
| VList (l : list scalar).

Definition dquote : str := [34%N].

Definition _parse_yaml_scalar (value : str) : scalar :=
  let value := Py.strip value in
  if Py.str_eqb value [] then VStr []
  else if Py.str_eqb value (Py.lit "true") then VBool true
  else if Py.str_eqb value (Py.lit "false") then VBool false
  else if Py.str_eqb value (Py.lit "null") then VNone
  else if Py.startswith dquote value && Py.endswith dquote value then
    match Json.loads value with
    | Some v => VStr v
    | None => VStr (Py.slice_1_to_last value)
    end
  else VStr value.

Module Parser.

(** The local variables of [parse_workflow_options_yaml]. *)
Record locals := {
  inputs : Dict.dict (Dict.dict pyval);
  in_inputs : bool;
  current_input : option str;
  current_key : option str
}.

Definition initial : locals :=
  {| inputs := []; in_inputs := false; current_input := None;
     current_key := None |}.

Definition with_inputs (l : locals) (i : Dict.dict (Dict.dict pyval)) : locals :=
  {| inputs := i; in_inputs := in_inputs l;
     current_input := current_input l; current_key := current_key l |}.

Definition with_current_key (l : locals) (k : option str) : locals :=
  {| inputs := inputs l; in_inputs := in_inputs l;
     current_input := current_input l; current_key := k |}.

(** How the body of the loop is left. *)
Inductive flow :=
| Continue (l : locals)
| Break (l : locals).

(** The last [if] of the loop body, for a line of an option list: the
    list under [options] is created when missing ([setdefault]) and the
    item is appended when what is there is a list. *)
Definition option_item (l : locals) (ci : str) (raw_line : str) : res flow :=
  if Py.startswith (Py.lit "      - ") raw_line
     && bool_decide (current_key l = Some (Py.lit "options")) then
    let item := Py.strip (Py.slice_from_2 (Py.strip raw_line)) in
    res_bind (Dict.subscript (inputs l) ci) (fun meta =>
      let meta :=
        match Dict.get meta (Py.lit "options") with
        | Some _ => meta
        | None => Dict.set meta (Py.lit "options") (VList [])
        end in
      match Dict.get meta (Py.lit "options") with
      | Some (VList items) =>
          let meta := Dict.set meta (Py.lit "options")
                        (VList (items ++ [_parse_yaml_scalar item])) in
          Ok (Continue (with_inputs l (Dict.set (inputs l) ci meta)))
      | _ => Ok (Continue l)
      end)
  else Ok (Continue l).

(** One turn of [for raw_line in lines]. *)
Definition body (l : locals) (raw_line : str) : res flow :=
  if Py.str_eqb (Py.strip raw_line) [] then Ok (Continue l)
  else if negb (in_inputs l) then
    if Py.str_eqb (Py.strip raw_line) (Py.lit "inputs:") then
      Ok (Continue {| inputs := inputs l; in_inputs := true;
                      current_input := current_input l;
                      current_key := current_key l |})
    else Ok (Continue l)
  else if Py.startswith (Py.lit "  ") raw_line
          && negb (Py.startswith (Py.lit "    ") raw_line) then
    let line := Py.strip raw_line in
    if Py.str_eqb line (Py.lit "{}") then Ok (Break l)
    else if Py.endswith (Py.lit ":") line then
      let ci := Py.slice_to_last line in
      Ok (Continue {| inputs := Dict.set (inputs l) ci [];
                      in_inputs := in_inputs l;
                      current_input := Some ci;
                      current_key := None |})
    else Ok (Continue l)
  else
    match current_input l with
    | None => Ok (Continue l)
    | Some ci =>
        if Py.startswith (Py.lit "    ") raw_line then
          let stripped := Py.strip raw_line in
          if Py.endswith (Py.lit ":") stripped
             && negb (Py.contains (Py.lit ":") (Py.slice_to_last stripped)) then
            let ck := Py.slice_to_last stripped in
            if Py.str_eqb ck (Py.lit "options") then
              res_bind (Dict.subscript (inputs l) ci) (fun meta =>
                Ok (Continue
                      (with_current_key
                         (with_inputs l
                            (Dict.set (inputs l) ci (Dict.set meta ck (VList []))))
                         (Some ck))))
            else Ok (Continue (with_current_key l (Some ck)))
          else if Py.contains (Py.lit ":") stripped then
            match Py.split1 58%N stripped with
            | [key; value] =>
                res_bind (Dict.subscript (inputs l) ci) (fun meta =>
                  Ok (Continue
                        (with_current_key
                           (with_inputs l
                              (Dict.set (inputs l) ci
                                 (Dict.set meta (Py.strip key)
                                    (Scalar (_parse_yaml_scalar value)))))
                           None)))
            | _ => Raise ValueError
            end
          else option_item l ci raw_line
        else option_item l ci raw_line
    end.

Fixpoint loop (l : locals) (lines : list str) : res locals :=
  match lines with
  | [] => Ok l
  | raw_line :: rest =>
      match body l raw_line with
      | Ok (Continue l') => loop l' rest
      | Ok (Break l') => Ok l'
      | Raise e => Raise e
      end
  end.

(** The invariant of the loop: the current input, when there is one, is a
    key of [inputs]. *)
Definition current_input_known (l : locals) : Prop :=
  forall ci, current_input l = Some ci -> is_Some (Dict.get (inputs l) ci).

Definition flow_locals (f : flow) : locals :=
  match f with Continue l => l | Break l => l end.

End Parser.

Definition parse_workflow_options_yaml (text : str)
    : res (Dict.dict (Dict.dict pyval)) :=
  res_bind (Parser.loop Parser.initial (Py.splitlines text))
    (fun l => Ok (Parser.inputs l)).

(** ** The workflow run of one device *)

Inductive RunState := running | done | failed.

Record WorkflowRunInfo := {
  device_path : str;
  state : RunState;
  run_url : str;
  stdout : str;
  stderr : str;
  exit_code : option Z
}.

(** [QProcess]: its state, the decoded output that has arrived and was not
    read yet, the arguments it was started with and whether [kill] was
    called. *)
Inductive ProcessState := NotRunning | Starting | Running.

Inductive ProcessError :=
| FailedToStart | Crashed | Timedout | WriteError | ReadError | UnknownError.

Record QProcess := {
  pstate : ProcessState;
  out_buf : str;
  err_buf : str;
  started_with : option (list str);
  killed : bool
}.

Module QProc.

Definition fresh : QProcess :=
  {| pstate := NotRunning; out_buf := []; err_buf := [];
     started_with := None; killed := false |}.

(** [start("/bin/bash", args)]; a process that is not idle ignores it. *)
Definition start (args : list str) (p : QProcess) : QProcess :=
  match pstate p with
  | NotRunning =>
      {| pstate := Starting; out_buf := out_buf p; err_buf := err_buf p;
         started_with := Some args; killed := killed p |}
  | _ => p
  end.

Definition kill (p : QProcess) : QProcess :=
  {| pstate := pstate p; out_buf := out_buf p; err_buf := err_buf p;
     started_with := started_with p; killed := true |}.

Definition set_state (s : ProcessState) (p : QProcess) : QProcess :=
  {| pstate := s; out_buf := out_buf p; err_buf := err_buf p;
     started_with := started_with p; killed := killed p |}.

Definition arrive_out (data : str) (p : QProcess) : QProcess :=
  {| pstate := pstate p; out_buf := out_buf p ++ data; err_buf := err_buf p;
     started_with := started_with p; killed := killed p |}.

Definition arrive_err (data : str) (p : QProcess) : QProcess :=
  {| pstate := pstate p; out_buf := out_buf p; err_buf := err_buf p ++ data;
     started_with := started_with p; killed := killed p |}.

Definition take_out (p : QProcess) : QProcess :=
  {| pstate := pstate p; out_buf := []; err_buf := err_buf p;
     started_with := started_with p; killed := killed p |}.

Definition take_err (p : QProcess) : QProcess :=
  {| pstate := pstate p; out_buf := out_buf p; err_buf := [];
     started_with := started_with p; killed := killed p |}.

Definition is_active (p : QProcess) : bool :=
  match pstate p with NotRunning => false | _ => true end.

End QProc.

Record WorkflowRunTask := {
  info : WorkflowRunInfo;
  _inputs : Dict.dict str;
  _pending_workflow_args : option (list str);
  auth_process : QProcess;
  _flash_total_bytes : option Z;
  _last_progress_percent : Z;
  process : QProcess
}.

(** The signals of a task. *)
Inductive Event :=
| state_changed (dev : str) (s : RunState)
| output_changed (dev : str)
| finished_for_device (dev : str)
| progress_changed (dev : str) (percent : Z).

(** The percentages and the states among the signals of a task. *)
Definition progress_values (evs : list Event) : list Z :=
  omap (fun ev => match ev with progress_changed _ p => Some p | _ => None end) evs.

Definition state_values (evs : list Event) : list RunState :=
  omap (fun ev => match ev with state_changed _ s => Some s | _ => None end) evs.

Module Task.

(** A method of the task: the task after it, the signals it emitted, in
    order, and how it ended. *)
Definition M (A : Type) : Type :=
  WorkflowRunTask -> WorkflowRunTask * list Event * res A.

Definition ret {A : Type} (a : A) : M A := fun t => (t, [], Ok a).

Definition bind {A B : Type} (m : M A) (f : A -> M B) : M B :=
  fun t =>
    match m t with
    | (t1, ev1, Ok a) =>
        match f a t1 with
        | (t2, ev2, r) => (t2, ev1 ++ ev2, r)
        end
    | (t1, ev1, Raise e) => (t1, ev1, Raise e)
    end.

Definition raise {A : Type} (e : PyExn) : M A := fun t => (t, [], Raise e).

Definition emit (ev : Event) : M unit := fun t => (t, [ev], Ok tt).

Definition read {A : Type} (f : WorkflowRunTask -> A) : M A :=
  fun t => (t, [], Ok (f t)).

Definition modify (f : WorkflowRunTask -> WorkflowRunTask) : M unit :=
  fun t => (f t, [], Ok tt).

(** The assignments to the attributes of the task. *)
Definition upd_info (f : WorkflowRunInfo -> WorkflowRunInfo)
    (t : WorkflowRunTask) : WorkflowRunTask :=
  {| info := f (info t); _inputs := _inputs t;
     _pending_workflow_args := _pending_workflow_args t;
     auth_process := auth_process t;
     _flash_total_bytes := _flash_total_bytes t;
     _last_progress_percent := _last_progress_percent t;
     process := process t |}.

Definition upd_process (f : QProcess -> QProcess)
    (t : WorkflowRunTask) : WorkflowRunTask :=
  {| info := info t; _inputs := _inputs t;
     _pending_workflow_args := _pending_workflow_args t;
     auth_process := auth_process t;
     _flash_total_bytes := _flash_total_bytes t;
     _last_progress_percent := _last_progress_percent t;
     process := f (process t) |}.

Definition upd_pending_workflow_args (a : option (list str))
    (t : WorkflowRunTask) : WorkflowRunTask :=
  {| info := info t; _inputs := _inputs t;
     _pending_workflow_args := a;
     auth_process := auth_process t;
     _flash_total_bytes := _flash_total_bytes t;
     _last_progress_percent := _last_progress_percent t;
     process := process t |}.

(** [_flash_total_bytes] and [_last_progress_percent] *)
Definition upd_progress (total : option Z) (last : Z)
    (t : WorkflowRunTask) : WorkflowRunTask :=
  {| info := info t; _inputs := _inputs t;
     _pending_workflow_args := _pending_workflow_args t;
     auth_process := auth_process t;
     _flash_total_bytes := total;
     _last_progress_percent := last;
     process := process t |}.

Definition set_info (f : WorkflowRunInfo -> WorkflowRunInfo) : M unit :=
  modify (upd_info f).

Definition set_process (f : QProcess -> QProcess) : M unit :=
  modify (upd_process f).

Definition set_pending_workflow_args (a : option (list str)) : M unit :=
  modify (upd_pending_workflow_args a).

Definition set_flash_total_bytes (n : option Z) : M unit :=
  modify (fun t => upd_progress n (_last_progress_percent t) t).

Definition set_last_progress_percent (p : Z) : M unit :=
  modify (fun t => upd_progress (_flash_total_bytes t) p t).

Definition with_state (s : RunState) (i : WorkflowRunInfo) : WorkflowRunInfo :=
  {| device_path := device_path i; state := s; run_url := run_url i;
     stdout := stdout i; stderr := stderr i; exit_code := exit_code i |}.

Definition with_run_url (u : str) (i : WorkflowRunInfo) : WorkflowRunInfo :=
  {| device_path := device_path i; state := state i; run_url := u;
     stdout := stdout i; stderr := stderr i; exit_code := exit_code i |}.

Definition add_stdout (chunk : str) (i : WorkflowRunInfo) : WorkflowRunInfo :=
  {| device_path := device_path i; state := state i; run_url := run_url i;
     stdout := stdout i ++ chunk; stderr := stderr i;
     exit_code := exit_code i |}.

Definition add_stderr (chunk : str) (i : WorkflowRunInfo) : WorkflowRunInfo :=
  {| device_path := device_path i; state := state i; run_url := run_url i;
     stdout := stdout i; stderr := stderr i ++ chunk;
     exit_code := exit_code i |}.

Definition with_exit_code (c : Z) (i : WorkflowRunInfo) : WorkflowRunInfo :=
  {| device_path := device_path i; state := state i; run_url := run_url i;
     stdout := stdout i; stderr := stderr i; exit_code := Some c |}.

End Task.

Declare Scope task_scope.
Delimit Scope task_scope with task.
Notation "'let*' x ':=' m 'in' k" := (Task.bind m (fun x => k))
  (at level 10, x name, m at level 100, k at level 200) : task_scope.
Notation "m >> k" := (Task.bind m (fun _ => k))
  (at level 100, k at level 200, right associativity) : task_scope.

(** The signals of the [QProcess] of a task, as the event loop delivers
    them: output that arrived on a channel, the end of the process with its
    exit code, an error. *)
Inductive Signal :=
| readyReadStandardOutput (data : str)
| readyReadStandardError (data : str)
| finished (code : Z)
| errorOccurred (e : ProcessError).

Module WorkflowRunTask.

Import Task.
Local Open Scope task_scope.

Definition crlf (c : N) : bool := ((c =? 13) || (c =? 10))%N.

Section Methods.

Context (ud : UnicodeData).
(** [str(WORKFLOW_SCRIPT_PATH)], fixed by where the program is installed. *)
Context (WORKFLOW_SCRIPT_PATH : str).

(** [FLASH_IMAGE_SIZE_BYTES=(\d+)] *)
Definition size_re : Re.regex :=
  Re.Cat (Re.Lit (Py.lit "FLASH_IMAGE_SIZE_BYTES="))
         (Re.Group (Re.Plus (PyNum.isdecimal ud))).

(** [(?:^|[\r\n])\s*(\d+)\s+bytes\b[^\r\n]*\btransferred\b] *)
Definition dd_re : Re.regex :=
  Re.Cat (Re.Alt Re.Bol (Re.Cls crlf))
  (Re.Cat (Re.Star Py.isspace)
  (Re.Cat (Re.Group (Re.Plus (PyNum.isdecimal ud)))
  (Re.Cat (Re.Plus Py.isspace)
  (Re.Cat (Re.Lit (Py.lit "bytes"))
  (Re.Cat (Re.WordB (PyNum.isword ud))
  (Re.Cat (Re.Star (fun c => negb (crlf c)))
  (Re.Cat (Re.WordB (PyNum.isword ud))
  (Re.Cat (Re.Lit (Py.lit "transferred"))
          (Re.WordB (PyNum.isword ud)))))))))).

(** [__init__] *)
Definition new (device_path : str) (inputs : Dict.dict str) : WorkflowRunTask :=
  {| info := {| device_path := device_path; state := running; run_url := [];
                stdout := []; stderr := []; exit_code := None |};
     _inputs := inputs;
     _pending_workflow_args := None;
     auth_process := QProc.fresh;
     _flash_total_bytes := None;
     _last_progress_percent := -1;
     process := QProc.fresh |}.

Definition dev : M str := read (fun t => device_path (info t)).

Definition _start_workflow_process : M unit :=
  let* pending := read _pending_workflow_args in
  match pending with
  | None => ret tt
  | Some args => set_process (QProc.start args)
  end.

(** The arguments for the inputs: those with an empty value are left out. *)
Fixpoint input_args (items : Dict.dict str) : list str :=
  match items with
  | [] => []
  | (key, value) :: rest =>
      if Py.str_eqb value [] then input_args rest
      else Py.lit "--input" :: (key ++ Py.lit "=" ++ value) :: input_args rest
  end.

(** [start]; [script_exists] is what [WORKFLOW_SCRIPT_PATH.exists()]
    answers at the call. *)
Definition start (script_exists : bool) : M unit :=
  let* d := dev in
  if negb script_exists then
    set_info (add_stderr (Py.lit "Workflow script not found: "
                          ++ WORKFLOW_SCRIPT_PATH ++ [10%N])) >>
    set_info (with_state failed) >>
    emit (state_changed d failed) >>
    emit (output_changed d) >>
    emit (finished_for_device d)
  else
    let* inputs := read _inputs in
    let args := [WORKFLOW_SCRIPT_PATH; Py.lit "--run-custom"]
                ++ [Py.lit "--device-path"; d]
                ++ input_args inputs in
    set_pending_workflow_args (Some args) >>
    emit (state_changed d running) >>
    _start_workflow_process.

Definition _update_flash_progress : M unit :=
  let* d := dev in
  let* combined := read (fun t => stdout (info t) ++ [10%N] ++ stderr (info t)) in
  let* total0 := read _flash_total_bytes in
  (match total0 with
   | None =>
       match Re.search size_re combined with
       | Some digits =>
           set_flash_total_bytes (Some (PyNum.int_of_digits ud digits)) >>
           let* last := read _last_progress_percent in
           if last <? 0 then
             set_last_progress_percent 0 >>
             emit (progress_changed d 0)
           else ret tt
       | None => ret tt
       end
   | Some _ => ret tt
   end) >>
  let* total := read _flash_total_bytes in
  match total with
  | None => ret tt
  | Some 0 => ret tt
  | Some total =>
      let dd_matches := Re.findall dd_re combined in
      match dd_matches with
      | [] => ret tt
      | _ :: _ =>
          let transferred := PyNum.int_of_digits ud (List.last dd_matches []) in
          match PyNum.int_truediv (transferred * 100) total with
          | None => raise OverflowError
          | Some q =>
              let percent := PyNum.clamp_percent q in
              let* last := read _last_progress_percent in
              if negb (percent =? last) then
                set_last_progress_percent percent >>
                emit (progress_changed d percent)
              else ret tt
          end
      end
  end.

Definition is_run_link (line : str) : bool :=
  Py.startswith (Py.lit "https://github.com/") line
  && Py.contains (Py.lit "/actions/runs/") line.

(** The loop over the lines of a chunk in [_read_stdout]. *)
Fixpoint scan_run_url (lines : list str) : M unit :=
  match lines with
  | [] => ret tt
  | line :: rest =>
      let line := Py.strip line in
      (if is_run_link line then set_info (with_run_url line) else ret tt) >>
      scan_run_url rest
  end.

Definition _read_stdout : M unit :=
  let* chunk := read (fun t => out_buf (process t)) in
  set_process QProc.take_out >>
  match chunk with
  | [] => ret tt
  | _ :: _ =>
      set_info (add_stdout chunk) >>
      scan_run_url (Py.splitlines chunk) >>
      _update_flash_progress >>
      let* d := dev in
      emit (output_changed d)
  end.

Definition _read_stderr : M unit :=
  let* chunk := read (fun t => err_buf (process t)) in
  set_process QProc.take_err >>
  match chunk with
  | [] => ret tt
  | _ :: _ =>
      set_info (add_stderr chunk) >>
      _update_flash_progress >>
      let* d := dev in
      emit (output_changed d)
  end.

Definition _on_finished (exit_code : Z) : M unit :=
  _read_stdout >>
  _read_stderr >>
  set_info (with_exit_code exit_code) >>
  set_info (with_state (if exit_code =? 0 then done else failed)) >>
  let* d := dev in
  let* last := read _last_progress_percent in
  (if (exit_code =? 0) && negb (last =? 100) then
     set_last_progress_percent 100 >>
     emit (progress_changed d 100)
   else ret tt) >>
  let* st := read (fun t => state (info t)) in
  emit (state_changed d st) >>
  emit (finished_for_device d) >>
  emit (output_changed d).

Definition _on_error (_error : ProcessError) : M unit :=
  _read_stdout >>
  _read_stderr >>
  set_info (with_state failed) >>
  let* d := dev in
  emit (state_changed d failed) >>
  emit (output_changed d).

(** What [QProcess] does before it calls the slot connected to a signal:
    arrived output is in its buffer, a process that ended, failed to start
    or crashed is no longer running. *)
Definition before_slot (sig : Signal) : QProcess -> QProcess :=
  match sig with
  | readyReadStandardOutput data => QProc.arrive_out data
  | readyReadStandardError data => QProc.arrive_err data
  | finished _ => QProc.set_state NotRunning
  | errorOccurred FailedToStart => QProc.set_state NotRunning
  | errorOccurred Crashed => QProc.set_state NotRunning
  | errorOccurred _ => fun p => p
  end.

(** The slot connected to each signal in [__init__]. *)
Definition slot (sig : Signal) : M unit :=
  match sig with
  | readyReadStandardOutput _ => _read_stdout
  | readyReadStandardError _ => _read_stderr
  | finished code => _on_finished code
  | errorOccurred e => _on_error e
  end.

(** The delivery of one signal to the task. *)
Definition deliver (sig : Signal) : M unit :=
  set_process (before_slot sig) >> slot sig.

(** One run: the task is created and started, then the signals of its
    process arrive.  The result is the task at the end and everything it
    emitted; an exception ends the slot it is raised in, not the run. *)
Fixpoint deliver_all (sigs : list Signal) (t : WorkflowRunTask)
    : WorkflowRunTask * list Event :=
  match sigs with
  | [] => (t, [])
  | sig :: rest =>
      let '(t1, ev1, _) := deliver sig t in
      let '(t2, ev2) := deliver_all rest t1 in
      (t2, ev1 ++ ev2)
  end.

Definition run (device_path : str) (inputs : Dict.dict str)
    (script_exists : bool) (sigs : list Signal)
    : WorkflowRunTask * list Event :=
  let '(t0, ev0, _) := start script_exists (new device_path inputs) in
  let '(t1, ev1) := deliver_all sigs t0 in
  (t1, ev0 ++ ev1).

End Methods.

(** *** Vocabulary for the properties of a run *)

(** The task [start] leaves. *)
Definition started (WORKFLOW_SCRIPT_PATH : str) (d : str)
    (inputs : Dict.dict str) (script_exists : bool) : WorkflowRunTask :=
  (start WORKFLOW_SCRIPT_PATH script_exists (new d inputs)).1.1.

(** What [start] emits. *)
Definition start_events (d : str) (script_exists : bool) : list Event :=
  if script_exists then [state_changed d running]
  else [state_changed d failed; output_changed d; finished_for_device d].

(** No two neighbours of [prev :: ps] are equal. *)
Fixpoint chain (prev : Z) (ps : list Z) : Prop :=
  match ps with
  | [] => True
  | p :: ps' => p <> prev /\ chain p ps'
  end.

Definition is_progress (d : str) (ev : Event) : Prop :=
  exists p, ev = progress_changed d p /\ 0 <= p <= 100.

(** The run link after the lines [lines] were scanned: the last of them
    that is a link once stripped, [url] when there is none. *)
Definition link_after (lines : list str) (url : str) : str :=
  List.last (List.filter is_run_link (List.map Py.strip lines)) url.

(** Nothing has arrived that the task has not read. *)
Definition quiet (t : WorkflowRunTask) : Prop :=
  out_buf (process t) = [] /\ err_buf (process t) = [].

(** The state a signal of the process is answered with. *)
Definition terminal_state (sig : Signal) : list RunState :=
  match sig with
  | finished code => [if code =? 0 then done else failed]
  | errorOccurred _ => [failed]
  | _ => []
  end.

(** The signals that end a process or report its failure. *)
Definition is_ending (sig : Signal) : bool :=
  match sig with
  | finished _ | errorOccurred _ => true
  | _ => false
  end.

Definition terminal_states (sigs : list Signal) : list RunState :=
  concat (List.map terminal_state sigs).

Definition stdout_lines (sig : Signal) : list str :=
  match sig with
  | readyReadStandardOutput data => Py.splitlines data
  | _ => []
  end.

Definition all_stdout_lines (sigs : list Signal) : list str :=
  concat (List.map stdout_lines sigs).

(** The percentage [_on_finished] adds. *)
Definition final_progress (code last : Z) : list Z :=
  if (code =? 0) && negb (last =? 100) then [100] else [].

(** The accumulated output [_update_flash_progress] scans. *)
Definition combined (t : WorkflowRunTask) : str :=
  stdout (info t) ++ [10%N] ++ stderr (info t).

(** The byte count of the last transfer marker in the accumulated output. *)
Definition transferred (ud : UnicodeData) (t : WorkflowRunTask) : option Z :=
  match Re.findall (dd_re ud) (combined t) with
  | [] => None
  | m :: ms => Some (PyNum.int_of_digits ud (List.last (m :: ms) []))
  end.

(** Where a percentage [_update_flash_progress] emits comes from: it is
    the 0 of the discovery of the size hint, emitted when nothing was
    emitted before ([last] is negative), or the percentage of the last
    transfer marker [marker] for the total [total]. *)
Definition progress_source (last : Z) (marker total : option Z) (p : Z)
    : Prop :=
  (p = 0 /\ last < 0)
  \/ exists a T q,
       marker = Some a /\ total = Some T /\ T <> 0
       /\ PyNum.int_truediv (a * 100) T = Some q
       /\ p = PyNum.clamp_percent q.

(** The byte counts of the last transfer marker after each signal of a
    run, from the task [t] on; a signal after which the output has no
    marker adds none. *)
Fixpoint marker_trace (ud : UnicodeData) (sigs : list Signal)
    (t : WorkflowRunTask) : list Z :=
  match sigs with
  | [] => []
  | sig :: rest =>
      let t1 := (deliver ud sig t).1.1 in
      match transferred ud t1 with
      | Some a => a :: marker_trace ud rest t1
      | None => marker_trace ud rest t1
      end
  end.

(** [finished] is the last signal of a process, when it comes at all. *)
Fixpoint finished_last (sigs : list Signal) : bool :=
  match sigs with
  | [] => true
  | finished _ :: rest => match rest with [] => true | _ :: _ => false end
  | _ :: rest => finished_last rest
  end.

(** The last percentage is backed by a marker of at most [bound] bytes, or
    is at most 0. *)
Definition backed (t : WorkflowRunTask) (bound : Z) : Prop :=
  _last_progress_percent t <= 0
  \/ exists a T q,
       _flash_total_bytes t = Some T /\ 0 < T /\ 0 <= a <= bound
       /\ PyNum.int_truediv (a * 100) T = Some q
       /\ _last_progress_percent t = PyNum.clamp_percent q.

(** What a slot that reads a channel does to the task. *)
Record reads (ud : UnicodeData) (t t' : WorkflowRunTask) (evs : list Event)
    : Prop := {
  reads_dev : device_path (info t') = device_path (info t);
  reads_states : state_values evs = [];
  reads_bounds : Forall (fun p => 0 <= p <= 100) (progress_values evs);
  reads_chain : chain (_last_progress_percent t) (progress_values evs);
  reads_last : _last_progress_percent t'
               = List.last (progress_values evs) (_last_progress_percent t);
  reads_total : forall x, _flash_total_bytes t = Some x ->
                          _flash_total_bytes t' = Some x;
  reads_sorted : StronglySorted Z.le (progress_values evs);
  reads_source : forall p, In p (progress_values evs) ->
                 progress_source (_last_progress_percent t)
                   (transferred ud t') (_flash_total_bytes t') p;
  reads_nonneg : forall T, _flash_total_bytes t' = Some T ->
                 _flash_total_bytes t = Some T \/ 0 <= T
}.

(** What the delivery of a signal does to a task with nothing unread. *)
Record delivered (ud : UnicodeData) (sig : Signal) (t t' : WorkflowRunTask)
    (evs : list Event) : Prop := {
  dl_quiet : quiet t';
  dl_dev : device_path (info t') = device_path (info t);
  dl_states : state_values evs = terminal_state sig;
  dl_bounds : Forall (fun p => 0 <= p <= 100) (progress_values evs);
  dl_chain : chain (_last_progress_percent t) (progress_values evs);
  dl_last : _last_progress_percent t'
            = List.last (progress_values evs) (_last_progress_percent t);
  dl_total : forall x, _flash_total_bytes t = Some x ->
                       _flash_total_bytes t' = Some x;
  dl_url : run_url (info t')
           = link_after (stdout_lines sig) (run_url (info t));
  dl_sorted : StronglySorted Z.le (progress_values evs);
  dl_source : forall p, In p (progress_values evs) ->
              progress_source (_last_progress_percent t)
                (transferred ud t') (_flash_total_bytes t') p
              \/ (p = 100 /\ exists code, sig = finished code);
  dl_nonneg : forall T, _flash_total_bytes t' = Some T ->
              _flash_total_bytes t = Some T \/ 0 <= T
}.

(** What a sequence of signals does to a task with nothing unread. *)
Record ran (sigs : list Signal) (t t' : WorkflowRunTask) (evs : list Event)
    : Prop := {
  ran_quiet : quiet t';
  ran_dev : device_path (info t') = device_path (info t);
  ran_states : state_values evs = terminal_states sigs;
  ran_bounds : Forall (fun p => 0 <= p <= 100) (progress_values evs);
  ran_chain : chain (_last_progress_percent t) (progress_values evs);
  ran_last : _last_progress_percent t'
             = List.last (progress_values evs) (_last_progress_percent t);
  ran_total : forall x, _flash_total_bytes t = Some x ->
                        _flash_total_bytes t' = Some x;
  ran_url : run_url (info t')
            = link_after (all_stdout_lines sigs) (run_url (info t))
}.

End WorkflowRunTask.

(** ** The main window

    Kept of [MainWindow]: the last accepted listing, the dictionaries
    indexed by device and the tasks.  A task is an object that several
    dictionaries refer to and that lives on after it is dropped from them,
    so the tasks are in a store, [tasks], and the dictionaries hold
    references into it; [_workflow_history] refers to the [info] of the
    task, which is never replaced.  Of a dialog dictionary only the keys are
    kept.  The status line, the message boxes, the list widget and the
    start-up authentication are left out. *)

Definition row : Type := str * str * str.

Record MainWindow := {
  _last_devices : option (list str);
  _last_device_rows : option (list row);
  _device_states : gmap str RunState;
  _device_progress : gmap str Z;
  _workflow_runs : gmap str nat;
  _workflow_history : gmap str nat;
  _status_dialogs : gset str;
  _auth_output_dialogs : gset str;
  tasks : list WorkflowRunTask
}.

Module MainWindow.

Definition initial : MainWindow :=
  {| _last_devices := None; _last_device_rows := None;
     _device_states := ∅; _device_progress := ∅;
     _workflow_runs := ∅; _workflow_history := ∅;
     _status_dialogs := ∅; _auth_output_dialogs := ∅; tasks := [] |}.

Definition row_dev (r : row) : str := r.1.1.

(** The rows of a listing: the loop over [stdout.splitlines()]. *)
Definition parse_row (raw_line : str) : option row :=
  let line := Py.strip raw_line in
  match line with
  | [] => None
  | _ :: _ =>
      let parts := List.map Py.strip (Py.split 9%N line) in
      let dev := nth 0 parts [] in
      match dev with
      | [] => None
      | _ :: _ => Some (dev, nth 1 parts [], nth 2 parts [])
      end
  end.

Definition parse_rows (stdout : str) : list row :=
  omap parse_row (Py.splitlines stdout).

(** [task.auth_process.state() != NotRunning or
     task.process.state() != NotRunning] *)
Definition task_busy (t : WorkflowRunTask) : bool :=
  QProc.is_active (auth_process t) || QProc.is_active (process t).

(** [self._workflow_runs.get(dev)], through the reference. *)
Definition get_task (w : MainWindow) (dev : str) : option WorkflowRunTask :=
  match _workflow_runs w !! dev with
  | Some r => tasks w !! r
  | None => None
  end.

(** The test of the loop over [sorted(removed_devices)] and of
    [_start_workflow_for_device]: there is a task and it is busy. *)
Definition has_busy_task (w : MainWindow) (dev : str) : bool :=
  match get_task w dev with
  | Some t => task_busy t
  | None => false
  end.

Definition str_le (a b : str) : Prop := Py.str_leb a b = true.

#[global] Instance str_le_dec (a b : str) : Decision (str_le a b).
Proof. unfold str_le. apply _. Defined.

(** [sorted(s)] of a set of [str] *)
Definition sorted (s : gset str) : list str := merge_sort str_le (elements s).

(** The dictionary built by the comprehension over the previous rows: of two
    rows for one device the later one stays. *)
Definition rows_map (rows : list row) : gmap str row :=
  foldl (fun m r => <[row_dev r := r]> m) ∅ rows.

(** The local variables the loop over the retained devices changes. *)
Record listing := {
  device_rows : list row;
  devices : list str;
  current_devices : gset str
}.

Definition retain_one (previous_rows_map : gmap str row) (l : listing)
    (dev : str) : listing :=
  let r := default (dev, [], []) (previous_rows_map !! dev) in
  if bool_decide (row_dev r ∈ current_devices l) then l
  else {| device_rows := device_rows l ++ [r];
          devices := devices l ++ [row_dev r];
          current_devices := current_devices l ∪ {[row_dev r]} |}.

(** The reconciliation of [_on_finished], from [devices = ...] to the call
    of [_forget_removed_devices]: the listing to accept and the devices to
    forget. *)
Definition reconcile (w : MainWindow) (observed : list row)
    : listing * gset str :=
  let devices := List.map row_dev observed in
  let previous_devices : gset str :=
    list_to_set (default [] (_last_devices w)) in
  let current_devices : gset str := list_to_set devices in
  let removed_devices := previous_devices ∖ current_devices in
  let previous_rows_map := rows_map (default [] (_last_device_rows w)) in
  let retained_missing_devices :=
    List.filter (has_busy_task w) (sorted removed_devices) in
  let l0 := {| device_rows := observed; devices := devices;
               current_devices := current_devices |} in
  match retained_missing_devices with
  | [] => (l0, removed_devices)
  | _ :: _ =>
      (foldl (retain_one previous_rows_map) l0 retained_missing_devices,
       removed_devices ∖ list_to_set retained_missing_devices)
  end.

Definition kill_if_active (p : QProcess) : QProcess :=
  if QProc.is_active p then QProc.kill p else p.

Definition kill_task (t : WorkflowRunTask) : WorkflowRunTask :=
  {| info := info t; _inputs := _inputs t;
     _pending_workflow_args := _pending_workflow_args t;
     auth_process := kill_if_active (auth_process t);
     _flash_total_bytes := _flash_total_bytes t;
     _last_progress_percent := _last_progress_percent t;
     process := kill_if_active (process t) |}.

(** One turn of the loop of [_forget_removed_devices]. *)
Definition forget_one (device_path : str) (w : MainWindow) : MainWindow :=
  {| _last_devices := _last_devices w;
     _last_device_rows := _last_device_rows w;
     _device_states := delete device_path (_device_states w);
     _device_progress := delete device_path (_device_progress w);
     _workflow_runs := delete device_path (_workflow_runs w);
     _workflow_history := delete device_path (_workflow_history w);
     _status_dialogs := _status_dialogs w ∖ {[device_path]};
     _auth_output_dialogs := _auth_output_dialogs w ∖ {[device_path]};
     tasks :=
       match _workflow_runs w !! device_path with
       | Some r => alter kill_task r (tasks w)
       | None => tasks w
       end |}.

Definition _forget_removed_devices (removed_devices : gset str)
    (w : MainWindow) : MainWindow :=
  foldr forget_one w (elements removed_devices).

Definition accept_listing (l : listing) (w : MainWindow) : MainWindow :=
  {| _last_devices := Some (devices l);
     _last_device_rows := Some (device_rows l);
     _device_states := _device_states w;
     _device_progress := _device_progress w;
     _workflow_runs := _workflow_runs w;
     _workflow_history := _workflow_history w;
     _status_dialogs := _status_dialogs w;
     _auth_output_dialogs := _auth_output_dialogs w;
     tasks := tasks w |}.

(** [_on_finished]: the listing process ended with [exit_code] and wrote
    [stdout]. *)
Definition _on_finished (stdout : str) (exit_code : Z) (w : MainWindow)
    : MainWindow :=
  if negb (exit_code =? 0) then w
  else
    let device_rows := parse_rows stdout in
    if bool_decide (device_rows = default [] (_last_device_rows w)) then w
    else
      let '(l, removed_devices) := reconcile w device_rows in
      accept_listing l (_forget_removed_devices removed_devices w).

(** The slots of the window connected to the signals of a task. *)
Definition _on_workflow_state_changed (device_path : str) (s : RunState)
    (w : MainWindow) : MainWindow :=
  {| _last_devices := _last_devices w;
     _last_device_rows := _last_device_rows w;
     _device_states := <[device_path := s]> (_device_states w);
     _device_progress :=
       match s with
       | done => <[device_path := 100]> (_device_progress w)
       | _ => _device_progress w
       end;
     _workflow_runs := _workflow_runs w;
     _workflow_history := _workflow_history w;
     _status_dialogs := _status_dialogs w;
     _auth_output_dialogs := _auth_output_dialogs w;
     tasks := tasks w |}.

Definition _on_workflow_progress_changed (device_path : str) (percent : Z)
    (w : MainWindow) : MainWindow :=
  {| _last_devices := _last_devices w;
     _last_device_rows := _last_device_rows w;
     _device_states := _device_states w;
     _device_progress :=
       <[device_path := Z.max 0 (Z.min 100 percent)]> (_device_progress w);
     _workflow_runs := _workflow_runs w;
     _workflow_history := _workflow_history w;
     _status_dialogs := _status_dialogs w;
     _auth_output_dialogs := _auth_output_dialogs w;
     tasks := tasks w |}.

(** [_on_workflow_output_changed] and [_on_workflow_task_finished]: the
    history of the device refers to the info of its current task. *)
Definition refresh_history (device_path : str) (w : MainWindow) : MainWindow :=
  match _workflow_runs w !! device_path with
  | None => w
  | Some r =>
      {| _last_devices := _last_devices w;
         _last_device_rows := _last_device_rows w;
         _device_states := _device_states w;
         _device_progress := _device_progress w;
         _workflow_runs := _workflow_runs w;
         _workflow_history := <[device_path := r]> (_workflow_history w);
         _status_dialogs := _status_dialogs w;
         _auth_output_dialogs := _auth_output_dialogs w;
         tasks := tasks w |}
  end.

Definition _on_workflow_output_changed := refresh_history.
Definition _on_workflow_task_finished := refresh_history.

Definition on_event (ev : Event) : MainWindow -> MainWindow :=
  match ev with
  | state_changed d s => _on_workflow_state_changed d s
  | progress_changed d p => _on_workflow_progress_changed d p
  | output_changed d => _on_workflow_output_changed d
  | finished_for_device d => _on_workflow_task_finished d
  end.

(** The signals a task emitted reach the slots in the order of emission. *)
Definition dispatch (evs : list Event) (w : MainWindow) : MainWindow :=
  foldl (fun w ev => on_event ev w) w evs.

(** [_open_workflow_status]: the status dialog of the device exists and
    shows. *)
Definition _open_workflow_status (device_path : str) (w : MainWindow)
    : MainWindow :=
  {| _last_devices := _last_devices w;
     _last_device_rows := _last_device_rows w;
     _device_states := _device_states w;
     _device_progress := _device_progress w;
     _workflow_runs := _workflow_runs w;
     _workflow_history := _workflow_history w;
     _status_dialogs := _status_dialogs w ∪ {[device_path]};
     _auth_output_dialogs := _auth_output_dialogs w;
     tasks := tasks w |}.

(** The new task is registered for the device, in [_workflow_runs] and in
    [_workflow_history]. *)
Definition register (device_path : str) (t : WorkflowRunTask)
    (w : MainWindow) : MainWindow :=
  let r := length (tasks w) in
  {| _last_devices := _last_devices w;
     _last_device_rows := _last_device_rows w;
     _device_states := _device_states w;
     _device_progress := _device_progress w;
     _workflow_runs := <[device_path := r]> (_workflow_runs w);
     _workflow_history := <[device_path := r]> (_workflow_history w);
     _status_dialogs := _status_dialogs w;
     _auth_output_dialogs := _auth_output_dialogs w;
     tasks := tasks w ++ [t] |}.

Definition set_task (r : nat) (t : WorkflowRunTask) (w : MainWindow)
    : MainWindow :=
  {| _last_devices := _last_devices w;
     _last_device_rows := _last_device_rows w;
     _device_states := _device_states w;
     _device_progress := _device_progress w;
     _workflow_runs := _workflow_runs w;
     _workflow_history := _workflow_history w;
     _status_dialogs := _status_dialogs w;
     _auth_output_dialogs := _auth_output_dialogs w;
     tasks := <[r := t]> (tasks w) |}.

(** [{str(k): str(v) for k, v in inputs.items()}] *)
Definition dict_of_items (items : list (str * str)) : Dict.dict str :=
  foldl (fun d kv => Dict.set d kv.1 kv.2) [] items.

Section Methods.

Context (ud : UnicodeData) (WORKFLOW_SCRIPT_PATH : str).

(** [_start_workflow_for_device]; [script_exists] is what the file system
    answers to [start] of the new task. *)
Definition _start_workflow_for_device (device_path : str)
    (inputs : list (str * str)) (script_exists : bool) (w : MainWindow)
    : MainWindow :=
  if has_busy_task w device_path then _open_workflow_status device_path w
  else
    let r := length (tasks w) in
    let task := WorkflowRunTask.new device_path (dict_of_items inputs) in
    let w := register device_path task w in
    let '(task, evs, _) :=
      WorkflowRunTask.start WORKFLOW_SCRIPT_PATH script_exists task in
    let w := dispatch evs (set_task r task w) in
    _open_workflow_status device_path w.

(** A signal of the process of the task [r]: the task handles it and the
    window handles what the task emits. *)
Definition task_signal (r : nat) (sig : Signal) (w : MainWindow) : MainWindow :=
  match tasks w !! r with
  | None => w
  | Some t =>
      let '(t, evs, _) := WorkflowRunTask.deliver ud sig t in
      dispatch evs (set_task r t w)
  end.

End Methods.

(** *** Vocabulary for the properties of the reconciliation *)

(** The two records of the last listing agree. *)
Definition consistent (w : MainWindow) : Prop :=
  List.map row_dev (default [] (_last_device_rows w))
  = default [] (_last_devices w).

(** The windows the program can be in: the initial one, and from a window
    the one after a listing, after a start requested for a device, after a
    signal of the process of a task. *)
Inductive reachable (ud : UnicodeData) (WORKFLOW_SCRIPT_PATH : str)
    : MainWindow -> Prop :=
| reach_initial : reachable ud WORKFLOW_SCRIPT_PATH initial
| reach_listing stdout code w :
    reachable ud WORKFLOW_SCRIPT_PATH w ->
    reachable ud WORKFLOW_SCRIPT_PATH (_on_finished stdout code w)
| reach_start dev inputs script_exists w :
    reachable ud WORKFLOW_SCRIPT_PATH w ->
    reachable ud WORKFLOW_SCRIPT_PATH
      (_start_workflow_for_device WORKFLOW_SCRIPT_PATH dev inputs
         script_exists w)
| reach_signal r sig w :
    reachable ud WORKFLOW_SCRIPT_PATH w ->
    reachable ud WORKFLOW_SCRIPT_PATH (task_signal ud r sig w).

(** The row a retained device comes back with: the last one known for it,
    or one with blank attributes. *)
Definition last_known (w : MainWindow) (dev : str) : row :=
  default (dev, [], []) (rows_map (default [] (_last_device_rows w)) !! dev).

(** [retained_missing_devices] *)
Definition retained (w : MainWindow) (observed : list row) : list str :=
  List.filter (has_busy_task w)
    (sorted ((list_to_set (default [] (_last_devices w)))
             ∖ (list_to_set (List.map row_dev observed)))).

End MainWindow.

(** ** A small session

    One device, its line in the listing, the window after the listing was
    accepted and after a workflow was started for the device; the chunks of
    a flashing run. *)

Module Session.

Definition sdb : str := Py.lit "/dev/sdb".

Definition script : str := Py.lit "/opt/workflow_actions.sh".

Definition listing : str :=
  sdb ++ [9%N] ++ Py.lit "8G" ++ [9%N] ++ Py.lit "Kingston" ++ [10%N].

Definition polled : MainWindow :=
  MainWindow._on_finished listing 0 MainWindow.initial.

Definition flashing : MainWindow :=
  MainWindow._start_workflow_for_device script sdb [] true polled.

Definition size_hint : str := Py.text ["FLASH_IMAGE_SIZE_BYTES=2000"]%string.
Definition half : str := Py.text ["1000 bytes transferred"]%string.
Definition full : str := Py.text ["2000 bytes transferred"]%string.

End Session.

(** ** Vocabulary for the record of a run *)

Module RunRecord.

Import WorkflowRunTask.

Definition stdout_data (sig : Signal) : str :=
  match sig with readyReadStandardOutput data => data | _ => [] end.

Definition stderr_data (sig : Signal) : str :=
  match sig with readyReadStandardError data => data | _ => [] end.

Definition exit_code_of (sig : Signal) : list Z :=
  match sig with finished code => [code] | _ => [] end.

(** What a signal leaves in the record of the run; [url] is the run link
    after it. *)
Definition record_after (sig : Signal) (i : WorkflowRunInfo) (url : str)
    : WorkflowRunInfo :=
  {| device_path := device_path i;
     state := match sig with
              | finished code => if code =? 0 then done else failed
              | errorOccurred _ => failed
              | _ => state i
              end;
     run_url := url;
     stdout := stdout i ++ stdout_data sig;
     stderr := stderr i ++ stderr_data sig;
     exit_code := match sig with
                  | finished code => Some code
                  | _ => exit_code i
                  end |}.

Definition record_after_all (sigs : list Signal) (i : WorkflowRunInfo)
    : WorkflowRunInfo :=
  foldl (fun i sig =>
           record_after sig i (link_after (stdout_lines sig) (run_url i)))
        i sigs.

(** The line [start] adds to the error output when the script is missing. *)
Definition missing_script_message (WORKFLOW_SCRIPT_PATH : str)
    (script_exists : bool) : str :=
  if script_exists then []
  else Py.lit "Workflow script not found: " ++ WORKFLOW_SCRIPT_PATH ++ [10%N].

(** What no method of the task changes once [start] is over: the inputs,
    the arguments, the authentication process, and of the process what it
    was started with and whether it was killed. *)
Definition same_setup (t t' : WorkflowRunTask) : Prop :=
  _inputs t' = _inputs t
  /\ _pending_workflow_args t' = _pending_workflow_args t
  /\ auth_process t' = auth_process t
  /\ started_with (process t') = started_with (process t)
  /\ killed (process t') = killed (process t).

(** A method that keeps the setup of the task. *)
Definition keeps_setup {A : Type} (m : Task.M A) : Prop :=
  forall t, same_setup t (m t).1.1.

(** The device a signal of a task is about. *)
Definition event_dev (ev : Event) : str :=
  match ev with
  | state_changed d _ | output_changed d | finished_for_device d
  | progress_changed d _ => d
  end.

(** A method that, run by a task of the device [d], leaves the task with
    that device and emits signals about that device only. *)
Definition speaks_for {A : Type} (d : str) (m : Task.M A) : Prop :=
  forall t, device_path (info t) = d ->
    device_path (info (m t).1.1) = d
    /\ Forall (fun ev => event_dev ev = d) (m t).1.2.

End RunRecord.

(** ** The status dialog *)

(** What [WorkflowStatusDialog] shows: the status line, the line of the
    run link and the text of the output view. *)
Record StatusView := {
  status_label : str;
  run_url_label : str;
  output_view : str
}.

Module WorkflowStatusDialog.

(** [state_map]: the Ukrainian for [running], [done] and [failed], after
    the word [Workflow]. *)
Definition state_map (s : RunState) : str :=
  Py.lit "Workflow " ++
  match s with
  | running =>
      (* виконується *)
      [1074; 1080; 1082; 1086; 1085; 1091; 1108; 1090; 1100; 1089; 1103]%N
  | done =>
      (* завершено успішно *)
      [1079; 1072; 1074; 1077; 1088; 1096; 1077; 1085; 1086; 32;
       1091; 1089; 1087; 1110; 1096; 1085; 1086]%N
  | failed =>
      (* завершився з помилкою *)
      [1079; 1072; 1074; 1077; 1088; 1096; 1080; 1074; 1089; 1103; 32;
       1079; 32; 1087; 1086; 1084; 1080; 1083; 1082; 1086; 1102]%N
  end.

(** [set_info] *)
Definition set_info (info : WorkflowRunInfo) : StatusView :=
  let text := [] in
  let text :=
    if Py.str_eqb (stdout info) [] then text
    else text ++ Py.lit "[stdout]" ++ [10%N] ++ Py.rstrip (stdout info)
              ++ [10%N] in
  let text :=
    if Py.str_eqb (stderr info) [] then text
    else
      let text := if Py.str_eqb text [] then text else text ++ [10%N] in
      text ++ Py.lit "[stderr]" ++ [10%N] ++ Py.rstrip (stderr info) in
  {| status_label := state_map (state info);
     run_url_label := run_url info;
     output_view := Py.rstrip text |}.

End WorkflowStatusDialog.

(** ** The start-up authentication

    The part of [MainWindow] that runs [gh_auth.sh] once the window is up:
    the output of the script so far, the text last shown, whether the
    browser was opened and whether the line feed was sent, the process, and
    whether [_auth_output_dialogs] holds a dialog under [gh_auth.sh].  What
    the window does to the outside is recorded as a list of actions. *)

Inductive AuthAction :=
| openUrl (url : str)                  (* [QDesktopServices.openUrl] *)
| process_write (data : str)           (* [startup_auth_process.write] *)
| show_output (text : str)             (* the output dialog shows [text] *)
| close_output                         (* the output dialog is closed *)
| warning (text : str)                 (* [QMessageBox.warning] *)
| warning_not_started (e : ProcessError).

Record StartupAuth := {
  _startup_auth_stdout : str;
  _startup_auth_stderr : str;
  _startup_auth_last_emitted_text : str;
  _startup_auth_browser_opened : bool;
  _startup_auth_enter_sent : bool;
  startup_auth_process : QProcess;
  auth_output_dialog : bool
}.

(** What happens to the window as far as the authentication goes: a signal
    of the process, or the output dialog is destroyed (its
    [destroyed] signal drops it from [_auth_output_dialogs]). *)
Inductive AuthEvent :=
| auth_signal (sig : Signal)
| output_dialog_destroyed.

Module StartupAuth.

(** A method: the window after it and what it did. *)
Definition M : Type := StartupAuth -> StartupAuth * list AuthAction.

Definition skip : M := fun a => (a, []).

Definition seq (m1 m2 : M) : M :=
  fun a =>
    let '(a1, x1) := m1 a in
    let '(a2, x2) := m2 a1 in
    (a2, x1 ++ x2).

Definition initial : StartupAuth :=
  {| _startup_auth_stdout := []; _startup_auth_stderr := [];
     _startup_auth_last_emitted_text := [];
     _startup_auth_browser_opened := false;
     _startup_auth_enter_sent := false;
     startup_auth_process := QProc.fresh;
     auth_output_dialog := false |}.

Definition upd_process (f : QProcess -> QProcess) (a : StartupAuth)
    : StartupAuth :=
  {| _startup_auth_stdout := _startup_auth_stdout a;
     _startup_auth_stderr := _startup_auth_stderr a;
     _startup_auth_last_emitted_text := _startup_auth_last_emitted_text a;
     _startup_auth_browser_opened := _startup_auth_browser_opened a;
     _startup_auth_enter_sent := _startup_auth_enter_sent a;
     startup_auth_process := f (startup_auth_process a);
     auth_output_dialog := auth_output_dialog a |}.

Definition add_stdout (chunk : str) (a : StartupAuth) : StartupAuth :=
  {| _startup_auth_stdout := _startup_auth_stdout a ++ chunk;
     _startup_auth_stderr := _startup_auth_stderr a;
     _startup_auth_last_emitted_text := _startup_auth_last_emitted_text a;
     _startup_auth_browser_opened := _startup_auth_browser_opened a;
     _startup_auth_enter_sent := _startup_auth_enter_sent a;
     startup_auth_process := startup_auth_process a;
     auth_output_dialog := auth_output_dialog a |}.

Definition add_stderr (chunk : str) (a : StartupAuth) : StartupAuth :=
  {| _startup_auth_stdout := _startup_auth_stdout a;
     _startup_auth_stderr := _startup_auth_stderr a ++ chunk;
     _startup_auth_last_emitted_text := _startup_auth_last_emitted_text a;
     _startup_auth_browser_opened := _startup_auth_browser_opened a;
     _startup_auth_enter_sent := _startup_auth_enter_sent a;
     startup_auth_process := startup_auth_process a;
     auth_output_dialog := auth_output_dialog a |}.

Definition set_last_emitted_text (text : str) (a : StartupAuth)
    : StartupAuth :=
  {| _startup_auth_stdout := _startup_auth_stdout a;
     _startup_auth_stderr := _startup_auth_stderr a;
     _startup_auth_last_emitted_text := text;
     _startup_auth_browser_opened := _startup_auth_browser_opened a;
     _startup_auth_enter_sent := _startup_auth_enter_sent a;
     startup_auth_process := startup_auth_process a;
     auth_output_dialog := auth_output_dialog a |}.

Definition set_browser_opened (b : bool) (a : StartupAuth) : StartupAuth :=
  {| _startup_auth_stdout := _startup_auth_stdout a;
     _startup_auth_stderr := _startup_auth_stderr a;
     _startup_auth_last_emitted_text := _startup_auth_last_emitted_text a;
     _startup_auth_browser_opened := b;
     _startup_auth_enter_sent := _startup_auth_enter_sent a;
     startup_auth_process := startup_auth_process a;
     auth_output_dialog := auth_output_dialog a |}.

Definition set_enter_sent (b : bool) (a : StartupAuth) : StartupAuth :=
  {| _startup_auth_stdout := _startup_auth_stdout a;
     _startup_auth_stderr := _startup_auth_stderr a;
     _startup_auth_last_emitted_text := _startup_auth_last_emitted_text a;
     _startup_auth_browser_opened := _startup_auth_browser_opened a;
     _startup_auth_enter_sent := b;
     startup_auth_process := startup_auth_process a;
     auth_output_dialog := auth_output_dialog a |}.

Definition set_output_dialog (b : bool) (a : StartupAuth) : StartupAuth :=
  {| _startup_auth_stdout := _startup_auth_stdout a;
     _startup_auth_stderr := _startup_auth_stderr a;
     _startup_auth_last_emitted_text := _startup_auth_last_emitted_text a;
     _startup_auth_browser_opened := _startup_auth_browser_opened a;
     _startup_auth_enter_sent := _startup_auth_enter_sent a;
     startup_auth_process := startup_auth_process a;
     auth_output_dialog := b |}.

Definition login_url : str := Py.lit "https://github.com/login/device".

Definition enter_prompt : str :=
  Py.lit "Press Enter to open https://github.com/login/device".

Section Methods.

Context (ud : UnicodeData).
(** [str(GH_AUTH_SCRIPT_PATH)] *)
Context (GH_AUTH_SCRIPT_PATH : str).

(** [(https://github\.com/login/device)\b] *)
Definition login_re : Re.regex :=
  Re.Cat (Re.Group (Re.Lit login_url)) (Re.WordB (PyNum.isword ud)).

(** [_start_startup_auth]; [script_exists] is what
    [GH_AUTH_SCRIPT_PATH.exists()] answers. *)
Definition _start_startup_auth (script_exists : bool) : M :=
  fun a =>
    if negb script_exists then (a, [])
    else if QProc.is_active (startup_auth_process a) then (a, [])
    else (upd_process (QProc.start [GH_AUTH_SCRIPT_PATH]) a, []).

Definition _open_auth_browser (url : str) : M :=
  fun a => (a, [openUrl url]).

Definition _handle_startup_auth_interactive_output (chunk : str) : M :=
  seq
    (fun a =>
       match Re.search login_re chunk with
       | Some url =>
           if negb (_startup_auth_browser_opened a) then
             _open_auth_browser url (set_browser_opened true a)
           else (a, [])
       | None => (a, [])
       end)
    (fun a =>
       if Py.contains enter_prompt chunk
          && negb (_startup_auth_enter_sent a) then
         (set_enter_sent true a, [process_write [10%N]])
       else (a, [])).

(** [_show_auth_output_dialog] for the key [gh_auth.sh]: the dialog is
    created with the text or gets it, and shows. *)
Definition _show_auth_output_dialog (text : str) : M :=
  fun a => (set_output_dialog true a, [show_output text]).

Definition _emit_startup_auth_output_update : M :=
  fun a =>
    let text := [] in
    let text :=
      if Py.str_eqb (Py.strip (_startup_auth_stdout a)) [] then text
      else text ++ Py.lit "[stdout]" ++ [10%N]
                ++ Py.rstrip (_startup_auth_stdout a) ++ [10%N] in
    let text :=
      if Py.str_eqb (Py.strip (_startup_auth_stderr a)) [] then text
      else
        let text := if Py.str_eqb text [] then text else text ++ [10%N] in
        text ++ Py.lit "[stderr]" ++ [10%N]
             ++ Py.rstrip (_startup_auth_stderr a) in
    let text := Py.rstrip text in
    if negb (Py.str_eqb text [])
       && negb (Py.str_eqb text (_startup_auth_last_emitted_text a)) then
      _show_auth_output_dialog text (set_last_emitted_text text a)
    else (a, []).

Definition _read_startup_auth_stdout : M :=
  fun a =>
    let chunk := out_buf (startup_auth_process a) in
    let a := upd_process QProc.take_out a in
    match chunk with
    | [] => (a, [])
    | _ :: _ =>
        seq (_handle_startup_auth_interactive_output chunk)
            _emit_startup_auth_output_update
            (add_stdout chunk a)
    end.

Definition _read_startup_auth_stderr : M :=
  fun a =>
    let chunk := err_buf (startup_auth_process a) in
    let a := upd_process QProc.take_err a in
    match chunk with
    | [] => (a, [])
    | _ :: _ =>
        seq (_handle_startup_auth_interactive_output chunk)
            _emit_startup_auth_output_update
            (add_stderr chunk a)
    end.

(** [gh_auth.sh завершився з помилкою] *)
Definition failure_text : str :=
  Py.lit "gh_auth.sh " ++
  [1079; 1072; 1074; 1077; 1088; 1096; 1080; 1074; 1089; 1103; 32;
   1079; 32; 1087; 1086; 1084; 1080; 1083; 1082; 1086; 1102]%N.

Definition _on_startup_auth_finished (exit_code : Z) : M :=
  seq _read_startup_auth_stdout
  (seq _read_startup_auth_stderr
  (seq _emit_startup_auth_output_update
    (fun a =>
       if exit_code =? 0 then
         if auth_output_dialog a then
           (set_output_dialog false a, [close_output])
         else (a, [])
       else
         let err_text := failure_text in
         let err_text :=
           if Py.str_eqb (Py.strip (_startup_auth_stderr a)) [] then err_text
           else err_text ++ [10%N; 10%N]
                         ++ Py.strip (_startup_auth_stderr a) in
         (a, [warning err_text])))).

Definition _on_startup_auth_error (error : ProcessError) : M :=
  seq _read_startup_auth_stdout
  (seq _read_startup_auth_stderr
  (seq _emit_startup_auth_output_update
    (fun a => (a, [warning_not_started error])))).

(** The slot connected to each signal of the process in [__init__]. *)
Definition slot (sig : Signal) : M :=
  match sig with
  | readyReadStandardOutput _ => _read_startup_auth_stdout
  | readyReadStandardError _ => _read_startup_auth_stderr
  | finished code => _on_startup_auth_finished code
  | errorOccurred e => _on_startup_auth_error e
  end.

Definition on_event (ev : AuthEvent) : M :=
  match ev with
  | auth_signal sig =>
      fun a => slot sig (upd_process (WorkflowRunTask.before_slot sig) a)
  | output_dialog_destroyed => fun a => (set_output_dialog false a, [])
  end.

(** The events of a session, from the window [a] on. *)
Fixpoint run (evs : list AuthEvent) : M :=
  match evs with
  | [] => skip
  | ev :: rest => seq (on_event ev) (run rest)
  end.

End Methods.

(** *** Vocabulary for the properties of the authentication *)

Definition urls_opened (acts : list AuthAction) : list str :=
  omap (fun x => match x with openUrl url => Some url | _ => None end) acts.

Definition data_written (acts : list AuthAction) : list str :=
  omap (fun x => match x with process_write d => Some d | _ => None end) acts.

Definition texts_shown (acts : list AuthAction) : list str :=
  omap (fun x => match x with show_output t => Some t | _ => None end) acts.

(** No two neighbours of [prev :: texts] are equal and no text is empty. *)
Fixpoint fresh_texts (prev : str) (texts : list str) : Prop :=
  match texts with
  | [] => True
  | t :: rest => t <> [] /\ t <> prev /\ fresh_texts t rest
  end.

(** [l] is empty and the flag is as before, or [l] is [x] alone and the
    flag went from unset to set. *)
Definition at_most_once (flag flag' : bool) (l : list str) (x : str) : Prop :=
  (l = [] /\ flag' = flag) \/ (l = [x] /\ flag = false /\ flag' = true).

(** A method that opens the browser and sends the line feed at most once
    each, guarded by the flags, and shows only texts that are new. *)
Definition orderly (m : M) : Prop :=
  forall a,
    at_most_once (_startup_auth_browser_opened a)
      (_startup_auth_browser_opened (m a).1) (urls_opened (m a).2) login_url
    /\ at_most_once (_startup_auth_enter_sent a)
         (_startup_auth_enter_sent (m a).1) (data_written (m a).2) [10%N]
    /\ fresh_texts (_startup_auth_last_emitted_text a) (texts_shown (m a).2)
    /\ _startup_auth_last_emitted_text (m a).1
       = List.last (texts_shown (m a).2) (_startup_auth_last_emitted_text a)
    /\ Forall (fun t => Py.rstrip t = t) (texts_shown (m a).2).

End StartupAuth.

(** ** The double click on a device *)

Module Dialogs.

(** [_open_workflow_options]; [device_path] is
    [str(item.data(DEVICE_PATH_ROLE) or item.text())].  The second
    component is the device of the [WorkflowOptionsDialog] that is created,
    if one is. *)
Definition _open_workflow_options (device_path : str) (w : MainWindow)
    : MainWindow * option str :=
  let device_path := Py.strip device_path in
  if Py.str_eqb device_path [] then (w, None)
  else if bool_decide (is_Some (_workflow_history w !! device_path)) then
    (MainWindow._open_workflow_status device_path w, None)
  else (w, Some device_path).

End Dialogs.

(** ** The progress bar of a device

    Of [DeviceListDelegate.paint], the geometry: where the bar and its
    filled part are drawn in the rectangle of the item.  The colours and
    the drawing itself are left out. *)


Module Rect.







End Rect.

Module DeviceListDelegate.

(** [progress] of [paint], from the value under [DEVICE_PROGRESS_ROLE]. *)
Definition progress (progress_value : Z) : option Z :=
  if 0 <=? progress_value then Some progress_value else None.


End DeviceListDelegate.

(** * Properties *)

(** ** Lists *)

Lemma last_cons {A : Type} (l : list A) : forall x d,
  List.last (x :: l) d = List.last l x.
Proof.
  induction l as [|y l IH]; intros x d; [reflexivity|].
  change (List.last (x :: y :: l) d) with (List.last (y :: l) d).
  rewrite (IH y d), (IH y x). reflexivity.
Qed.

Lemma last_app_default {A : Type} (l1 l2 : list A) d :
  List.last (l1 ++ l2) d = List.last l2 (List.last l1 d).
Proof.
  revert d. induction l1 as [|x l1 IH]; intros d; [reflexivity|].
  rewrite <- app_comm_cons, !last_cons. apply IH.
Qed.

Lemma last_default_or_In {A : Type} (l : list A) d :
  List.last l d = d \/ In (List.last l d) l.
Proof.
  revert d. induction l as [|x l IH]; intros d; [by left|].
  right. rewrite last_cons. destruct (IH x) as [->|H]; [by left|by right].
Qed.

Lemma progress_values_app l1 l2 :
  progress_values (l1 ++ l2) = progress_values l1 ++ progress_values l2.
Proof. apply omap_app. Qed.

Lemma state_values_app l1 l2 :
  state_values (l1 ++ l2) = state_values l1 ++ state_values l2.
Proof. apply omap_app. Qed.

(** ** The options parser *)

Section DictFacts.

Context {V : Type}.

Lemma dict_get_set_same (d : Dict.dict V) k v :
  Dict.get (Dict.set d k v) k = Some v.
Proof.
  induction d as [|[k' v'] d IH]; simpl.
  - unfold Py.str_eqb. rewrite bool_decide_eq_true_2; done.
  - destruct (Py.str_eqb k' k) eqn:E; simpl; rewrite E; auto.
Qed.

Lemma dict_get_set_is_Some (d : Dict.dict V) k v k' :
  is_Some (Dict.get d k') -> is_Some (Dict.get (Dict.set d k v) k').
Proof.
  induction d as [|[k0 v0] d IH]; simpl; intros H.
  - destruct H as [x H]. discriminate.
  - destruct (Py.str_eqb k0 k) eqn:E; simpl;
      destruct (Py.str_eqb k0 k') eqn:E'; eauto.
Qed.

End DictFacts.

Section ParserFacts.

Import Parser.

(** A text that contains the separator splits in two. *)
Lemma split1_from_two sep cur s :
  Py.contains [sep] s = true ->
  exists a b, Py.split1_from sep cur s = [a; b].
Proof.
  revert cur. induction s as [|c s IH]; intros cur H; simpl in *.
  - discriminate.
  - destruct (N.eqb_spec c sep) as [->|Hne].
    + eauto.
    + apply IH. rewrite N.eqb_sym in H.
      destruct (N.eqb_spec c sep); [contradiction|]. exact H.
Qed.

Lemma option_item_ok l ci raw_line :
  current_input_known l -> current_input l = Some ci ->
  exists f, option_item l ci raw_line = Ok f
            /\ current_input_known (flow_locals f).
Proof.
  intros Hk Hci. unfold option_item.
  destruct (_ && _); [|eauto].
  destruct (Hk ci Hci) as [meta Hmeta].
  unfold Dict.subscript. rewrite Hmeta. simpl.
  match goal with |- context [Dict.get ?m (Py.lit "options")] =>
    destruct (Dict.get m (Py.lit "options")) as [[v|items]|] end;
    try (eexists; split; [reflexivity|]; exact Hk).
  eexists; split; [reflexivity|].
  intros ci' Hci'. simpl in *. apply dict_get_set_is_Some. auto.
Qed.

(** The body of the loop never raises and keeps the invariant. *)
Lemma body_ok l raw_line :
  current_input_known l ->
  exists f, body l raw_line = Ok f /\ current_input_known (flow_locals f).
Proof.
  intros Hk. unfold body.
  destruct (Py.str_eqb (Py.strip raw_line) []); [eauto|].
  destruct (in_inputs l); cbn [negb].
  2:{ destruct (Py.str_eqb _ _); eexists; (split; [reflexivity|]); exact Hk. }
  destruct (_ && _).
  { destruct (Py.str_eqb _ _); [eauto|].
    destruct (Py.endswith _ _); [|eauto].
    eexists; split; [reflexivity|].
    intros ci Hci. simpl in *. injection Hci as <-.
    rewrite dict_get_set_same. eauto. }
  destruct (current_input l) as [ci|] eqn:Hci; [|eauto].
  destruct (Py.startswith (Py.lit "    ") raw_line); [|by apply option_item_ok].
  destruct (_ && _).
  { destruct (Py.str_eqb _ _).
    - destruct (Hk ci Hci) as [meta Hmeta].
      unfold Dict.subscript. rewrite Hmeta. simpl.
      eexists; split; [reflexivity|].
      intros ci' Hci'. simpl in *. apply dict_get_set_is_Some. auto.
    - eexists; split; [reflexivity|]. exact Hk. }
  destruct (Py.contains (Py.lit ":") (Py.strip raw_line)) eqn:Hc;
    [|by apply option_item_ok].
  destruct (split1_from_two 58%N [] _ Hc) as (a & b & Hs).
  unfold Py.split1. rewrite Hs.
  destruct (Hk ci Hci) as [meta Hmeta].
  unfold Dict.subscript. rewrite Hmeta. simpl.
  eexists; split; [reflexivity|].
  intros ci' Hci'. simpl in *. apply dict_get_set_is_Some. auto.
Qed.

Lemma loop_ok lines : forall l,
  current_input_known l -> exists l', loop l lines = Ok l'.
Proof.
  induction lines as [|raw_line rest IH]; intros l Hk; simpl; [eauto|].
  destruct (body_ok l raw_line Hk) as (f & -> & Hf).
  destruct f; simpl in *; eauto.
Qed.

End ParserFacts.

(** C8: parsing the document [inputs: / bar: / options: / - a / - b] (two,
    four and six spaces of indentation, every line ended by a line feed)
    yields a mapping that has the field [bar], whose [options] attribute is
    exactly the list of the two strings [a] and [b]. *)
Theorem C8_parse_options_list :
  exists inputs meta,
    parse_workflow_options_yaml
      (Py.text ["inputs:"; "  bar:"; "    options:"; "      - a"; "      - b"]%string)
    = Ok inputs
    /\ Dict.get inputs (Py.lit "bar") = Some meta
    /\ Dict.get meta (Py.lit "options")
       = Some (VList [VStr (Py.lit "a"); VStr (Py.lit "b")])
    /\ inputs = [(Py.lit "bar", meta)]
    /\ meta = [(Py.lit "options", VList [VStr (Py.lit "a"); VStr (Py.lit "b")])].
Proof.
  do 2 eexists. split; [vm_compute; reflexivity|].
  repeat split; vm_compute; reflexivity.
Qed.

(** C9: for every input text, well formed or not, the parser returns a
    mapping (possibly partial or empty); no exception leaves it, whatever
    the lines are, and a line that fits no rule is passed over. *)
Theorem C9_parser_never_raises (text : str) :
  exists inputs, parse_workflow_options_yaml text = Ok inputs.
Proof.
  unfold parse_workflow_options_yaml.
  destruct (loop_ok (Py.splitlines text) Parser.initial) as [l ->].
  - intros ci H. discriminate.
  - simpl. eauto.
Qed.

(** ** The quotient through a float *)

Section FloatFacts.

Import PyNum.

Lemma round_half_even_bounds n d :
  0 < d -> n / d <= round_half_even n d <= n / d + 1.
Proof.
  intros Hd. unfold round_half_even.
  repeat case_match; lia.
Qed.

Lemma round_half_even_mono n n' d :
  0 < d -> n <= n' -> round_half_even n d <= round_half_even n' d.
Proof.
  intros Hd Hn.
  pose proof (Z.div_le_mono n n' d Hd Hn) as Hq.
  destruct (Z.eq_dec (n / d) (n' / d)) as [E|E].
  - unfold round_half_even. rewrite <- E.
    pose proof (Z.div_mod n d ltac:(lia)) as H1.
    pose proof (Z.div_mod n' d ltac:(lia)) as H2.
    rewrite <- E in H2.
    assert (n mod d <= n' mod d) by lia.
    repeat case_match; lia.
  - pose proof (round_half_even_bounds n d Hd).
    pose proof (round_half_even_bounds n' d Hd). lia.
Qed.

Lemma round_half_even_le n d k :
  0 < d -> n < k * d -> round_half_even n d <= k.
Proof.
  intros Hd Hn. pose proof (round_half_even_bounds n d Hd).
  assert (n / d < k) by (apply Z.div_lt_upper_bound; lia). lia.
Qed.

Lemma round_half_even_ge n d k :
  0 < d -> k * d <= n -> k <= round_half_even n d.
Proof.
  intros Hd Hn. pose proof (round_half_even_bounds n d Hd).
  assert (k <= n / d) by (apply Z.div_le_lower_bound; lia). lia.
Qed.

Lemma expo_spec a b :
  0 <= a -> 0 < b ->
  -1 <= expo a b
  /\ a < 2 ^ (expo a b + 1) * b
  /\ (0 <= expo a b -> 2 ^ expo a b * b <= a).
Proof.
  intros Ha Hb. unfold expo. destruct (Z.ltb_spec a b) as [Hlt|Hge].
  - cbn. lia.
  - assert (Hn : 0 < a / b) by (apply Z.div_str_pos; lia).
    pose proof (Z.log2_spec (a / b) Hn) as [Hlo Hhi].
    pose proof (Z.log2_nonneg (a / b)) as He.
    pose proof (Z.div_mod a b ltac:(lia)) as Hdm.
    pose proof (Z.mod_pos_bound a b Hb) as Hm.
    replace (Z.succ (Z.log2 (a / b))) with (Z.log2 (a / b) + 1) in Hhi by lia.
    split; [lia|]. split; [nia|]. intros _. nia.
Qed.

Lemma expo_mono a a' b :
  0 <= a <= a' -> 0 < b -> expo a b <= expo a' b.
Proof.
  intros Ha Hb. unfold expo.
  destruct (Z.ltb_spec a b), (Z.ltb_spec a' b); try lia.
  - pose proof (Z.log2_nonneg (a' / b)). lia.
  - apply Z.log2_le_mono. apply Z.div_le_mono; lia.
Qed.

Lemma int_truediv_trunc_quot a b q :
  int_truediv a b = Some q -> q = trunc_quot a b.
Proof.
  unfold int_truediv, trunc_quot. fold (expo a b).
  repeat case_match; congruence.
Qed.

Lemma trunc_quot_upper a b :
  0 <= a -> 0 < b -> trunc_quot a b <= 2 ^ (expo a b + 1).
Proof.
  intros Ha Hb. destruct (expo_spec a b Ha Hb) as (He & Hhi & _).
  unfold trunc_quot. cbv zeta.
  destruct (Z.leb_spec (expo a b) 52) as [H52|H52].
  - set (e := expo a b) in *.
    assert (HP : 0 < 2 ^ (52 - e)) by (apply Z.pow_pos_nonneg; lia).
    assert (HQ : 2 ^ (e + 1) * 2 ^ (52 - e) = 2 ^ 53).
    { rewrite <- Z.pow_add_r by lia. f_equal. lia. }
    assert (Hm : round_half_even (a * 2 ^ (52 - e)) b <= 2 ^ 53).
    { apply round_half_even_le; [lia|]. rewrite <- HQ. nia. }
    apply Z.div_le_upper_bound; [lia|]. nia.
  - set (e := expo a b) in *.
    assert (HP : 0 < 2 ^ (e - 52)) by (apply Z.pow_pos_nonneg; lia).
    assert (HQ : 2 ^ 53 * 2 ^ (e - 52) = 2 ^ (e + 1)).
    { rewrite <- Z.pow_add_r by lia. f_equal. lia. }
    assert (Hm : round_half_even a (b * 2 ^ (e - 52)) <= 2 ^ 53).
    { apply round_half_even_le; [nia|]. rewrite <- HQ in Hhi. nia. }
    rewrite <- HQ. nia.
Qed.

Lemma trunc_quot_lower a b :
  0 <= a -> 0 < b -> 0 <= expo a b -> 2 ^ expo a b <= trunc_quot a b.
Proof.
  intros Ha Hb He0. destruct (expo_spec a b Ha Hb) as (He & _ & Hlo).
  specialize (Hlo He0).
  unfold trunc_quot. cbv zeta.
  destruct (Z.leb_spec (expo a b) 52) as [H52|H52].
  - set (e := expo a b) in *.
    assert (HP : 0 < 2 ^ (52 - e)) by (apply Z.pow_pos_nonneg; lia).
    assert (HQ : 2 ^ e * 2 ^ (52 - e) = 2 ^ 52).
    { rewrite <- Z.pow_add_r by lia. f_equal. lia. }
    assert (Hm : 2 ^ 52 <= round_half_even (a * 2 ^ (52 - e)) b).
    { apply round_half_even_ge; [lia|]. rewrite <- HQ. nia. }
    apply Z.div_le_lower_bound; [lia|]. nia.
  - set (e := expo a b) in *.
    assert (HP : 0 < 2 ^ (e - 52)) by (apply Z.pow_pos_nonneg; lia).
    assert (HQ : 2 ^ 52 * 2 ^ (e - 52) = 2 ^ e).
    { rewrite <- Z.pow_add_r by lia. f_equal. lia. }
    assert (Hm : 2 ^ 52 <= round_half_even a (b * 2 ^ (e - 52))).
    { apply round_half_even_ge; [nia|]. rewrite <- HQ in Hlo. nia. }
    rewrite <- HQ. nia.
Qed.

Lemma trunc_quot_mono a a' b :
  0 <= a <= a' -> 0 < b -> trunc_quot a b <= trunc_quot a' b.
Proof.
  intros Ha Hb.
  pose proof (expo_mono a a' b Ha Hb) as He.
  destruct (Z.eq_dec (expo a b) (expo a' b)) as [E|E].
  - unfold trunc_quot. cbv zeta. rewrite <- E.
    destruct (expo_spec a b ltac:(lia) Hb) as (Hm1 & _).
    set (e := expo a b) in *.
    destruct (Z.leb_spec e 52) as [H52|H52].
    + assert (HP : 0 < 2 ^ (52 - e)) by (apply Z.pow_pos_nonneg; lia).
      apply Z.div_le_mono; [lia|].
      apply round_half_even_mono; [lia|nia].
    + assert (HP : 0 < 2 ^ (e - 52)) by (apply Z.pow_pos_nonneg; lia).
      apply Z.mul_le_mono_nonneg_r; [lia|].
      apply round_half_even_mono; [nia|lia].
  - destruct (expo_spec a b ltac:(lia) Hb) as (Hm1 & _).
    pose proof (trunc_quot_upper a b ltac:(lia) Hb) as Hu.
    pose proof (trunc_quot_lower a' b ltac:(lia) Hb ltac:(lia)) as Hl.
    assert (2 ^ (expo a b + 1) <= 2 ^ expo a' b)
      by (apply Z.pow_le_mono_r; lia).
    lia.
Qed.

(** [int(a / b)] does not decrease when [a] grows. *)
Lemma int_truediv_mono a a' b q q' :
  0 <= a <= a' -> 0 < b ->
  int_truediv a b = Some q -> int_truediv a' b = Some q' -> q <= q'.
Proof.
  intros Ha Hb H1 H2.
  apply int_truediv_trunc_quot in H1, H2. subst.
  by apply trunc_quot_mono.
Qed.

End FloatFacts.

(** ** The workflow run *)

Section TaskFacts.

Import Task WorkflowRunTask.

Context (ud : UnicodeData) (WORKFLOW_SCRIPT_PATH : str).

Lemma clamp_bounds q : 0 <= PyNum.clamp_percent q <= 100.
Proof. unfold PyNum.clamp_percent. lia. Qed.

Lemma chain_app ps1 : forall prev ps2,
  chain prev ps1 -> chain (List.last ps1 prev) ps2 -> chain prev (ps1 ++ ps2).
Proof.
  induction ps1 as [|p ps1 IH]; intros prev ps2 H1 H2; [exact H2|].
  destruct H1 as [Hne H1]. split; [exact Hne|].
  apply IH; [exact H1|]. rewrite last_cons in H2. exact H2.
Qed.

Lemma link_after_cons line lines url :
  link_after (line :: lines) url
  = link_after lines (if is_run_link (Py.strip line) then Py.strip line else url).
Proof.
  unfold link_after. cbn [List.map List.filter].
  destruct (is_run_link (Py.strip line)); [|reflexivity].
  apply last_cons.
Qed.

Lemma link_after_app l1 l2 url :
  link_after (l1 ++ l2) url = link_after l2 (link_after l1 url).
Proof.
  unfold link_after. rewrite List.map_app, List.filter_app.
  apply last_app_default.
Qed.

(** [_update_flash_progress] changes the total and the last percentage
    only, and emits percentages only: each one in range and different from
    the one before. *)
Lemma _update_flash_progress_spec t :
  exists total' last' evs r,
    _update_flash_progress ud t = (upd_progress total' last' t, evs, r)
    /\ Forall (is_progress (device_path (info t))) evs
    /\ chain (_last_progress_percent t) (progress_values evs)
    /\ last' = List.last (progress_values evs) (_last_progress_percent t)
    /\ (forall x, _flash_total_bytes t = Some x -> total' = Some x).
Proof.
  unfold _update_flash_progress.
  cbv [bind read dev ret emit raise modify set_flash_total_bytes
       set_last_progress_percent upd_progress].
  destruct t as [i inp pend ap total last pr].
  cbn [_flash_total_bytes _last_progress_percent info process _inputs
       _pending_workflow_args auth_process].
  pose proof clamp_bounds as Hc.
  repeat case_match; simplify_eq/=;
    (do 4 eexists; split; [reflexivity|]);
    cbn [progress_values omap list_omap app List.last chain];
    repeat match goal with
    | H : negb _ = true |- _ => apply negb_true_iff, Z.eqb_neq in H
    | H : (_ <? _) = true |- _ => apply Z.ltb_lt in H
    end;
    (split; [repeat constructor; eexists; (split; [reflexivity|]);
             first [apply Hc | lia] |]).
  all: repeat split; try done; try lia; intros; simplify_eq; done.
Qed.

Lemma int_of_digits_nonneg s : 0 <= PyNum.int_of_digits ud s.
Proof.
  unfold PyNum.int_of_digits.
  assert (H : forall acc, 0 <= acc ->
    0 <= fold_left (fun acc c => 10 * acc + match PyNum.todecimal ud c with
                              | Some d => Z.of_N d
                              | None => 0
                              end) s acc).
  { induction s as [|c s IH]; intros acc Hacc; cbn; [exact Hacc|].
    apply IH. destruct (PyNum.todecimal ud c); lia. }
  apply H. lia.
Qed.

(** The percentages of one [_update_flash_progress] do not decrease, and
    each has its source. *)
Lemma _update_flash_progress_values t :
  exists total' last' evs r,
    _update_flash_progress ud t = (upd_progress total' last' t, evs, r)
    /\ StronglySorted Z.le (progress_values evs)
    /\ (forall p, In p (progress_values evs) ->
        progress_source (_last_progress_percent t) (transferred ud t) total' p)
    /\ (forall T, total' = Some T ->
                  _flash_total_bytes t = Some T \/ 0 <= T).
Proof.
  unfold _update_flash_progress, progress_source, transferred, combined.
  cbv [bind read dev ret emit raise modify set_flash_total_bytes
       set_last_progress_percent upd_progress].
  destruct t as [i inp pend ap total last pr].
  cbn [_flash_total_bytes _last_progress_percent info process _inputs
       _pending_workflow_args auth_process].
  pose proof (clamp_bounds) as Hc.
  pose proof int_of_digits_nonneg as Hd.
  generalize (Re.findall (dd_re ud) (stdout i ++ [10%N] ++ stderr i)).
  generalize (Re.search (size_re ud) (stdout i ++ [10%N] ++ stderr i)).
  intros sr tr.
  repeat case_match; simplify_eq/=;
    (do 4 eexists; split; [reflexivity|]);
    cbn [progress_values omap list_omap app];
    repeat match goal with
    | H : (_ <? _) = true |- _ => apply Z.ltb_lt in H
    end.
  all: split_and!.
  all: try (intros T' HT; simplify_eq; by eauto).
  all: try (repeat constructor;
            match goal with
            | |- _ <= PyNum.clamp_percent ?q => pose proof (Hc q); lia
            end).
  all: try (by repeat constructor).
  all: intros p Hp; cbn in Hp;
      repeat (destruct Hp as [<-|Hp]; [|]); try done.
  all: try (left; split; [reflexivity|lia]).
  all: try (right; do 3 eexists; split_and!; try reflexivity; try done;
            eassumption).
  all: match goal with H : PyNum.int_of_digits _ _ = _ |- _ => rewrite H end;
    right; do 3 eexists; split_and!; try reflexivity; try done; eassumption.
Qed.

(** Both descriptions of one [_update_flash_progress] together. *)
Lemma _update_flash_progress_full t :
  exists total' last' evs r,
    _update_flash_progress ud t = (upd_progress total' last' t, evs, r)
    /\ Forall (is_progress (device_path (info t))) evs
    /\ chain (_last_progress_percent t) (progress_values evs)
    /\ last' = List.last (progress_values evs) (_last_progress_percent t)
    /\ (forall x, _flash_total_bytes t = Some x -> total' = Some x)
    /\ StronglySorted Z.le (progress_values evs)
    /\ (forall p, In p (progress_values evs) ->
        progress_source (_last_progress_percent t) (transferred ud t) total' p)
    /\ (forall T, total' = Some T ->
                  _flash_total_bytes t = Some T \/ 0 <= T).
Proof.
  destruct (_update_flash_progress_spec t)
    as (total' & last' & evs & r & Heq & Hev & Hch & Hl & Ht).
  destruct (_update_flash_progress_values t)
    as (total2 & last2 & evs2 & r2 & Heq2 & Hso & Hsrc & Hnn).
  rewrite Heq in Heq2. unfold upd_progress in Heq2. simplify_eq.
  do 4 eexists. split; [exact Heq|]. split_and!; first [assumption|reflexivity].
Qed.

Lemma scan_run_url_spec lines : forall t,
  scan_run_url lines t
  = (upd_info (with_run_url (link_after lines (run_url (info t)))) t, [], Ok tt).
Proof.
  induction lines as [|line lines IH]; intros t.
  - destruct t as [[] ?]; reflexivity.
  - rewrite link_after_cons. cbn [scan_run_url].
    unfold bind at 1. destruct (is_run_link (Py.strip line)).
    + cbv [set_info modify]. rewrite IH. destruct t as [[] ?]; reflexivity.
    + cbv [ret]. rewrite IH. reflexivity.
Qed.

Lemma progress_events d evs :
  Forall (is_progress d) evs ->
  state_values evs = []
  /\ Forall (fun p => 0 <= p <= 100) (progress_values evs)
  /\ state_values (evs ++ [output_changed d]) = []
  /\ progress_values (evs ++ [output_changed d]) = progress_values evs.
Proof.
  induction 1 as [|ev evs (p & -> & Hp) _ (IH1 & IH2 & IH3 & IH4)];
    [by repeat split|].
  cbn. repeat split; auto. by f_equal.
Qed.

Lemma _read_stdout_spec t :
  exists t' evs r,
    _read_stdout ud t = (t', evs, r)
    /\ reads ud t t' evs
    /\ out_buf (process t') = []
    /\ err_buf (process t') = err_buf (process t)
    /\ run_url (info t')
       = link_after (Py.splitlines (out_buf (process t))) (run_url (info t))
    /\ (out_buf (process t) = [] -> evs = [] /\ r = Ok tt
        /\ info t' = info t /\ _flash_total_bytes t' = _flash_total_bytes t).
Proof.
  unfold _read_stdout. cbv [bind read set_process modify].
  destruct (out_buf (process t)) as [|c chunk] eqn:Hbuf.
  - cbv [ret]. do 3 eexists. split; [reflexivity|].
    cbn. split_and!; auto.
    constructor; cbn; auto; first [by apply SSorted_nil | by intros ? []].
  - cbv [set_info modify]. rewrite scan_run_url_spec.
    match goal with |- context [_update_flash_progress ud ?x] =>
      destruct (_update_flash_progress_full x)
        as (total' & last' & evs & r & -> & Hev & Hch & Hl & Ht
            & Hso & Hsrc & Hnn)
    end.
    cbn in Hev, Hch, Hl, Ht, Hnn.
    destruct (progress_events _ _ Hev) as (Hs & Hb & Hs' & Hp').
    destruct r as [[]|e]; cbv [dev read emit]; cbn -[link_after];
      (do 3 eexists; split; [reflexivity|]); cbn -[link_after];
      rewrite ?app_nil_r;
      (split; [constructor; cbn -[transferred]; rewrite ?Hp'; auto;
               intros p Hin; exact (Hsrc p Hin)|]);
      split_and!; try done.
Qed.

Lemma _read_stderr_spec t :
  exists t' evs r,
    _read_stderr ud t = (t', evs, r)
    /\ reads ud t t' evs
    /\ err_buf (process t') = []
    /\ out_buf (process t') = out_buf (process t)
    /\ run_url (info t') = run_url (info t)
    /\ (err_buf (process t) = [] -> evs = [] /\ r = Ok tt
        /\ info t' = info t /\ _flash_total_bytes t' = _flash_total_bytes t).
Proof.
  unfold _read_stderr. cbv [bind read set_process modify].
  destruct (err_buf (process t)) as [|c chunk] eqn:Hbuf.
  - cbv [ret]. do 3 eexists. split; [reflexivity|].
    cbn. split_and!; auto.
    constructor; cbn; auto; first [by apply SSorted_nil | by intros ? []].
  - cbv [set_info modify].
    match goal with |- context [_update_flash_progress ud ?x] =>
      destruct (_update_flash_progress_full x)
        as (total' & last' & evs & r & -> & Hev & Hch & Hl & Ht
            & Hso & Hsrc & Hnn)
    end.
    cbn in Hev, Hch, Hl, Ht, Hnn.
    destruct (progress_events _ _ Hev) as (Hs & Hb & Hs' & Hp').
    destruct r as [[]|e]; cbv [dev read emit]; cbn;
      (do 3 eexists; split; [reflexivity|]); cbn -[transferred];
      rewrite ?app_nil_r;
      (split; [constructor; cbn -[transferred]; rewrite ?Hp'; auto;
               intros p Hin; exact (Hsrc p Hin)|]);
      split_and!; try done.
Qed.

(** With nothing unread, [_on_finished] comes to its end: it emits the
    final percentage when there is one to emit, then the state. *)
Lemma _on_finished_quiet code t :
  quiet t ->
  exists t',
    _on_finished ud code t
    = (t', List.map (progress_changed (device_path (info t)))
             (final_progress code (_last_progress_percent t))
           ++ [state_changed (device_path (info t))
                 (if code =? 0 then done else failed);
               finished_for_device (device_path (info t));
               output_changed (device_path (info t))], Ok tt)
    /\ quiet t'
    /\ device_path (info t') = device_path (info t)
    /\ run_url (info t') = run_url (info t)
    /\ _flash_total_bytes t' = _flash_total_bytes t
    /\ _last_progress_percent t'
       = List.last (final_progress code (_last_progress_percent t))
           (_last_progress_percent t).
Proof.
  intros [Ho He]. unfold _on_finished.
  unfold bind at 1.
  destruct (_read_stdout_spec t)
    as (t1 & e1 & r1 & -> & R1 & Ho1 & He1 & _ & Q1).
  destruct (Q1 Ho) as (-> & -> & Hi1 & Ht1). clear Q1.
  unfold bind at 1.
  destruct (_read_stderr_spec t1)
    as (t2 & e2 & r2 & -> & R2 & He2 & Ho2 & _ & Q2).
  rewrite He1 in Q2. destruct (Q2 He) as (-> & -> & Hi2 & Ht2). clear Q2.
  pose proof (reads_last _ _ _ _ R1) as L1.
  pose proof (reads_last _ _ _ _ R2) as L2.
  cbn in L1, L2.
  cbv [bind set_info modify read dev emit ret set_last_progress_percent].
  cbn [info upd_info with_state with_exit_code device_path state
       _last_progress_percent upd_progress app].
  unfold final_progress. rewrite L2, L1, Hi2, Hi1.
  destruct ((code =? 0) && negb (_last_progress_percent t =? 100)) eqn:E;
    (eexists; split; [reflexivity|]); unfold quiet; cbn;
    rewrite ?Ho2, ?He2, ?Ho1, ?Hi2, ?Hi1, ?Ht2, ?Ht1, ?L2, ?L1;
    repeat split; auto.
Qed.

Lemma _on_error_quiet e t :
  quiet t ->
  exists t',
    _on_error ud e t
    = (t', [state_changed (device_path (info t)) failed;
            output_changed (device_path (info t))], Ok tt)
    /\ quiet t'
    /\ device_path (info t') = device_path (info t)
    /\ run_url (info t') = run_url (info t)
    /\ _flash_total_bytes t' = _flash_total_bytes t
    /\ _last_progress_percent t' = _last_progress_percent t.
Proof.
  intros [Ho He]. unfold _on_error.
  unfold bind at 1.
  destruct (_read_stdout_spec t)
    as (t1 & e1 & r1 & -> & R1 & Ho1 & He1 & _ & Q1).
  destruct (Q1 Ho) as (-> & -> & Hi1 & Ht1). clear Q1.
  unfold bind at 1.
  destruct (_read_stderr_spec t1)
    as (t2 & e2 & r2 & -> & R2 & He2 & Ho2 & _ & Q2).
  rewrite He1 in Q2. destruct (Q2 He) as (-> & -> & Hi2 & Ht2). clear Q2.
  pose proof (reads_last _ _ _ _ R1) as L1.
  pose proof (reads_last _ _ _ _ R2) as L2.
  cbn in L1, L2.
  cbv [bind set_info modify read dev emit ret].
  cbn [info upd_info with_state device_path app].
  rewrite Hi2, Hi1.
  eexists; split; [reflexivity|]. unfold quiet; cbn.
  rewrite ?Ho2, ?He2, ?Ho1, ?Hi2, ?Hi1, ?Ht2, ?Ht1, ?L2, ?L1;
    repeat split; auto.
Qed.

Lemma final_events d ps s :
  progress_values
    (List.map (progress_changed d) ps
     ++ [state_changed d s; finished_for_device d; output_changed d]) = ps
  /\ state_values
       (List.map (progress_changed d) ps
        ++ [state_changed d s; finished_for_device d; output_changed d]) = [s].
Proof.
  induction ps as [|p ps [IH1 IH2]]; cbn; [done|]. split; [by f_equal|done].
Qed.

Lemma final_progress_chain code last :
  Forall (fun p => 0 <= p <= 100) (final_progress code last)
  /\ chain last (final_progress code last).
Proof.
  unfold final_progress.
  destruct (code =? 0); cbn; [|done].
  destruct (Z.eqb_spec last 100); cbn; [done|].
  split; [repeat constructor; lia|]. split; [congruence|done].
Qed.

Lemma final_progress_values code last :
  StronglySorted Z.le (final_progress code last)
  /\ forall p, In p (final_progress code last) -> p = 100.
Proof.
  unfold final_progress. destruct (_ && _); cbn.
  - split; [repeat constructor|]. by intros p [<-|[]].
  - split; [constructor|]. by intros p [].
Qed.

Lemma deliver_quiet sig t :
  quiet t ->
  exists t' evs r, deliver ud sig t = (t', evs, r) /\ delivered ud sig t t' evs.
Proof.
  intros [Ho He]. unfold deliver, bind, set_process, modify.
  destruct sig as [data|data|code|e]; cbn [slot before_slot app].
  - match goal with |- context [_read_stdout ud ?x] =>
      destruct (_read_stdout_spec x)
        as (t' & evs & r & -> & R & Ho' & He' & Hu & _)
    end.
    destruct R. cbn -[transferred] in *. rewrite Ho in Hu. cbn in Hu.
    do 3 eexists. split; [reflexivity|].
    constructor; auto. split; [auto|congruence].
  - match goal with |- context [_read_stderr ud ?x] =>
      destruct (_read_stderr_spec x)
        as (t' & evs & r & -> & R & He' & Ho' & Hu & _)
    end.
    destruct R. cbn -[transferred] in *.
    do 3 eexists. split; [reflexivity|].
    constructor; auto. split; [congruence|auto].
  - match goal with |- context [_on_finished ud code ?x] =>
      destruct (_on_finished_quiet code x)
        as (t' & -> & Hq & Hd & Hu & Ht & Hl); [split; assumption|]
    end.
    cbn in *.
    destruct (final_events (device_path (info t))
                (final_progress code (_last_progress_percent t))
                (if code =? 0 then done else failed)) as [Hp Hs].
    destruct (final_progress_chain code (_last_progress_percent t))
      as [Hb Hc].
    destruct (final_progress_values code (_last_progress_percent t))
      as [Hso H100].
    do 3 eexists. split; [reflexivity|].
    constructor; rewrite ?Hp; auto; try congruence.
    + intros p Hin. right. split; [by apply H100|by exists code].
    + intros T HT. left. congruence.
  - assert (Hq0 : quiet (upd_process
                (match e with
                 | FailedToStart | Crashed => QProc.set_state NotRunning
                 | _ => fun p => p
                 end) t)) by (destruct e; split; assumption).
    match goal with |- context [_on_error ud e ?x] =>
      destruct (_on_error_quiet e x) as (t' & Heq & Hq & Hd & Hu & Ht & Hl);
        [destruct e; exact Hq0|]
    end.
    destruct e; cbn in *; rewrite Heq;
      (do 3 eexists; split; [reflexivity|]);
      (constructor; cbn; auto; try congruence;
       first [by apply SSorted_nil | by intros ? [] | intros T HT; left; congruence]).
Qed.

Lemma deliver_all_quiet sigs : forall t,
  quiet t ->
  ran sigs t (deliver_all ud sigs t).1 (deliver_all ud sigs t).2.
Proof.
  induction sigs as [|sig sigs IH]; intros t Hq; cbn [deliver_all].
  - constructor; cbn; auto.
  - destruct (deliver_quiet sig t Hq) as (t1 & ev1 & r1 & -> & D).
    destruct D. specialize (IH t1 dl_quiet0).
    destruct (deliver_all ud sigs t1) as [t2 ev2]. destruct IH.
    cbn [fst snd] in *.
    constructor; cbn [fst snd];
      rewrite ?progress_values_app, ?state_values_app.
    + assumption.
    + congruence.
    + unfold terminal_states. cbn [List.map concat].
      fold (terminal_states sigs). congruence.
    + apply Forall_app; auto.
    + apply chain_app; [assumption|]. rewrite <- dl_last0. assumption.
    + rewrite last_app_default, <- dl_last0. assumption.
    + auto.
    + unfold all_stdout_lines. cbn [List.map concat].
      fold (all_stdout_lines sigs).
      rewrite link_after_app, <- dl_url0. assumption.
Qed.

Lemma deliver_all_app sigs1 sigs2 : forall t,
  deliver_all ud (sigs1 ++ sigs2) t
  = ((deliver_all ud sigs2 (deliver_all ud sigs1 t).1).1,
     (deliver_all ud sigs1 t).2
     ++ (deliver_all ud sigs2 (deliver_all ud sigs1 t).1).2).
Proof.
  induction sigs1 as [|sig sigs1 IH]; intros t; cbn [deliver_all app].
  - cbn. by destruct (deliver_all ud sigs2 t).
  - destruct (deliver ud sig t) as [[t1 ev1] r1]. rewrite IH.
    destruct (deliver_all ud sigs1 t1) as [t2 ev2]. cbn.
    by rewrite app_assoc.
Qed.

Lemma start_spec dev inputs script_exists :
  let t0 := started WORKFLOW_SCRIPT_PATH dev inputs script_exists in
  start WORKFLOW_SCRIPT_PATH script_exists (new dev inputs)
  = (t0, start_events dev script_exists, Ok tt)
  /\ quiet t0
  /\ device_path (info t0) = dev
  /\ _last_progress_percent t0 = -1
  /\ run_url (info t0) = []
  /\ _flash_total_bytes t0 = None.
Proof. destruct script_exists; repeat split. Qed.

Lemma run_unfold dev inputs script_exists sigs :
  let t0 := started WORKFLOW_SCRIPT_PATH dev inputs script_exists in
  run ud WORKFLOW_SCRIPT_PATH dev inputs script_exists sigs
  = ((deliver_all ud sigs t0).1,
     start_events dev script_exists ++ (deliver_all ud sigs t0).2).
Proof.
  intros t0. unfold run.
  destruct (start_spec dev inputs script_exists) as (-> & _).
  fold t0. by destruct (deliver_all ud sigs t0).
Qed.

Lemma start_events_values dev script_exists :
  progress_values (start_events dev script_exists) = []
  /\ state_values (start_events dev script_exists)
     = [if script_exists then running else failed].
Proof. by destruct script_exists. Qed.

(** The facts of a whole run, from the task that [start] leaves. *)
Lemma run_ran dev inputs script_exists sigs :
  let t0 := started WORKFLOW_SCRIPT_PATH dev inputs script_exists in
  let r := run ud WORKFLOW_SCRIPT_PATH dev inputs script_exists sigs in
  ran sigs t0 r.1 (deliver_all ud sigs t0).2
  /\ r.2 = start_events dev script_exists ++ (deliver_all ud sigs t0).2
  /\ progress_values r.2 = progress_values (deliver_all ud sigs t0).2.
Proof.
  intros t0 r. subst r. rewrite run_unfold. fold t0. cbn [fst snd].
  destruct (start_spec dev inputs script_exists) as (_ & Hq & _).
  split; [by apply deliver_all_quiet|]. split; [reflexivity|].
  rewrite progress_values_app.
  by destruct (start_events_values dev script_exists) as [-> _].
Qed.

(** A run that goes on with [finished]: what the slot adds. *)
Lemma run_then_finished dev inputs script_exists sigs code :
  let r := run ud WORKFLOW_SCRIPT_PATH dev inputs script_exists sigs in
  (run ud WORKFLOW_SCRIPT_PATH dev inputs script_exists
     (sigs ++ [finished code])).2
  = r.2 ++ List.map (progress_changed dev)
             (final_progress code (_last_progress_percent r.1))
        ++ [state_changed dev (if code =? 0 then done else failed);
            finished_for_device dev; output_changed dev].
Proof.
  intros r. subst r. rewrite !run_unfold. cbn [fst snd].
  set (t0 := started WORKFLOW_SCRIPT_PATH dev inputs script_exists).
  destruct (start_spec dev inputs script_exists) as (_ & Hq & Hd & _).
  fold t0 in Hq, Hd.
  rewrite deliver_all_app. cbn [fst snd]. rewrite <- app_assoc. f_equal. f_equal.
  destruct (deliver_all_quiet sigs t0 Hq) as [Hq1 Hd1 _ _ _ _ _ _].
  set (t1 := (deliver_all ud sigs t0).1) in *.
  cbn [deliver_all]. unfold deliver, bind, set_process, modify.
  cbn [slot before_slot app].
  match goal with |- context [_on_finished ud code ?x] =>
    destruct (_on_finished_quiet code x) as (t' & -> & _);
      [destruct Hq1; split; assumption|]
  end.
  cbn. rewrite app_nil_r, Hd1, Hd. reflexivity.
Qed.

(** *** The order of the percentages *)

Lemma clamp_percent_mono q q' :
  q <= q' -> PyNum.clamp_percent q <= PyNum.clamp_percent q'.
Proof. unfold PyNum.clamp_percent. lia. Qed.

Lemma sorted_app (l1 l2 : list Z) :
  StronglySorted Z.le l1 -> StronglySorted Z.le l2 ->
  (forall x y, In x l1 -> In y l2 -> x <= y) ->
  StronglySorted Z.le (l1 ++ l2).
Proof.
  induction 1 as [|x l1 Hs IH Hx]; intros H2 Hc; [exact H2|].
  cbn. constructor.
  - apply IH; [exact H2|]. intros; apply Hc; [by right|done].
  - apply Forall_app. split; [exact Hx|].
    apply List.Forall_forall. intros y Hy. apply Hc; [by left|done].
Qed.

Lemma sorted_le_last (l : list Z) d :
  StronglySorted Z.le l -> forall x, In x l -> x <= List.last l d.
Proof.
  induction 1 as [|y l Hs IH Hy]; intros x Hx; [destruct Hx|].
  rewrite last_cons. destruct Hx as [<-|Hx].
  - destruct (last_default_or_In l y) as [->|Hin]; [lia|].
    rewrite List.Forall_forall in Hy. by apply Hy.
  - destruct l as [|z l]; [destruct Hx|].
    rewrite (last_cons l z y), <- (last_cons l z d). by apply IH.
Qed.

Lemma transferred_nonneg t a : transferred ud t = Some a -> 0 <= a.
Proof.
  unfold transferred. destruct (Re.findall _ _); intros H; simplify_eq.
  apply int_of_digits_nonneg.
Qed.

Lemma marker_trace_nonneg sigs : forall t,
  Forall (Z.le 0) (marker_trace ud sigs t).
Proof.
  induction sigs as [|sig sigs IH]; intros t; cbn [marker_trace]; [constructor|].
  cbv zeta. destruct (transferred ud _) as [a|] eqn:E; [|apply IH].
  constructor; [by eapply transferred_nonneg|apply IH].
Qed.

(** A percentage that has its source is not below the last one, when
    the last one is backed by a marker that is not larger. *)
Lemma source_ge t t1 bound p :
  backed t bound ->
  (forall x, _flash_total_bytes t = Some x -> _flash_total_bytes t1 = Some x) ->
  (forall a, transferred ud t1 = Some a -> bound <= a) ->
  progress_source (_last_progress_percent t) (transferred ud t1)
    (_flash_total_bytes t1) p ->
  _last_progress_percent t <= p.
Proof.
  intros Hb Ht Hbound [[-> Hl]|(a & T & q & Ha & HT & HT0 & Hq & ->)]; [lia|].
  pose proof (clamp_bounds q) as Hc.
  destruct Hb as [Hl|(a0 & T0 & q0 & HT0' & Hpos & Ha0 & Hq0 & ->)]; [lia|].
  apply Ht in HT0'. rewrite HT0' in HT. injection HT as <-.
  apply clamp_percent_mono.
  eapply (int_truediv_mono (a0 * 100) (a * 100) T0); [|done|done|done].
  specialize (Hbound a Ha). lia.
Qed.

(** After any signal the last percentage has not gone down. *)
Lemma deliver_ge sig t t1 ev1 bound :
  delivered ud sig t t1 ev1 ->
  _last_progress_percent t <= 100 ->
  backed t bound ->
  (forall a, transferred ud t1 = Some a -> bound <= a) ->
  Forall (Z.le (_last_progress_percent t)) (progress_values ev1)
  /\ _last_progress_percent t <= _last_progress_percent t1
  /\ _last_progress_percent t1 <= 100.
Proof.
  intros D H100 Hb Hbound. destruct D.
  assert (Hge : Forall (Z.le (_last_progress_percent t)) (progress_values ev1)).
  { apply List.Forall_forall. intros p Hin.
    destruct (dl_source0 p Hin) as [Hsrc|[-> _]]; [|exact H100].
    by eapply source_ge. }
  split; [exact Hge|]. rewrite dl_last0.
  destruct (last_default_or_In (progress_values ev1) (_last_progress_percent t))
    as [->|Hin]; [lia|].
  rewrite List.Forall_forall in Hge, dl_bounds0.
  specialize (Hge _ Hin). specialize (dl_bounds0 _ Hin). cbv beta in *. lia.
Qed.

(** After a signal other than [finished] the last percentage is backed by
    the marker the output then ends with. *)
Lemma deliver_backed sig t t1 ev1 bound :
  delivered ud sig t t1 ev1 ->
  (forall code, sig <> finished code) ->
  (forall T, _flash_total_bytes t = Some T -> 0 <= T) ->
  backed t bound ->
  (forall a, transferred ud t1 = Some a -> bound <= a) ->
  (forall T, _flash_total_bytes t1 = Some T -> 0 <= T)
  /\ backed t1 (default bound (transferred ud t1)).
Proof.
  intros D Hsig Hnn Hb Hbound. destruct D.
  assert (Hnn1 : forall T, _flash_total_bytes t1 = Some T -> 0 <= T).
  { intros T HT. destruct (dl_nonneg0 T HT); auto. }
  split; [exact Hnn1|].
  assert (Hb1 : bound <= default bound (transferred ud t1)).
  { destruct (transferred ud t1) as [a|] eqn:E; cbn; [by apply Hbound|lia]. }
  destruct (last_default_or_In (progress_values ev1) (_last_progress_percent t))
    as [E|Hin].
  - rewrite <- dl_last0 in E.
    destruct Hb as [Hl|(a0 & T0 & q0 & HT0 & Hpos & Ha0 & Hq0 & Hl)].
    + left. lia.
    + right. exists a0, T0, q0. split_and!; auto; first [lia|congruence].
  - rewrite <- dl_last0 in Hin.
    destruct (dl_source0 _ Hin)
      as [[[Hz _]|(a & T & q & Ha & HT & HT0 & Hq & Hp)]|[_ [code Hc]]].
    + left. lia.
    + right. exists a, T, q. rewrite Ha. cbn.
      pose proof (Hnn1 T HT). pose proof (transferred_nonneg _ _ Ha).
      split_and!; auto; lia.
    + by destruct (Hsig code).
Qed.

(** The percentages of the signals that follow a task: they do not
    decrease and none is below the last one of the task, as long as the
    markers do not decrease. *)
Lemma deliver_all_sorted sigs : forall t bound,
  quiet t ->
  finished_last sigs = true ->
  (forall T, _flash_total_bytes t = Some T -> 0 <= T) ->
  _last_progress_percent t <= 100 ->
  backed t bound ->
  StronglySorted Z.le (marker_trace ud sigs t) ->
  Forall (Z.le bound) (marker_trace ud sigs t) ->
  StronglySorted Z.le (progress_values (deliver_all ud sigs t).2)
  /\ Forall (Z.le (_last_progress_percent t))
       (progress_values (deliver_all ud sigs t).2).
Proof.
  induction sigs as [|sig rest IH]; intros t bound Hq Hfin Hnn H100 Hb Hso Hfo.
  - cbn. split; constructor.
  - cbn [deliver_all marker_trace] in *. cbv zeta in Hso, Hfo.
    destruct (deliver_quiet sig t Hq) as (t1 & ev1 & r1 & Heq & D).
    rewrite Heq in Hso, Hfo |- *. cbn [fst] in Hso, Hfo.
    assert (Hbound : forall a, transferred ud t1 = Some a -> bound <= a).
    { intros a Ha. rewrite Ha in Hfo. by inversion Hfo. }
    destruct (deliver_ge sig t t1 ev1 bound D H100 Hb Hbound)
      as (Hge & Hle & H100').
    assert (Hrest : rest = [] \/ forall code, sig <> finished code).
    { destruct sig; try (right; discriminate).
      left. cbn in Hfin. by destruct rest. }
    destruct Hrest as [->|Hsig].
    + cbn. rewrite app_nil_r. split; [apply (dl_sorted _ _ _ _ _ D)|exact Hge].
    + destruct (deliver_backed sig t t1 ev1 bound D Hsig Hnn Hb Hbound)
        as (Hnn1 & Hb1).
      assert (Hfin1 : finished_last rest = true).
      { destruct sig; try exact Hfin. by destruct (Hsig code). }
      assert (Htr : StronglySorted Z.le (marker_trace ud rest t1)
                    /\ Forall (Z.le (default bound (transferred ud t1)))
                         (marker_trace ud rest t1)).
      { destruct (transferred ud t1) as [a|]; cbn.
        - inversion Hso; subst. split; assumption.
        - split; assumption. }
      destruct Htr as [Hso1 Hfo1].
      destruct (IH t1 _ (dl_quiet _ _ _ _ _ D) Hfin1 Hnn1 H100' Hb1 Hso1 Hfo1)
        as (IHs & IHf).
      destruct (deliver_all ud rest t1) as [t2 ev2]. cbn [snd] in *.
      rewrite progress_values_app.
      rewrite List.Forall_forall in IHf.
      split.
      * apply sorted_app; [apply (dl_sorted _ _ _ _ _ D)|exact IHs|].
        intros x y Hx Hy. specialize (IHf y Hy).
        pose proof (sorted_le_last (progress_values ev1)
                      (_last_progress_percent t) (dl_sorted _ _ _ _ _ D) x Hx).
        rewrite (dl_last _ _ _ _ _ D) in IHf. lia.
      * apply Forall_app. split; [exact Hge|].
        apply List.Forall_forall. intros y Hy. specialize (IHf y Hy). lia.
Qed.

End TaskFacts.

Section RunProperties.

Import Task WorkflowRunTask.

Context (ud : UnicodeData) (WORKFLOW_SCRIPT_PATH : str).

(** C3 (as amended): a run started while the workflow script exists emits
    [running] first and after it terminal states only, one for each
    [finished] or [errorOccurred] signal of its process, in the order of
    the signals ([done] for the exit code 0, [failed] otherwise); so it
    emits exactly one terminal state, after [running], when the process
    ends with one such signal.  A run started while the script is missing
    emits [failed] and no [running]. *)
Theorem C3_state_events_of_a_run dev inputs sigs :
  state_values (run ud WORKFLOW_SCRIPT_PATH dev inputs true sigs).2
  = running :: terminal_states sigs
  /\ Forall (fun s => s <> running) (terminal_states sigs)
  /\ length (terminal_states sigs) = length (List.filter is_ending sigs)
  /\ state_values (run ud WORKFLOW_SCRIPT_PATH dev inputs false []).2
     = [failed].
Proof.
  split; [|split; [|split]].
  - destruct (run_ran ud WORKFLOW_SCRIPT_PATH dev inputs true sigs)
      as (R & -> & _).
    rewrite state_values_app. by rewrite (ran_states _ _ _ _ R).
  - unfold terminal_states. induction sigs as [|sig sigs' IH]; [constructor|].
    cbn [List.map concat]. apply Forall_app. split; [|exact IH].
    destruct sig as [| |code|]; cbn; repeat constructor; try discriminate.
    by destruct (code =? 0).
  - unfold terminal_states. induction sigs as [|sig sigs' IH]; [reflexivity|].
    cbn [List.map concat List.filter]. rewrite length_app, IH.
    by destruct sig.
  - reflexivity.
Qed.

(** C6 (as amended): the run link recorded for a run is the last line, among
    the lines of the chunks that arrived on standard output, that begins
    with the prefix of the web service and contains [/actions/runs/]; each
    later such line replaces the one recorded before, and without any such
    line the link stays empty. *)
Theorem C6_run_url_is_last_link dev inputs script_exists sigs :
  run_url (info (run ud WORKFLOW_SCRIPT_PATH dev inputs script_exists sigs).1)
  = List.last
      (List.filter is_run_link (List.map Py.strip (all_stdout_lines sigs))) [].
Proof.
  destruct (run_ran ud WORKFLOW_SCRIPT_PATH dev inputs script_exists sigs)
    as (R & _).
  rewrite (ran_url _ _ _ _ R).
  by destruct (start_spec WORKFLOW_SCRIPT_PATH dev inputs script_exists)
    as (_ & _ & _ & _ & -> & _).
Qed.

(** C10: when the process of a run finishes with the exit code 0 and no
    100 was emitted before, [_on_finished] emits the percentage 100 and
    only then the state [done]; whatever the output was, also without any
    size hint or transfer marker in it. *)
Theorem C10_final_100_before_done dev inputs script_exists sigs :
  ~ In 100 (progress_values
              (run ud WORKFLOW_SCRIPT_PATH dev inputs script_exists sigs).2) ->
  (run ud WORKFLOW_SCRIPT_PATH dev inputs script_exists
     (sigs ++ [finished 0])).2
  = (run ud WORKFLOW_SCRIPT_PATH dev inputs script_exists sigs).2
    ++ [progress_changed dev 100; state_changed dev done;
        finished_for_device dev; output_changed dev].
Proof.
  intros Hno. rewrite run_then_finished. f_equal.
  destruct (run_ran ud WORKFLOW_SCRIPT_PATH dev inputs script_exists sigs)
    as (R & _ & Hp).
  rewrite Hp in Hno.
  assert (Hl : _last_progress_percent
                 (run ud WORKFLOW_SCRIPT_PATH dev inputs script_exists sigs).1
               <> 100).
  { rewrite (ran_last _ _ _ _ R).
    destruct (start_spec WORKFLOW_SCRIPT_PATH dev inputs script_exists)
      as (_ & _ & _ & -> & _).
    destruct (last_default_or_In
                (progress_values
                   (deliver_all ud sigs
                      (started WORKFLOW_SCRIPT_PATH dev inputs script_exists)).2)
                (-1)) as [->|Hin]; [lia|].
    intros E. rewrite E in Hin. contradiction. }
  unfold final_progress. apply Z.eqb_neq in Hl. rewrite Hl. reflexivity.
Qed.

(** C4 (as amended): every percentage a run emits lies between 0 and 100
    and differs from the one emitted before it.  The sequence does not
    decrease when [finished] is the last signal of the process and the byte
    count of the last transfer marker in the accumulated output does not
    decrease from one signal to the next; without that it can go down. *)
Theorem C4_progress_in_range_and_ordered dev inputs script_exists sigs :
  let ps := progress_values
              (run ud WORKFLOW_SCRIPT_PATH dev inputs script_exists sigs).2 in
  Forall (fun p => 0 <= p <= 100) ps
  /\ chain (-1) ps
  /\ (finished_last sigs = true ->
      StronglySorted Z.le
        (marker_trace ud sigs
           (started WORKFLOW_SCRIPT_PATH dev inputs script_exists)) ->
      StronglySorted Z.le ps).
Proof.
  intros ps. subst ps.
  destruct (run_ran ud WORKFLOW_SCRIPT_PATH dev inputs script_exists sigs)
    as (R & _ & ->).
  destruct (start_spec WORKFLOW_SCRIPT_PATH dev inputs script_exists)
    as (_ & Hq & _ & Hl & _ & Ht).
  split; [apply (ran_bounds _ _ _ _ R)|].
  split; [rewrite <- Hl; apply (ran_chain _ _ _ _ R)|].
  intros Hfin Hso.
  eapply (deliver_all_sorted ud sigs _ 0); try done.
  - intros T HT. rewrite Ht in HT. discriminate.
  - lia.
  - left. lia.
  - apply marker_trace_nonneg.
Qed.

End RunProperties.

(** C3, where the claim fails: a run started while the script is missing
    emits the terminal state [failed] that no [running] precedes; a run
    whose process crashes gets [errorOccurred] and then [finished], and
    emits two terminal states. *)
Lemma C3_counterexample :
  state_values
    (WorkflowRunTask.run ascii_only (Py.lit "/opt/workflow_actions.sh")
       (Py.lit "/dev/sdb") [] false []).2 = [failed]
  /\ state_values
       (WorkflowRunTask.run ascii_only (Py.lit "/opt/workflow_actions.sh")
          (Py.lit "/dev/sdb") [] true [errorOccurred Crashed; finished 9]).2
     = [running; failed; failed].
Proof. split; vm_compute; reflexivity. Qed.

(** C6, where the claim fails: two links arrive one after the other; the
    link recorded at the end is the second, not the first. *)
Lemma C6_counterexample :
  let first := Py.lit "https://github.com/o/r/actions/runs/1" in
  let second := Py.lit "https://github.com/o/r/actions/runs/2" in
  let t := (WorkflowRunTask.run ascii_only (Py.lit "/opt/workflow_actions.sh")
              (Py.lit "/dev/sdb") [] true
              [readyReadStandardOutput (first ++ [10%N]);
               readyReadStandardOutput (second ++ [10%N])]).1 in
  WorkflowRunTask.is_run_link first = true
  /\ WorkflowRunTask.is_run_link second = true
  /\ run_url (info t) = second
  /\ run_url (info t) <> first.
Proof. vm_compute. repeat split; discriminate. Qed.

(** C10 at a run without any output. *)
Lemma C10_final_100_before_done_witness :
  ~ In 100 (progress_values
              (WorkflowRunTask.run ascii_only (Py.lit "/opt/workflow_actions.sh")
                 (Py.lit "/dev/sdb") [] true []).2)
  /\ (WorkflowRunTask.run ascii_only (Py.lit "/opt/workflow_actions.sh")
        (Py.lit "/dev/sdb") [] true ([] ++ [finished 0])).2
     = (WorkflowRunTask.run ascii_only (Py.lit "/opt/workflow_actions.sh")
          (Py.lit "/dev/sdb") [] true []).2
       ++ [progress_changed (Py.lit "/dev/sdb") 100;
           state_changed (Py.lit "/dev/sdb") done;
           finished_for_device (Py.lit "/dev/sdb");
           output_changed (Py.lit "/dev/sdb")].
Proof.
  split.
  - vm_compute. tauto.
  - apply (C10_final_100_before_done ascii_only
             (Py.lit "/opt/workflow_actions.sh") (Py.lit "/dev/sdb") [] true []).
    vm_compute. tauto.
Defined.

Section C7.

Import WorkflowRunTask.

Context (ud : UnicodeData) (WORKFLOW_SCRIPT_PATH : str).

(** C7: the size hint [FLASH_IMAGE_SIZE_BYTES=2000], then a marker of 1000
    bytes transferred, then a marker of 2000 bytes transferred, each in a
    chunk of its own and in this order in the accumulated text (standard
    output before standard error): the percentages emitted are 0, 50 and
    100, in this order, and no other, also when the process then finishes,
    with any exit code. *)
Theorem C7_progress_0_50_100 dev inputs code :
  let size := Py.text ["FLASH_IMAGE_SIZE_BYTES=2000"]%string in
  let half := Py.text ["1000 bytes transferred"]%string in
  let full := Py.text ["2000 bytes transferred"]%string in
  Forall
    (fun sigs =>
       progress_values
         (run ud WORKFLOW_SCRIPT_PATH dev inputs true sigs).2 = [0; 50; 100]
       /\ progress_values
            (run ud WORKFLOW_SCRIPT_PATH dev inputs true
               (sigs ++ [finished code])).2 = [0; 50; 100])
    [ [readyReadStandardOutput size; readyReadStandardOutput half;
       readyReadStandardOutput full];
      [readyReadStandardOutput size; readyReadStandardOutput half;
       readyReadStandardError full];
      [readyReadStandardOutput size; readyReadStandardError half;
       readyReadStandardError full];
      [readyReadStandardError size; readyReadStandardError half;
       readyReadStandardError full] ].
Proof.
  intros size half full.
  repeat constructor; try (vm_compute; reflexivity);
    rewrite run_then_finished, !progress_values_app;
    match goal with |- context [final_progress code ?l] =>
      replace l with 100 by (vm_compute; reflexivity)
    end;
    unfold final_progress; rewrite andb_false_r;
    vm_compute; reflexivity.
Qed.

End C7.

(** ** The main window *)

Section WindowFacts.

Import MainWindow.

Lemma rows_map_from (rows : list row) : forall (m : gmap str row) d r,
  (forall d r, m !! d = Some r -> row_dev r = d) ->
  foldl (fun m r => <[row_dev r := r]> m) m rows !! d = Some r ->
  row_dev r = d.
Proof.
  induction rows as [|x rows IH]; intros m d r Hm H; cbn in H; [eauto|].
  eapply IH; [|exact H].
  intros d' r' H'. destruct (decide (row_dev x = d')) as [<-|Hne].
  - rewrite lookup_insert_eq in H'. congruence.
  - rewrite lookup_insert_ne in H' by done. eauto.
Qed.

(** A row of the dictionary of the previous rows is filed under its own
    device. *)
Lemma rows_map_dev rows d r : rows_map rows !! d = Some r -> row_dev r = d.
Proof. apply rows_map_from. intros ? ? H. rewrite lookup_empty in H. done. Qed.

Lemma last_known_dev w d : row_dev (last_known w d) = d.
Proof.
  unfold last_known.
  destruct (rows_map _ !! d) as [r|] eqn:E; cbn; [by eapply rows_map_dev|done].
Qed.

Lemma sorted_elem (s : gset str) d : d ∈ sorted s <-> d ∈ s.
Proof.
  unfold sorted. rewrite merge_sort_Permutation. apply elem_of_elements.
Qed.

Lemma sorted_NoDup (s : gset str) : NoDup (sorted s).
Proof.
  unfold sorted. rewrite merge_sort_Permutation. apply NoDup_elements.
Qed.

Lemma NoDup_list_filter {A : Type} (f : A -> bool) (l : list A) :
  NoDup l -> NoDup (List.filter f l).
Proof.
  induction 1 as [|x l Hx Hl IH]; cbn; [constructor|].
  destruct (f x); [|exact IH].
  constructor; [|exact IH].
  rewrite list_elem_of_In, filter_In, <- list_elem_of_In. tauto.
Qed.

(** The loop over the retained devices appends one row for each. *)
Lemma retain_all prm : forall devs l,
  (forall d r, prm !! d = Some r -> row_dev r = d) ->
  NoDup devs ->
  (forall d, d ∈ devs -> d ∉ current_devices l) ->
  foldl (retain_one prm) l devs
  = {| device_rows := device_rows l
                      ++ List.map (fun d => default (d, [], []) (prm !! d)) devs;
       devices := devices l ++ devs;
       current_devices := current_devices l ∪ list_to_set devs |}.
Proof.
  induction devs as [|d devs IH]; intros l Hprm Hnd Hfresh.
  - destruct l. cbn. rewrite !app_nil_r. f_equal. set_solver.
  - cbn [foldl]. apply NoDup_cons in Hnd as [Hd Hnd].
    assert (Hrd : row_dev (default (d, [], []) (prm !! d)) = d).
    { destruct (prm !! d) as [r|] eqn:E; cbn; [by eapply Hprm|done]. }
    unfold retain_one at 2. rewrite Hrd.
    rewrite bool_decide_eq_false_2 by (apply Hfresh; set_solver).
    rewrite IH; [|done|done|].
    + cbn. rewrite <- !app_assoc. cbn. f_equal. set_solver.
    + cbn. intros d' Hd'. specialize (Hfresh d'). set_solver.
Qed.

Lemma retained_elem w observed d :
  d ∈ retained w observed <->
  d ∈ default [] (_last_devices w) /\ (d ∉ List.map row_dev observed)
  /\ has_busy_task w d = true.
Proof.
  unfold retained.
  rewrite list_elem_of_In, filter_In, <- list_elem_of_In, sorted_elem.
  set_solver.
Qed.

(** The reconciliation in closed form: the observed rows, then the last
    known row of each retained device; what is forgotten is what vanished
    and is not retained. *)
Lemma reconcile_spec w observed :
  reconcile w observed
  = ({| device_rows := observed ++ List.map (last_known w) (retained w observed);
        devices := List.map row_dev observed ++ retained w observed;
        current_devices := list_to_set (List.map row_dev observed)
                           ∪ list_to_set (retained w observed) |},
     ((list_to_set (default [] (_last_devices w)))
      ∖ (list_to_set (List.map row_dev observed)))
     ∖ (list_to_set (retained w observed))).
Proof.
  unfold reconcile. fold (retained w observed).
  destruct (retained w observed) as [|d ds] eqn:E.
  - cbn. rewrite !app_nil_r. f_equal; [f_equal|]; set_solver.
  - rewrite <- E. f_equal. rewrite retain_all; [reflexivity|..].
    + apply rows_map_dev.
    + unfold retained. apply NoDup_list_filter, sorted_NoDup.
    + intros d' Hd'. apply retained_elem in Hd'. cbn. set_solver.
Qed.

Lemma forget_list (l : list str) w k :
  let w' := foldr forget_one w l in
  _last_devices w' = _last_devices w
  /\ _last_device_rows w' = _last_device_rows w
  /\ (k ∉ l ->
      _device_states w' !! k = _device_states w !! k
      /\ _device_progress w' !! k = _device_progress w !! k
      /\ _workflow_runs w' !! k = _workflow_runs w !! k
      /\ _workflow_history w' !! k = _workflow_history w !! k
      /\ (k ∈ _status_dialogs w' <-> k ∈ _status_dialogs w))
  /\ (k ∈ l ->
      _device_states w' !! k = None
      /\ _device_progress w' !! k = None
      /\ _workflow_runs w' !! k = None
      /\ _workflow_history w' !! k = None
      /\ (k ∉ _status_dialogs w')
      /\ (k ∉ _auth_output_dialogs w')).
Proof.
  induction l as [|d l IH]; cbn.
  - split_and!; try done. intros Hin. inversion Hin.
  - destruct IH as (IH1 & IH2 & IH3 & IH4). split_and!; try done.
    + intros Hk. apply not_elem_of_cons in Hk as [Hne Hk].
      destruct (IH3 Hk) as (? & ? & ? & ? & ?).
      rewrite !lookup_delete_ne by done. split_and!; try done. set_solver.
    + intros Hk. destruct (decide (d = k)) as [->|Hne].
      * rewrite !lookup_delete_eq. split_and!; try done; set_solver.
      * apply elem_of_cons in Hk as [->|Hk]; [done|].
        destruct (IH4 Hk) as (? & ? & ? & ? & ? & ?).
        rewrite !lookup_delete_ne by done. split_and!; try done; set_solver.
Qed.

Lemma _on_finished_changed stdout w :
  parse_rows stdout <> default [] (_last_device_rows w) ->
  _on_finished stdout 0 w
  = accept_listing (reconcile w (parse_rows stdout)).1
      (_forget_removed_devices (reconcile w (parse_rows stdout)).2 w).
Proof.
  intros H. unfold _on_finished. cbn [Z.eqb negb].
  rewrite bool_decide_eq_false_2 by done.
  destruct (reconcile w (parse_rows stdout)). reflexivity.
Qed.

Lemma has_busy_task_intro w k r t :
  _workflow_runs w !! k = Some r -> tasks w !! r = Some t ->
  QProc.is_active (process t) = true -> has_busy_task w k = true.
Proof.
  intros Hr Ht Ha. unfold has_busy_task, get_task. rewrite Hr, Ht.
  unfold task_busy. rewrite Ha. apply orb_true_r.
Qed.

(** A listing that lacks a device of the last one differs from it. *)
Lemma absent_changes w stdout k :
  consistent w -> k ∈ default [] (_last_devices w) ->
  (k ∉ List.map row_dev (parse_rows stdout)) ->
  parse_rows stdout <> default [] (_last_device_rows w).
Proof. intros Hc Hk Hn E. rewrite E, Hc in Hn. contradiction. Qed.

Lemma consistent_initial : consistent initial.
Proof. reflexivity. Qed.

(** The slot of the listing keeps the two records of the last listing in
    agreement. *)
Lemma consistent_on_finished stdout code w :
  consistent w -> consistent (_on_finished stdout code w).
Proof.
  intros Hc. unfold _on_finished.
  destruct (negb (code =? 0)); [exact Hc|].
  case_bool_decide; [exact Hc|].
  rewrite reconcile_spec. unfold consistent. cbn.
  rewrite List.map_app, List.map_map. f_equal.
  rewrite <- (List.map_id (retained w (parse_rows stdout))) at 2.
  apply List.map_ext. intros d. apply last_known_dev.
Qed.

(** The slots for the signals of a task leave the last listing alone. *)
Lemma dispatch_listing evs : forall w,
  _last_devices (dispatch evs w) = _last_devices w
  /\ _last_device_rows (dispatch evs w) = _last_device_rows w.
Proof.
  induction evs as [|ev evs IH]; intros w; [done|].
  change (dispatch (ev :: evs) w) with (dispatch evs (on_event ev w)).
  destruct (IH (on_event ev w)) as [-> ->].
  destruct ev as [d st|d|d|d q]; cbn;
    unfold _on_workflow_output_changed, _on_workflow_task_finished,
      refresh_history; try done; by destruct (_workflow_runs w !! d).
Qed.

(** In every window the program can be in, the two records of the last
    listing agree. *)
Lemma reachable_consistent ud path w : reachable ud path w -> consistent w.
Proof.
  induction 1 as [|stdout code w _ IH|dev inputs script_exists w _ IH
                  |r sig w _ IH].
  - apply consistent_initial.
  - by apply consistent_on_finished.
  - unfold _start_workflow_for_device.
    destruct (has_busy_task w dev); [exact IH|].
    destruct (WorkflowRunTask.start _ _ _) as [[t evs] res].
    unfold consistent, _open_workflow_status. cbn.
    by destruct (dispatch_listing evs
                   (set_task (length (tasks w)) t
                      (register dev
                         (WorkflowRunTask.new dev (dict_of_items inputs)) w)))
      as [-> ->].
  - unfold task_signal. destruct (tasks w !! r) as [t|]; [|exact IH].
    destruct (WorkflowRunTask.deliver ud sig t) as [[t' evs] res].
    unfold consistent.
    by destruct (dispatch_listing evs (set_task r t' w)) as [-> ->].
Qed.

(** C1: at a reconciliation, a device of the previous accepted listing that
    the fresh listing lacks, and for which the window holds a task whose
    process is still running, stays in the accepted listing, with its last
    known row (a row with blank attributes if none is known); it is not
    among the devices to forget and its entries in the dictionaries stay. *)
Theorem C1_busy_device_is_retained w stdout k r t :
  consistent w ->
  k ∈ default [] (_last_devices w) ->
  (k ∉ List.map row_dev (parse_rows stdout)) ->
  _workflow_runs w !! k = Some r ->
  tasks w !! r = Some t ->
  QProc.is_active (process t) = true ->
  let w' := _on_finished stdout 0 w in
  k ∈ default [] (_last_devices w')
  /\ last_known w k ∈ default [] (_last_device_rows w')
  /\ row_dev (last_known w k) = k
  /\ (k ∉ (reconcile w (parse_rows stdout)).2)
  /\ _workflow_runs w' !! k = Some r
  /\ _workflow_history w' !! k = _workflow_history w !! k
  /\ _device_states w' !! k = _device_states w !! k
  /\ _device_progress w' !! k = _device_progress w !! k.
Proof.
  intros Hc Hk Hn Hr Ht Ha w'. subst w'.
  rewrite _on_finished_changed by (by eapply absent_changes).
  assert (Hret : k ∈ retained w (parse_rows stdout)).
  { apply retained_elem. eauto using has_busy_task_intro. }
  rewrite reconcile_spec. cbn [fst snd].
  set (removed := ((list_to_set (default [] (_last_devices w)))
                   ∖ (list_to_set (List.map row_dev (parse_rows stdout))))
                  ∖ (list_to_set (retained w (parse_rows stdout)) : gset str)).
  assert (Hnot : k ∉ elements removed).
  { rewrite elem_of_elements. subst removed. set_solver. }
  destruct (forget_list (elements removed) w k) as (_ & _ & Hkeep & _).
  destruct (Hkeep Hnot) as (Hs & Hp & Hru & Hh & _).
  unfold _forget_removed_devices. cbn.
  split_and!.
  - set_solver.
  - apply elem_of_app. right. apply list_elem_of_fmap. eauto.
  - apply last_known_dev.
  - subst removed. set_solver.
  - congruence.
  - assumption.
  - assumption.
  - assumption.
Qed.

(** C5 (as amended): a device is forgotten at a reconciliation exactly when
    it is in the previous accepted listing, the fresh listing lacks it and
    no busy task is held for it; one listing without it is enough.  A
    forgotten device is in no record of the accepted listing any more and
    its entries in the dictionaries are gone. *)
Theorem C5_forgotten_after_one_absence w stdout k :
  consistent w ->
  let observed := parse_rows stdout in
  let w' := _on_finished stdout 0 w in
  (k ∈ (reconcile w observed).2 <->
   k ∈ default [] (_last_devices w) /\ (k ∉ List.map row_dev observed)
   /\ has_busy_task w k = false)
  /\ (k ∈ (reconcile w observed).2 ->
      (k ∉ default [] (_last_devices w'))
      /\ (k ∉ List.map row_dev (default [] (_last_device_rows w')))
      /\ _device_states w' !! k = None
      /\ _device_progress w' !! k = None
      /\ _workflow_runs w' !! k = None
      /\ _workflow_history w' !! k = None
      /\ (k ∉ _status_dialogs w')).
Proof.
  intros Hc observed w'.
  assert (Hiff : k ∈ (reconcile w observed).2 <->
    k ∈ default [] (_last_devices w) /\ (k ∉ List.map row_dev observed)
    /\ has_busy_task w k = false).
  { rewrite reconcile_spec. cbn.
    pose proof (retained_elem w observed k) as Hr.
    destruct (has_busy_task w k); set_solver. }
  split; [exact Hiff|]. intros Hin.
  pose proof Hin as Hin'. apply Hiff in Hin' as (Hk & Hn & Hb).
  subst w' observed.
  rewrite _on_finished_changed by (by eapply absent_changes).
  rewrite reconcile_spec in Hin |- *. cbn in Hin |- *.
  destruct (forget_list
              (elements
                 ((list_to_set (default [] (_last_devices w))
                   ∖ list_to_set (List.map row_dev (parse_rows stdout)))
                  ∖ (list_to_set (retained w (parse_rows stdout)) : gset str)))
              w k) as (_ & _ & _ & Hgone).
  destruct Hgone as (Hs & Hp & Hru & Hh & Hd & _); [by apply elem_of_elements|].
  assert (Hnr : k ∉ retained w (parse_rows stdout)).
  { rewrite retained_elem. rewrite Hb. intros (_ & _ & ?). discriminate. }
  assert (Hdevs : k ∉ List.map row_dev (parse_rows stdout)
                      ++ retained w (parse_rows stdout)) by set_solver.
  repeat split; try assumption.
  rewrite List.map_app, List.map_map.
  rewrite (List.map_ext _ id), List.map_id; [assumption|].
  intros d. apply last_known_dev.
Qed.

Context (WORKFLOW_SCRIPT_PATH : str).

(** C2: a start for a device whose task has a process that is still active
    changes nothing but the status dialog, which it shows: no task is
    created, the run and the history of the device stay what they are, no
    process is started; and a further start does the same. *)
Theorem C2_start_on_busy_device_is_noop k inputs script_exists w r t :
  _workflow_runs w !! k = Some r ->
  tasks w !! r = Some t ->
  QProc.is_active (process t) = true ->
  let w' := _start_workflow_for_device WORKFLOW_SCRIPT_PATH k inputs
              script_exists w in
  _workflow_runs w' = _workflow_runs w
  /\ _workflow_history w' = _workflow_history w
  /\ tasks w' = tasks w
  /\ _device_states w' = _device_states w
  /\ _device_progress w' = _device_progress w
  /\ _status_dialogs w' = _status_dialogs w ∪ {[k]}
  /\ forall inputs' script_exists',
       _start_workflow_for_device WORKFLOW_SCRIPT_PATH k inputs'
         script_exists' w' = w'.
Proof.
  intros Hr Ht Ha w'. subst w'.
  pose proof (has_busy_task_intro w k r t Hr Ht Ha) as Hb.
  unfold _start_workflow_for_device. rewrite Hb.
  repeat split. intros inputs' script_exists'.
  assert (Hb' : has_busy_task (_open_workflow_status k w) k = true) by exact Hb.
  rewrite Hb'. unfold _open_workflow_status. cbn. f_equal. set_solver.
Qed.

End WindowFacts.

(** ** The claims at the small session *)

(** C1 at the window with a workflow running for the device, when a listing
    comes back empty: the device stays, with the row it had. *)
Lemma C1_busy_device_is_retained_witness :
  let w' := MainWindow._on_finished [] 0 Session.flashing in
  Session.sdb ∈ default [] (_last_devices w')
  /\ (Session.sdb, Py.lit "8G", Py.lit "Kingston")
     ∈ default [] (_last_device_rows w')
  /\ _workflow_runs w' !! Session.sdb = Some 0%nat.
Proof.
  intros w'.
  destruct (C1_busy_device_is_retained Session.flashing [] Session.sdb 0%nat
              (WorkflowRunTask.started Session.script Session.sdb [] true))
    as (H1 & H2 & _ & _ & H3 & _).
  - vm_compute. reflexivity.
  - vm_compute. apply list_elem_of_here.
  - vm_compute. apply not_elem_of_nil.
  - vm_compute. reflexivity.
  - vm_compute. reflexivity.
  - vm_compute. reflexivity.
  - split_and!; [exact H1|exact H2|exact H3].
Defined.

(** C2 at the same window: a second start for the device leaves the tasks
    and the run of the device as they are. *)
Lemma C2_start_on_busy_device_is_noop_witness :
  QProc.is_active
    (process (WorkflowRunTask.started Session.script Session.sdb [] true))
  = true
  /\ tasks (MainWindow._start_workflow_for_device Session.script Session.sdb
              [] true Session.flashing) = tasks Session.flashing
  /\ _workflow_runs (MainWindow._start_workflow_for_device Session.script
                       Session.sdb [] true Session.flashing)
     = _workflow_runs Session.flashing.
Proof.
  split; [reflexivity|].
  destruct (C2_start_on_busy_device_is_noop Session.script Session.sdb [] true
              Session.flashing 0%nat
              (WorkflowRunTask.started Session.script Session.sdb [] true))
    as (H1 & H2 & H3 & _); [vm_compute; reflexivity..|].
  split; assumption.
Defined.

(** C4, where the claim fails: the size hint, then a marker of 2000 bytes,
    then a marker of 1000 bytes, each a well formed marker in a chunk of
    its own: the percentages are 0, 100 and 50. *)
Lemma C4_counterexample :
  progress_values
    (WorkflowRunTask.run ascii_only Session.script Session.sdb [] true
       [readyReadStandardOutput Session.size_hint;
        readyReadStandardError Session.full;
        readyReadStandardError Session.half]).2 = [0; 100; 50]
  /\ ~ StronglySorted Z.le
         (progress_values
            (WorkflowRunTask.run ascii_only Session.script Session.sdb [] true
               [readyReadStandardOutput Session.size_hint;
                readyReadStandardError Session.full;
                readyReadStandardError Session.half]).2).
Proof.
  assert (E : progress_values
    (WorkflowRunTask.run ascii_only Session.script Session.sdb [] true
       [readyReadStandardOutput Session.size_hint;
        readyReadStandardError Session.full;
        readyReadStandardError Session.half]).2 = [0; 100; 50])
    by (vm_compute; reflexivity).
  split; [exact E|]. rewrite E. intros H.
  inversion H as [|? ? H1 _]; subst.
  inversion H1 as [|? ? _ H2]; subst.
  inversion H2 as [|? ? H3 _]; subst. lia.
Qed.

(** C4 at a run whose markers grow: 1000 bytes, then 2000. *)
Lemma C4_progress_in_range_and_ordered_witness :
  let sigs := [readyReadStandardOutput Session.size_hint;
               readyReadStandardError Session.half;
               readyReadStandardError Session.full; finished 0] in
  WorkflowRunTask.finished_last sigs = true
  /\ StronglySorted Z.le
       (WorkflowRunTask.marker_trace ascii_only sigs
          (WorkflowRunTask.started Session.script Session.sdb [] true))
  /\ StronglySorted Z.le
       (progress_values
          (WorkflowRunTask.run ascii_only Session.script Session.sdb [] true
             sigs).2).
Proof.
  intros sigs.
  assert (Hf : WorkflowRunTask.finished_last sigs = true) by reflexivity.
  assert (Hm : StronglySorted Z.le
       (WorkflowRunTask.marker_trace ascii_only sigs
          (WorkflowRunTask.started Session.script Session.sdb [] true))).
  { vm_compute. repeat constructor; discriminate. }
  split_and!; [exact Hf|exact Hm|].
  destruct (C4_progress_in_range_and_ordered ascii_only Session.script
              Session.sdb [] true sigs) as (_ & _ & H).
  exact (H Hf Hm).
Defined.

(** C5, where the claim fails: the device is in one listing and not in the
    next; this one absence is enough, the device is forgotten at once. *)
Lemma C5_counterexample :
  _last_devices Session.polled = Some [Session.sdb]
  /\ Session.sdb ∈ (MainWindow.reconcile Session.polled
                      (MainWindow.parse_rows [])).2
  /\ _last_devices (MainWindow._on_finished [] 0 Session.polled) = Some []
  /\ _last_device_rows (MainWindow._on_finished [] 0 Session.polled) = Some [].
Proof. split_and!; vm_compute; reflexivity. Qed.

(** C5 at the window with the listing accepted and no workflow: the device
    goes with the first listing that lacks it. *)
Lemma C5_forgotten_after_one_absence_witness :
  MainWindow.consistent Session.polled
  /\ Session.sdb ∈ (MainWindow.reconcile Session.polled
                      (MainWindow.parse_rows [])).2
  /\ _device_states (MainWindow._on_finished [] 0 Session.polled)
       !! Session.sdb = None.
Proof.
  assert (Hc : MainWindow.consistent Session.polled)
    by (vm_compute; reflexivity).
  destruct (C5_forgotten_after_one_absence Session.polled [] Session.sdb Hc)
    as [Hiff Hgone].
  assert (Hin : Session.sdb ∈ (MainWindow.reconcile Session.polled
                                 (MainWindow.parse_rows [])).2).
  { apply Hiff. split_and!.
    - vm_compute. apply list_elem_of_here.
    - vm_compute. apply not_elem_of_nil.
    - vm_compute. reflexivity. }
  split_and!; [exact Hc|exact Hin|]. apply (Hgone Hin).
Defined.

(** ** Strings *)

Section StringFacts.

Import Py.

Lemma lstrip_spaces ws s :
  forallb isspace ws = true -> lstrip (ws ++ s) = lstrip s.
Proof.
  induction ws as [|c ws IH]; [done|]. cbn. intros [-> H]%andb_prop. auto.
Qed.

(** [lstrip] cuts a prefix of blanks off. *)
Lemma lstrip_split s :
  exists ws, s = ws ++ lstrip s /\ forallb isspace ws = true.
Proof.
  induction s as [|c s (ws & IH & Hws)]; [by exists []|].
  cbn. destruct (isspace c) eqn:E.
  - exists (c :: ws). cbn. rewrite E, Hws. split; [congruence|done].
  - by exists [].
Qed.

Lemma lstrip_head s c s' : lstrip s = c :: s' -> isspace c = false.
Proof.
  induction s as [|x s IH]; [done|]. cbn.
  destruct (isspace x) eqn:E; [exact IH|]. congruence.
Qed.

Lemma lstrip_fix c s : isspace c = false -> lstrip (c :: s) = c :: s.
Proof. cbn. by intros ->. Qed.

Lemma lstrip_idem s : lstrip (lstrip s) = lstrip s.
Proof.
  destruct (lstrip s) as [|c s'] eqn:E; [done|].
  apply lstrip_fix. by eapply lstrip_head.
Qed.

Lemma lstrip_all s : forallb isspace s = true -> lstrip s = [].
Proof. intros H. rewrite <- (app_nil_r s). by rewrite lstrip_spaces. Qed.

Lemma forallb_rev_eq {A : Type} (f : A -> bool) (l : list A) :
  forallb f (rev l) = forallb f l.
Proof.
  induction l as [|x l IH]; [done|]. cbn.
  rewrite forallb_app, IH. cbn. rewrite andb_true_r. apply andb_comm.
Qed.

Lemma rstrip_spaces s ws :
  forallb isspace ws = true -> rstrip (s ++ ws) = rstrip s.
Proof.
  intros H. unfold rstrip. rewrite rev_app_distr, lstrip_spaces; [done|].
  by rewrite forallb_rev_eq.
Qed.

(** [rstrip] cuts a suffix of blanks off. *)
Lemma rstrip_split s :
  exists ws, s = rstrip s ++ ws /\ forallb isspace ws = true.
Proof.
  destruct (lstrip_split (rev s)) as (ws & E & H).
  exists (rev ws). unfold rstrip. split.
  - by rewrite <- rev_app_distr, <- E, rev_involutive.
  - by rewrite forallb_rev_eq.
Qed.

Lemma rstrip_idem s : rstrip (rstrip s) = rstrip s.
Proof. unfold rstrip. by rewrite rev_involutive, lstrip_idem. Qed.

Lemma rstrip_snoc s c : isspace c = false -> rstrip (s ++ [c]) = s ++ [c].
Proof.
  intros H. unfold rstrip. rewrite rev_app_distr. cbn. rewrite H. cbn.
  by rewrite rev_involutive.
Qed.

(** [rstrip] leaves the first character when it is no blank. *)
Lemma rstrip_cons c s :
  isspace c = false -> exists s', rstrip (c :: s) = c :: s'.
Proof.
  intros Hc. destruct (rstrip_split (c :: s)) as (ws & E & Hws).
  destruct (rstrip (c :: s)) as [|x s'] eqn:R.
  - cbn in E. subst ws. cbn in Hws. by rewrite Hc in Hws.
  - exists s'. cbn in E. congruence.
Qed.

Lemma lstrip_rstrip s : lstrip (rstrip (lstrip s)) = rstrip (lstrip s).
Proof.
  destruct (lstrip s) as [|c s'] eqn:E; [done|].
  apply lstrip_head in E.
  destruct (rstrip_cons c s' E) as (s'' & ->). by apply lstrip_fix.
Qed.

(** [strip] is idempotent: its result has no blank at either end. *)
Lemma strip_idem s : strip (strip s) = strip s.
Proof. unfold strip. by rewrite lstrip_rstrip, rstrip_idem. Qed.

(** Blanks around a text do not count for [strip]. *)
Lemma strip_spaces ws1 s ws2 :
  forallb isspace ws1 = true -> forallb isspace ws2 = true ->
  strip (ws1 ++ s ++ ws2) = strip s.
Proof.
  intros H1 H2. unfold strip. rewrite lstrip_spaces by done.
  destruct (lstrip_split s) as (ws & E & Hws).
  destruct (lstrip s) as [|c s'] eqn:L.
  - rewrite app_nil_r in E. subst ws.
    rewrite lstrip_all; [done|]. rewrite forallb_app. by rewrite Hws, H2.
  - rewrite E at 1. rewrite <- app_assoc, lstrip_spaces by done.
    change ((c :: s') ++ ws2) with (c :: (s' ++ ws2)).
    rewrite lstrip_fix by (by eapply lstrip_head).
    change (c :: (s' ++ ws2)) with ((c :: s') ++ ws2).
    by apply rstrip_spaces.
Qed.

End StringFacts.

(** ** The record of a run *)

Section RunRecordFacts.

Import Task WorkflowRunTask RunRecord.

Context (ud : UnicodeData) (WORKFLOW_SCRIPT_PATH : str).

Lemma _read_stdout_info t :
  info (_read_stdout ud t).1.1
  = with_run_url
      (link_after (Py.splitlines (out_buf (process t))) (run_url (info t)))
      (add_stdout (out_buf (process t)) (info t)).
Proof.
  unfold _read_stdout. cbv [bind read set_process modify].
  destruct (out_buf (process t)) as [|c chunk] eqn:Hbuf.
  - cbv [ret]. destruct t as [[] ?]. cbn in *. subst.
    unfold with_run_url, add_stdout, link_after. cbn. by rewrite app_nil_r.
  - cbv [set_info modify]. rewrite scan_run_url_spec.
    match goal with |- context [_update_flash_progress ud ?x] =>
      destruct (_update_flash_progress_spec ud x)
        as (total' & last' & evs & r & -> & _)
    end.
    destruct r as [[]|e]; cbv [dev read emit]; reflexivity.
Qed.

Lemma _read_stderr_info t :
  info (_read_stderr ud t).1.1 = add_stderr (err_buf (process t)) (info t).
Proof.
  unfold _read_stderr. cbv [bind read set_process modify].
  destruct (err_buf (process t)) as [|c chunk] eqn:Hbuf.
  - cbv [ret]. destruct t as [[] ?]. cbn in *. subst.
    unfold add_stderr. cbn. by rewrite app_nil_r.
  - cbv [set_info modify].
    match goal with |- context [_update_flash_progress ud ?x] =>
      destruct (_update_flash_progress_spec ud x)
        as (total' & last' & evs & r & -> & _)
    end.
    destruct r as [[]|e]; cbv [dev read emit]; reflexivity.
Qed.

Lemma _on_finished_info code t :
  quiet t ->
  info (_on_finished ud code t).1.1
  = with_state (if code =? 0 then done else failed)
      (with_exit_code code (info t)).
Proof.
  intros [Ho He]. unfold _on_finished.
  unfold bind at 1.
  destruct (_read_stdout_spec ud t)
    as (t1 & e1 & r1 & -> & R1 & Ho1 & He1 & _ & Q1).
  destruct (Q1 Ho) as (-> & -> & Hi1 & Ht1). clear Q1.
  unfold bind at 1.
  destruct (_read_stderr_spec ud t1)
    as (t2 & e2 & r2 & -> & R2 & He2 & Ho2 & _ & Q2).
  rewrite He1 in Q2. destruct (Q2 He) as (-> & -> & Hi2 & Ht2). clear Q2.
  cbv [bind set_info modify read dev emit ret set_last_progress_percent].
  cbn [info upd_info with_state with_exit_code device_path state
       _last_progress_percent upd_progress app].
  destruct ((code =? 0) && negb (_last_progress_percent t2 =? 100));
    cbn; rewrite Hi2, Hi1; reflexivity.
Qed.

Lemma _on_error_info e t :
  quiet t -> info (_on_error ud e t).1.1 = with_state failed (info t).
Proof.
  intros [Ho He]. unfold _on_error.
  unfold bind at 1.
  destruct (_read_stdout_spec ud t)
    as (t1 & e1 & r1 & -> & R1 & Ho1 & He1 & _ & Q1).
  destruct (Q1 Ho) as (-> & -> & Hi1 & Ht1). clear Q1.
  unfold bind at 1.
  destruct (_read_stderr_spec ud t1)
    as (t2 & e2 & r2 & -> & R2 & He2 & Ho2 & _ & Q2).
  rewrite He1 in Q2. destruct (Q2 He) as (-> & -> & Hi2 & Ht2). clear Q2.
  cbv [bind set_info modify read dev emit ret].
  cbn. rewrite Hi2, Hi1. reflexivity.
Qed.

(** The record of the run after a signal, for a task with nothing unread. *)
Lemma deliver_info sig t :
  quiet t ->
  info (deliver ud sig t).1.1
  = record_after sig (info t)
      (link_after (stdout_lines sig) (run_url (info t))).
Proof.
  intros [Ho He]. unfold deliver. unfold bind at 1. cbv [set_process modify].
  destruct sig as [data|data|code|e]; cbn [slot before_slot app].
  - match goal with |- context [_read_stdout ud ?x] =>
      pose proof (_read_stdout_info x) as Hi;
      destruct (_read_stdout ud x) as [[t' evs] r]
    end.
    cbn in Hi |- *. rewrite Hi, Ho. destruct t as [[] ?]. cbn.
    unfold record_after, with_run_url. cbn. by rewrite app_nil_r.
  - match goal with |- context [_read_stderr ud ?x] =>
      pose proof (_read_stderr_info x) as Hi;
      destruct (_read_stderr ud x) as [[t' evs] r]
    end.
    cbn in Hi |- *. rewrite Hi, He. destruct t as [[] ?]. cbn.
    unfold record_after, add_stderr, link_after. cbn. by rewrite app_nil_r.
  - match goal with |- context [_on_finished ud code ?x] =>
      pose proof (_on_finished_info code x ltac:(split; assumption)) as Hi;
      destruct (_on_finished ud code x) as [[t' evs] r]
    end.
    cbn in Hi |- *. rewrite Hi. destruct t as [[] ?]. cbn.
    unfold record_after, link_after. cbn. by rewrite !app_nil_r.
  - assert (Hq0 : quiet (upd_process
                (match e with
                 | FailedToStart | Crashed => QProc.set_state NotRunning
                 | _ => fun p => p
                 end) t)) by (destruct e; split; assumption).
    match goal with |- context [_on_error ud e ?x] =>
      pose proof (_on_error_info e x ltac:(destruct e; exact Hq0)) as Hi;
      destruct (_on_error ud e x) as [[t' evs] r]
    end.
    cbn in Hi |- *. rewrite Hi. destruct t as [[] ?], e; cbn;
      unfold record_after, link_after; cbn; by rewrite !app_nil_r.
Qed.

Lemma deliver_all_info sigs : forall t,
  quiet t ->
  info (deliver_all ud sigs t).1 = record_after_all sigs (info t).
Proof.
  induction sigs as [|sig sigs IH]; intros t Hq; [reflexivity|].
  cbn [deliver_all record_after_all foldl].
  pose proof (deliver_info sig t Hq) as Hi.
  destruct (deliver_quiet ud sig t Hq) as (t1 & ev1 & r1 & Heq & D).
  rewrite Heq in Hi |- *. cbn [fst] in Hi.
  specialize (IH t1 (dl_quiet _ _ _ _ _ D)).
  destruct (deliver_all ud sigs t1) as [t2 ev2]. cbn [fst] in *.
  rewrite IH, Hi. reflexivity.
Qed.

Lemma record_after_all_fields sigs : forall i,
  stdout (record_after_all sigs i)
  = stdout i ++ concat (List.map stdout_data sigs)
  /\ stderr (record_after_all sigs i)
     = stderr i ++ concat (List.map stderr_data sigs)
  /\ device_path (record_after_all sigs i) = device_path i
  /\ state (record_after_all sigs i)
     = List.last (terminal_states sigs) (state i)
  /\ exit_code (record_after_all sigs i)
     = List.last (List.map Some (concat (List.map exit_code_of sigs)))
         (exit_code i).
Proof.
  induction sigs as [|sig sigs IH]; intros i.
  - cbn. rewrite !app_nil_r. split_and!; done.
  - unfold record_after_all in *. cbn [foldl].
    destruct (IH (record_after sig i
                    (link_after (stdout_lines sig) (run_url i))))
      as (-> & -> & -> & -> & ->).
    unfold terminal_states. cbn [List.map concat record_after stdout stderr
      device_path state exit_code].
    rewrite <- !app_assoc, List.map_app, !last_app_default.
    split_and!; try done.
    + destruct sig; reflexivity.
    + destruct sig; reflexivity.
Qed.

End RunRecordFacts.

Section RunRecordProperties.

Import Task WorkflowRunTask RunRecord.

Context (ud : UnicodeData) (WORKFLOW_SCRIPT_PATH : str).

Lemma run_info dev inputs script_exists sigs :
  info (run ud WORKFLOW_SCRIPT_PATH dev inputs script_exists sigs).1
  = record_after_all sigs
      (info (started WORKFLOW_SCRIPT_PATH dev inputs script_exists)).
Proof.
  rewrite run_unfold. cbn [fst].
  destruct (start_spec WORKFLOW_SCRIPT_PATH dev inputs script_exists)
    as (_ & Hq & _).
  by apply deliver_all_info.
Qed.

Lemma started_info dev inputs script_exists :
  info (started WORKFLOW_SCRIPT_PATH dev inputs script_exists)
  = {| device_path := dev;
       state := if script_exists then running else failed;
       run_url := [];
       stdout := [];
       stderr := missing_script_message WORKFLOW_SCRIPT_PATH script_exists;
       exit_code := None |}.
Proof. by destruct script_exists. Qed.

(** X1.  The output recorded for a run is what arrived: [stdout] is the
    chunks of the standard output in the order of their arrival, [stderr]
    the chunks of the standard error after the line [start] writes when the
    script is missing.  Nothing is dropped or repeated, also when the
    update of the progress raises. *)
Theorem X1_output_is_what_arrived dev inputs script_exists sigs :
  let i := info (run ud WORKFLOW_SCRIPT_PATH dev inputs script_exists sigs).1 in
  stdout i = concat (List.map stdout_data sigs)
  /\ stderr i = missing_script_message WORKFLOW_SCRIPT_PATH script_exists
                ++ concat (List.map stderr_data sigs).
Proof.
  cbn zeta. rewrite run_info.
  destruct (record_after_all_fields sigs
              (info (started WORKFLOW_SCRIPT_PATH dev inputs script_exists)))
    as (-> & -> & _).
  by rewrite started_info.
Qed.

(** X2.  The record and the events of a run agree: the state in the record
    is the state of the last [state_changed] event the task emitted, and the
    record is still the one of the device the task was created for. *)
Theorem X2_record_state_is_last_event dev inputs script_exists sigs :
  let r := run ud WORKFLOW_SCRIPT_PATH dev inputs script_exists sigs in
  state (info r.1) = List.last (state_values r.2) running
  /\ device_path (info r.1) = dev.
Proof.
  cbn zeta. rewrite run_info.
  destruct (record_after_all_fields sigs
              (info (started WORKFLOW_SCRIPT_PATH dev inputs script_exists)))
    as (_ & _ & -> & -> & _).
  rewrite started_info. cbn [state device_path]. split; [|reflexivity].
  destruct (run_ran ud WORKFLOW_SCRIPT_PATH dev inputs script_exists sigs)
    as ([_ _ Hst _ _ _ _ _] & Hev & _).
  rewrite Hev, state_values_app, last_app_default, Hst.
  by destruct (start_events_values dev script_exists) as [_ ->].
Qed.

(** X3.  The exit code in the record is the code of the last [finished]
    signal, and there is none before the first one: [errorOccurred] and the
    arrival of output leave it as it is. *)
Theorem X3_exit_code_is_last_finished dev inputs script_exists sigs :
  exit_code (info (run ud WORKFLOW_SCRIPT_PATH dev inputs script_exists sigs).1)
  = List.last (List.map Some (concat (List.map exit_code_of sigs))) None.
Proof.
  rewrite run_info.
  destruct (record_after_all_fields sigs
              (info (started WORKFLOW_SCRIPT_PATH dev inputs script_exists)))
    as (_ & _ & _ & _ & ->).
  by rewrite started_info.
Qed.

Lemma done_has_code_0 sigs : forall i,
  (state i = done -> exit_code i = Some 0) ->
  state (record_after_all sigs i) = done ->
  exit_code (record_after_all sigs i) = Some 0.
Proof.
  induction sigs as [|sig sigs IH]; intros i Hi; [exact Hi|].
  unfold record_after_all. cbn [foldl]. apply IH.
  destruct sig as [data|data|code|e]; cbn [record_after state exit_code];
    try assumption; [|discriminate].
  destruct (Z.eqb_spec code 0); [by subst|discriminate].
Qed.

(** X4.  A record in the state [done] has the exit code 0. *)
Theorem X4_done_has_exit_code_0 dev inputs script_exists sigs :
  state (info (run ud WORKFLOW_SCRIPT_PATH dev inputs script_exists sigs).1) = done ->
  exit_code (info (run ud WORKFLOW_SCRIPT_PATH dev inputs script_exists sigs).1) = Some 0.
Proof.
  rewrite run_info. apply done_has_code_0.
  rewrite started_info. by destruct script_exists.
Qed.

(** X5.  The size of the image, once found in the output, is kept for the
    rest of the run: no later output changes it. *)
Theorem X5_size_hint_is_kept dev inputs script_exists sigs1 sigs2 T :
  _flash_total_bytes (run ud WORKFLOW_SCRIPT_PATH dev inputs script_exists sigs1).1 = Some T ->
  _flash_total_bytes (run ud WORKFLOW_SCRIPT_PATH dev inputs script_exists (sigs1 ++ sigs2)).1
  = Some T.
Proof.
  rewrite !run_unfold. cbn [fst]. rewrite deliver_all_app.
  cbn [fst]. intros HT.
  destruct (start_spec WORKFLOW_SCRIPT_PATH dev inputs script_exists)
    as (_ & Hq & _).
  destruct (deliver_all_quiet ud sigs1 _ Hq) as [Hq1 _ _ _ _ _ _ _].
  destruct (deliver_all_quiet ud sigs2 _ Hq1) as [_ _ _ _ _ _ Ht _].
  by apply Ht.
Qed.

End RunRecordProperties.

Lemma X4_done_has_exit_code_0_witness :
  let r := WorkflowRunTask.run ascii_only Session.script Session.sdb [] true
             [finished 0] in
  state (info r.1) = done /\ exit_code (info r.1) = Some 0.
Proof.
  cbn zeta. split; [reflexivity|].
  apply (X4_done_has_exit_code_0 ascii_only Session.script Session.sdb []
           true [finished 0]).
  reflexivity.
Defined.

Lemma X5_size_hint_is_kept_witness :
  _flash_total_bytes
    (WorkflowRunTask.run ascii_only Session.script Session.sdb [] true
       ([readyReadStandardOutput Session.size_hint]
        ++ [readyReadStandardError
              (Py.text ["FLASH_IMAGE_SIZE_BYTES=5"]%string)])).1
  = Some 2000.
Proof.
  apply (X5_size_hint_is_kept ascii_only Session.script Session.sdb [] true
           [readyReadStandardOutput Session.size_hint]).
  vm_compute. reflexivity.
Defined.

Section RunLinkProperties.

Import Task WorkflowRunTask.

Context (ud : UnicodeData) (WORKFLOW_SCRIPT_PATH : str).

(** X6.  The run link in the record is either empty or a link: it begins
    with [https://github.com/], contains [/actions/runs/] and has no blank
    at either end, whatever the process writes. *)
Theorem X6_run_url_is_empty_or_a_link dev inputs script_exists sigs :
  let url :=
    run_url (info (run ud WORKFLOW_SCRIPT_PATH dev inputs script_exists
                     sigs).1) in
  url = []
  \/ (is_run_link url = true /\ Py.strip url = url).
Proof.
  cbn zeta.
  destruct (run_ran ud WORKFLOW_SCRIPT_PATH dev inputs script_exists sigs)
    as ([_ _ _ _ _ _ _ Hurl] & _).
  destruct (start_spec WORKFLOW_SCRIPT_PATH dev inputs script_exists)
    as (_ & _ & _ & _ & Hu0 & _).
  rewrite Hurl, Hu0. unfold link_after.
  destruct (last_default_or_In
              (List.filter is_run_link
                 (List.map Py.strip (all_stdout_lines sigs))) [])
    as [->|Hin]; [by left|right].
  apply filter_In in Hin as [Hin Hl]. split; [exact Hl|].
  apply in_map_iff in Hin as (line & <- & _). apply strip_idem.
Qed.

End RunLinkProperties.

Section FloatExact.

Import PyNum.



End FloatExact.

Section ProgressExact.

Import Task WorkflowRunTask.

Context (ud : UnicodeData).


End ProgressExact.


(** ** The window and its tasks *)

Section WindowInvariants.

Import MainWindow.

Lemma kill_task_idle t : task_busy t = false -> kill_task t = t.
Proof.
  unfold task_busy, kill_task, kill_if_active.
  intros [-> ->]%orb_false_elim. by destruct t.
Qed.

Lemma forget_one_tasks d w w0 :
  tasks w = tasks w0 ->
  (forall r, _workflow_runs w !! d = Some r -> _workflow_runs w0 !! d = Some r) ->
  has_busy_task w0 d = false ->
  tasks (forget_one d w) = tasks w0.
Proof.
  intros Ht Hr Hb. unfold forget_one. cbn.
  destruct (_workflow_runs w !! d) as [r|] eqn:E; [|exact Ht].
  specialize (Hr r eq_refl). unfold has_busy_task, get_task in Hb.
  rewrite Hr in Hb. rewrite Ht. apply list_eq. intros i.
  rewrite list_lookup_alter. case_decide as Hi; [subst i|done].
  destruct (tasks w0 !! r) as [t|] eqn:Et; cbn; [|done].
  by rewrite kill_task_idle.
Qed.

(** Forgetting devices that have no busy task touches no task. *)
Lemma forget_tasks (l : list str) w :
  (forall d, d ∈ l -> has_busy_task w d = false) ->
  tasks (foldr forget_one w l) = tasks w.
Proof.
  induction l as [|d l IH]; intros Hb; [done|]. cbn [foldr].
  apply forget_one_tasks.
  - apply IH. intros d' Hd'. apply Hb. by right.
  - intros r Hr.
    destruct (forget_list l w d) as (_ & _ & Hkeep & Hgone).
    destruct (decide (d ∈ l)) as [Hin|Hnin].
    + destruct (Hgone Hin) as (_ & _ & Hnone & _). cbn in Hnone. congruence.
    + destruct (Hkeep Hnin) as (_ & _ & Heq & _). cbn in Heq. congruence.
  - apply Hb. by left.
Qed.

(** No device to forget has a busy task. *)
Lemma reconcile_idle w observed d :
  d ∈ (reconcile w observed).2 -> has_busy_task w d = false.
Proof.
  rewrite reconcile_spec. cbn. intros Hd.
  pose proof (retained_elem w observed d) as Hr.
  destruct (has_busy_task w d); [|done]. set_solver.
Qed.

Lemma forget_history (l : list str) w :
  _workflow_history w = _workflow_runs w ->
  _workflow_history (foldr forget_one w l)
  = _workflow_runs (foldr forget_one w l).
Proof.
  intros H. induction l as [|d l IH]; [done|]. cbn [foldr].
  set (w1 := foldr forget_one w l) in *. unfold forget_one. cbn.
  by rewrite IH.
Qed.

Lemma forget_sub (l : list str) w d :
  (forall r, _workflow_runs (foldr forget_one w l) !! d = Some r ->
             _workflow_runs w !! d = Some r)
  /\ (forall p, _device_progress (foldr forget_one w l) !! d = Some p ->
                _device_progress w !! d = Some p).
Proof.
  destruct (forget_list l w d) as (_ & _ & Hkeep & Hgone).
  destruct (decide (d ∈ l)) as [Hin|Hnin].
  - destruct (Hgone Hin) as (_ & Hp & Hr & _). cbn in Hp, Hr.
    rewrite Hp, Hr. done.
  - destruct (Hkeep Hnin) as (_ & Hp & Hr & _). cbn in Hp, Hr.
    rewrite Hp, Hr. done.
Qed.

Lemma _on_finished_tasks stdout code w :
  tasks (_on_finished stdout code w) = tasks w.
Proof.
  unfold _on_finished. destruct (negb (code =? 0)); [done|].
  case_bool_decide; [done|].
  destruct (reconcile w (parse_rows stdout)) as [l removed] eqn:E.
  cbn. unfold _forget_removed_devices. apply forget_tasks.
  intros d Hd%elem_of_elements. apply (reconcile_idle w (parse_rows stdout)).
  by rewrite E.
Qed.

(** What the slots for the signals of a task keep. *)
Lemma dispatch_keeps evs : forall w,
  _workflow_runs (dispatch evs w) = _workflow_runs w
  /\ tasks (dispatch evs w) = tasks w
  /\ _status_dialogs (dispatch evs w) = _status_dialogs w
  /\ (_workflow_history w = _workflow_runs w ->
      _workflow_history (dispatch evs w) = _workflow_runs w)
  /\ (map_Forall (fun _ p => 0 <= p <= 100) (_device_progress w) ->
      map_Forall (fun _ p => 0 <= p <= 100)
        (_device_progress (dispatch evs w))).
Proof.
  induction evs as [|ev evs IH]; intros w; [done|].
  change (dispatch (ev :: evs) w) with (dispatch evs (on_event ev w)).
  destruct (IH (on_event ev w)) as (-> & -> & -> & Hh & Hp). clear IH.
  assert (Hev : _workflow_runs (on_event ev w) = _workflow_runs w
                /\ tasks (on_event ev w) = tasks w
                /\ _status_dialogs (on_event ev w) = _status_dialogs w
                /\ (_workflow_history w = _workflow_runs w ->
                    _workflow_history (on_event ev w) = _workflow_runs w)
                /\ (map_Forall (fun _ p => 0 <= p <= 100) (_device_progress w) ->
                    map_Forall (fun _ p => 0 <= p <= 100)
                      (_device_progress (on_event ev w)))).
  { destruct ev as [d st|d|d|d q]; cbn;
      unfold _on_workflow_output_changed, _on_workflow_task_finished,
        refresh_history.
    - split_and!; try done. destruct st; try done.
      intros H. apply map_Forall_insert_2; [lia|done].
    - destruct (_workflow_runs w !! d) as [r|] eqn:E; cbn; split_and!;
        try done.
      intros ->. by apply insert_id.
    - destruct (_workflow_runs w !! d) as [r|] eqn:E; cbn; split_and!;
        try done.
      intros ->. by apply insert_id.
    - split_and!; try done.
      intros H. apply map_Forall_insert_2; [lia|done]. }
  destruct Hev as (Hr & Ht & Hd & Hh' & Hp').
  rewrite Hr, Ht, Hd. rewrite Hr in Hh. split_and!; auto.
Qed.

(** The invariant of the window: the history of a device is the record of
    its task, a task is registered under its own device, no task has
    unread output, and every percentage is in range. *)
Lemma reachable_tasks ud path w :
  reachable ud path w ->
  _workflow_history w = _workflow_runs w
  /\ (forall d r, _workflow_runs w !! d = Some r ->
        exists t, tasks w !! r = Some t /\ device_path (info t) = d)
  /\ Forall WorkflowRunTask.quiet (tasks w)
  /\ map_Forall (fun _ p => 0 <= p <= 100) (_device_progress w).
Proof.
  induction 1 as [|stdout code w _ IH|dev inputs script_exists w _ IH
                  |r sig w _ IH].
  - split_and!; done.
  - destruct IH as (Hh & Hr & Hq & Hp).
    pose proof (_on_finished_tasks stdout code w) as Ht.
    unfold _on_finished in *. destruct (negb (code =? 0)); [done|].
    case_bool_decide; [done|].
    destruct (reconcile w (parse_rows stdout)) as [l removed].
    cbn in Ht |- *. unfold _forget_removed_devices in *.
    rewrite Ht. split_and!.
    + by apply forget_history.
    + intros d r' Hd. apply Hr.
      by apply (forget_sub (elements removed) w d).
    + done.
    + intros d p Hd. apply (Hp d).
      by apply (forget_sub (elements removed) w d).
  - destruct IH as (Hh & Hr & Hq & Hp).
    unfold _start_workflow_for_device.
    destruct (has_busy_task w dev); [done|].
    destruct (start_spec path dev (dict_of_items inputs)
                script_exists) as (-> & Hq0 & Hd0 & _).
    set (t0 := WorkflowRunTask.started path dev (dict_of_items inputs)
                 script_exists) in *.
    set (w1 := set_task (length (tasks w)) t0
                 (register dev (WorkflowRunTask.new dev (dict_of_items inputs))
                    w)).
    destruct (dispatch_keeps (WorkflowRunTask.start_events dev script_exists)
                w1) as (Hr1 & Ht1 & _ & Hh1 & Hp1).
    assert (Htasks : tasks w1 = tasks w ++ [t0]).
    { subst w1. cbn.
      rewrite insert_app_r_alt, Nat.sub_diag; done. }
    cbn. rewrite Hr1, Ht1, Htasks. split_and!.
    + apply Hh1. subst w1. cbn. by rewrite Hh.
    + intros d r. subst w1. cbn.
      destruct (decide (dev = d)) as [->|Hne].
      * rewrite lookup_insert_eq. intros [= <-]. exists t0.
        by rewrite list_lookup_middle.
      * rewrite lookup_insert_ne by done. intros Hd.
        destruct (Hr d r Hd) as (t & Ht & Hdev). exists t.
        split; [|done]. by apply lookup_app_l_Some.
    + apply Forall_app. split; [done|]. by constructor.
    + apply Hp1. by subst w1.
  - destruct IH as (Hh & Hr & Hq & Hp).
    unfold task_signal. destruct (tasks w !! r) as [t|] eqn:Et; [|done].
    assert (Hqt : WorkflowRunTask.quiet t)
      by (by eapply Forall_lookup_1 in Hq).
    destruct (deliver_quiet ud sig t Hqt)
      as (t' & evs & res & -> & D).
    destruct (dispatch_keeps evs (set_task r t' w))
      as (Hr1 & Ht1 & _ & Hh1 & Hp1).
    rewrite Hr1, Ht1. cbn. split_and!.
    + by apply Hh1.
    + intros d r' Hd. destruct (Hr d r' Hd) as (t1 & Ht1' & Hdev).
      destruct (decide (r' = r)) as [->|Hne].
      * exists t'. split.
        -- apply list_lookup_insert_eq. by eapply lookup_lt_Some.
        -- rewrite (WorkflowRunTask.dl_dev _ _ _ _ _ D). congruence.
      * exists t1. by rewrite list_lookup_insert_ne.
    + apply Forall_insert; [done|]. apply (WorkflowRunTask.dl_quiet _ _ _ _ _ D).
    + by apply Hp1.
Qed.

End WindowInvariants.

Section WindowProperties.

Import MainWindow.

Context (ud : UnicodeData) (WORKFLOW_SCRIPT_PATH : str).

(** X8.  A listing never kills a process and changes no task: the devices
    it forgets are those without a busy task, so the [kill] of
    [_forget_removed_devices] finds nothing active. *)
Theorem X8_listing_kills_no_process stdout code w :
  tasks (_on_finished stdout code w) = tasks w.
Proof. apply _on_finished_tasks. Qed.

(** X9.  In every window the program can be in, the history and the runs
    are the same dictionary: the record shown for a device is the one of
    its current task, and a device has a history exactly when it has a
    task. *)
Theorem X9_history_is_runs w :
  reachable ud WORKFLOW_SCRIPT_PATH w ->
  _workflow_history w = _workflow_runs w.
Proof. intros H. by destruct (reachable_tasks _ _ _ H) as (? & _). Qed.

(** X10.  In every window the program can be in, the task registered for a
    device is a task of that device, with nothing unread, and no other
    device shares it. *)
Theorem X10_task_of_its_device w d r :
  reachable ud WORKFLOW_SCRIPT_PATH w ->
  _workflow_runs w !! d = Some r ->
  (exists t, tasks w !! r = Some t /\ device_path (info t) = d
             /\ WorkflowRunTask.quiet t)
  /\ (forall d', _workflow_runs w !! d' = Some r -> d' = d).
Proof.
  intros H Hd. destruct (reachable_tasks _ _ _ H) as (_ & Hr & Hq & _).
  destruct (Hr d r Hd) as (t & Ht & Hdev). split.
  - exists t. split_and!; try done. by eapply Forall_lookup_1 in Hq.
  - intros d' Hd'. destruct (Hr d' r Hd') as (t' & Ht' & Hdev'). congruence.
Qed.

(** X11.  In every window the program can be in, every percentage kept
    for a device is between 0 and 100. *)
Theorem X11_window_progress_in_range w d p :
  reachable ud WORKFLOW_SCRIPT_PATH w ->
  _device_progress w !! d = Some p -> 0 <= p <= 100.
Proof.
  intros H Hd. destruct (reachable_tasks _ _ _ H) as (_ & _ & _ & Hp).
  by apply (Hp d).
Qed.

(** X12.  A start for a device without a busy task creates a task: it is
    added to the tasks, none of which changes, and the run and the history
    of the device refer to it at once; the state of the device is [running]
    ([failed] when the script is missing) and the device is busy exactly
    when the script exists.  The percentage kept for the device is not
    reset: what an earlier run left stays until the new run reports. *)
Theorem X12_start_on_idle_device d inputs script_exists w :
  has_busy_task w d = false ->
  let w' := _start_workflow_for_device WORKFLOW_SCRIPT_PATH d inputs
              script_exists w in
  let t0 := WorkflowRunTask.started WORKFLOW_SCRIPT_PATH d
              (dict_of_items inputs) script_exists in
  tasks w' = tasks w ++ [t0]
  /\ _workflow_runs w' = <[d := length (tasks w)]> (_workflow_runs w)
  /\ _workflow_history w' = <[d := length (tasks w)]> (_workflow_history w)
  /\ _device_states w'
     = <[d := if script_exists then running else failed]> (_device_states w)
  /\ _device_progress w' = _device_progress w
  /\ _status_dialogs w' = _status_dialogs w ∪ {[d]}
  /\ has_busy_task w' d = script_exists.
Proof.
  intros Hb w' t0. subst w'. unfold _start_workflow_for_device. rewrite Hb.
  destruct (start_spec WORKFLOW_SCRIPT_PATH d (dict_of_items inputs)
              script_exists) as (-> & _).
  fold t0.
  set (w1 := set_task (length (tasks w)) t0
               (register d (WorkflowRunTask.new d (dict_of_items inputs)) w)).
  assert (Htasks : tasks w1 = tasks w ++ [t0]).
  { subst w1. cbn. rewrite insert_app_r_alt, Nat.sub_diag; done. }
  assert (Hruns : _workflow_runs w1 !! d = Some (length (tasks w))).
  { subst w1. cbn. apply lookup_insert_eq. }
  assert (Hbusy : forall w2, _workflow_runs w2 = _workflow_runs w1 ->
            tasks w2 = tasks w1 -> has_busy_task w2 d = script_exists).
  { intros w2 E1 E2. unfold has_busy_task, get_task.
    rewrite E1, E2, Hruns, Htasks, list_lookup_middle by done.
    subst t0. by destruct script_exists. }
  destruct script_exists; cbn -[w1].
  - split_and!; try done. by apply Hbusy.
  - unfold _on_workflow_output_changed, _on_workflow_task_finished,
      refresh_history. cbn -[w1]. rewrite Hruns. cbn -[w1]. rewrite Hruns.
    cbn -[w1]. split_and!; try done.
    + subst w1. cbn. by rewrite !insert_insert_eq.
    + by apply Hbusy.
Qed.

End WindowProperties.

Lemma X9_history_is_runs_witness :
  _workflow_history Session.flashing = _workflow_runs Session.flashing.
Proof.
  apply (X9_history_is_runs ascii_only Session.script).
  apply MainWindow.reach_start, MainWindow.reach_listing,
    MainWindow.reach_initial.
Defined.

Lemma X10_task_of_its_device_witness :
  (exists t, tasks Session.flashing !! 0%nat = Some t
             /\ device_path (info t) = Session.sdb
             /\ WorkflowRunTask.quiet t)
  /\ (forall d', _workflow_runs Session.flashing !! d' = Some 0%nat ->
                 d' = Session.sdb).
Proof.
  apply (X10_task_of_its_device ascii_only Session.script).
  - apply MainWindow.reach_start, MainWindow.reach_listing,
      MainWindow.reach_initial.
  - vm_compute. reflexivity.
Defined.

Lemma X11_window_progress_in_range_witness :
  let w := MainWindow.task_signal ascii_only 0
             (readyReadStandardError Session.half)
             (MainWindow.task_signal ascii_only 0
                (readyReadStandardOutput Session.size_hint)
                Session.flashing) in
  _device_progress w !! Session.sdb = Some 50 /\ 0 <= 50 <= 100.
Proof.
  intros w.
  assert (H : _device_progress w !! Session.sdb = Some 50)
    by (vm_compute; reflexivity).
  split; [exact H|].
  apply (X11_window_progress_in_range ascii_only Session.script w
           Session.sdb 50); [|exact H].
  apply MainWindow.reach_signal, MainWindow.reach_signal,
    MainWindow.reach_start, MainWindow.reach_listing,
    MainWindow.reach_initial.
Defined.

Lemma X12_start_on_idle_device_witness :
  let w' := MainWindow._start_workflow_for_device Session.script Session.sdb
              [] true Session.polled in
  tasks w'
  = [WorkflowRunTask.started Session.script Session.sdb [] true]
  /\ _device_progress w' = ∅
  /\ MainWindow.has_busy_task w' Session.sdb = true.
Proof.
  destruct (X12_start_on_idle_device Session.script Session.sdb [] true
              Session.polled) as (H1 & _ & _ & _ & H5 & _ & H7);
    [reflexivity|].
  split_and!; assumption.
Defined.

(** ** The options parser and the listing *)

Section ScalarProperties.

Lemma scanstring_plain s : forall acc rest,
  Forall (fun c => (31 < c)%N /\ c <> 34%N /\ c <> 92%N) s ->
  Json.scanstring acc (s ++ 34%N :: rest) = Some (rev acc ++ s, rest).
Proof.
  induction s as [|c s IH]; intros acc rest Hs.
  - cbn. by rewrite app_nil_r.
  - apply Forall_cons in Hs as [(H31 & H34 & H92) Hs].
    cbn [app Json.scanstring].
    replace (c =? 34)%N with false by (symmetry; by apply N.eqb_neq).
    replace (c <=? 31)%N with false by (symmetry; apply N.leb_gt; lia).
    replace (c =? 92)%N with false by (symmetry; by apply N.eqb_neq).
    cbn [negb]. rewrite IH by done. cbn. by rewrite <- app_assoc.
Qed.

(** X13.  A scalar in double quotes whose content has no quote, no
    backslash and no control character is read as its content, also when
    the content is [true], [false], [null] or begins or ends with
    blanks. *)
Theorem X13_quoted_scalar_is_its_content s :
  Forall (fun c => (31 < c)%N /\ c <> 34%N /\ c <> 92%N) s ->
  _parse_yaml_scalar (dquote ++ s ++ dquote) = VStr s.
Proof.
  intros Hs. unfold _parse_yaml_scalar, dquote.
  assert (Hstrip : Py.strip ([34%N] ++ s ++ [34%N]) = [34%N] ++ s ++ [34%N]).
  { unfold Py.strip. cbn [app]. rewrite lstrip_fix by done.
    change (34%N :: s ++ [34%N]) with ((34%N :: s) ++ [34%N]).
    by rewrite rstrip_snoc. }
  rewrite Hstrip. cbn [app].
  unfold Py.str_eqb. rewrite !bool_decide_eq_false_2 by discriminate.
  assert (He : Py.endswith [34%N] (34%N :: s ++ [34%N]) = true).
  { unfold Py.endswith.
    change (34%N :: s ++ [34%N]) with ((34%N :: s) ++ [34%N]).
    by rewrite rev_app_distr. }
  rewrite He. cbn [Py.startswith N.eqb Pos.eqb andb Json.loads].
  rewrite (scanstring_plain s [] []) by done. reflexivity.
Qed.

(** X14.  Blanks before and after a scalar do not count: the value read
    is the one of the scalar without them. *)
Theorem X14_scalar_ignores_blanks ws1 value ws2 :
  forallb Py.isspace ws1 = true -> forallb Py.isspace ws2 = true ->
  _parse_yaml_scalar (ws1 ++ value ++ ws2) = _parse_yaml_scalar value.
Proof.
  intros H1 H2. unfold _parse_yaml_scalar. by rewrite strip_spaces.
Qed.

End ScalarProperties.

Section ParserProperties.

Import Parser.

Lemma loop_before_inputs lines : forall l,
  in_inputs l = false ->
  (forall line, In line lines -> Py.strip line <> Py.lit "inputs:") ->
  loop l lines = Ok l.
Proof.
  induction lines as [|raw_line lines IH]; intros l Hl Hno; [done|].
  cbn [loop]. unfold body. rewrite Hl. cbn [negb].
  assert (Hne : Py.str_eqb (Py.strip raw_line) (Py.lit "inputs:") = false).
  { apply bool_decide_eq_false_2, Hno. by left. }
  rewrite Hne.
  destruct (Py.str_eqb (Py.strip raw_line) []);
    apply IH; try done; intros line Hin; apply Hno; by right.
Qed.

(** X15.  A document without a line that reads [inputs:] has no inputs:
    the result is the empty dictionary, whatever the document holds. *)
Theorem X15_no_inputs_line_no_inputs text :
  (forall line, In line (Py.splitlines text) ->
                Py.strip line <> Py.lit "inputs:") ->
  parse_workflow_options_yaml text = Ok [].
Proof.
  intros H. unfold parse_workflow_options_yaml.
  by rewrite loop_before_inputs.
Qed.

End ParserProperties.

Lemma X13_quoted_scalar_is_its_content_witness :
  _parse_yaml_scalar (dquote ++ Py.lit " true " ++ dquote)
  = VStr (Py.lit " true ").
Proof.
  apply (X13_quoted_scalar_is_its_content (Py.lit " true ")).
  repeat constructor; try discriminate.
Defined.

Lemma X14_scalar_ignores_blanks_witness :
  _parse_yaml_scalar (Py.lit "  " ++ Py.lit "null" ++ [9%N; 32%N])
  = _parse_yaml_scalar (Py.lit "null").
Proof.
  apply (X14_scalar_ignores_blanks (Py.lit "  ") (Py.lit "null")
           [9%N; 32%N]); reflexivity.
Defined.

Lemma X15_no_inputs_line_no_inputs_witness :
  parse_workflow_options_yaml
    (Py.text ["name: flash"; "  device:"; "    default: x"]%string)
  = Ok [].
Proof.
  apply (X15_no_inputs_line_no_inputs
           (Py.text ["name: flash"; "  device:"; "    default: x"]%string)).
  intros line Hin. vm_compute in Hin.
  repeat (destruct Hin as [<-|Hin]; [vm_compute; discriminate|]).
  destruct Hin.
Defined.

Section ListingProperties.

Import MainWindow.

Lemma split_from_free sep a : forall cur,
  ~ In sep a -> Py.split_from sep cur a = [rev cur ++ a].
Proof.
  induction a as [|c a IH]; intros cur Hn; cbn.
  - by rewrite app_nil_r.
  - replace (c =? sep)%N with false
      by (symmetry; apply N.eqb_neq; intros ->; apply Hn; by left).
    rewrite IH by (intros H; apply Hn; by right).
    cbn. by rewrite <- app_assoc.
Qed.

Lemma split_from_app sep a rest : forall cur,
  ~ In sep a ->
  Py.split_from sep cur (a ++ sep :: rest)
  = (rev cur ++ a) :: Py.split_from sep [] rest.
Proof.
  induction a as [|c a IH]; intros cur Hn; cbn.
  - by rewrite N.eqb_refl, app_nil_r.
  - replace (c =? sep)%N with false
      by (symmetry; apply N.eqb_neq; intros ->; apply Hn; by left).
    rewrite IH by (intros H; apply Hn; by right).
    cbn. by rewrite <- app_assoc.
Qed.

Lemma strip_ends c mid c' :
  Py.isspace c = false -> Py.isspace c' = false ->
  Py.strip (c :: mid ++ [c']) = c :: mid ++ [c'].
Proof.
  intros H H'. unfold Py.strip. rewrite lstrip_fix by done.
  change (c :: mid ++ [c']) with ((c :: mid) ++ [c']). by apply rstrip_snoc.
Qed.

(** A stripped text that is not empty begins and ends with no blank. *)
Lemma stripped_first f :
  Py.strip f = f -> f <> [] ->
  exists c f', f = c :: f' /\ Py.isspace c = false.
Proof.
  intros Hs Hne. destruct f as [|c f']; [done|]. exists c, f'.
  split; [done|]. apply (lstrip_head (c :: f') c f').
  rewrite <- Hs at 1. unfold Py.strip. rewrite lstrip_rstrip.
  exact Hs.
Qed.

Lemma stripped_last f :
  Py.strip f = f -> f <> [] ->
  exists f' c, f = f' ++ [c] /\ Py.isspace c = false.
Proof.
  intros Hs Hne.
  assert (Hr : Py.lstrip (rev f) = rev f).
  { assert (Hrs : Py.rstrip f = f).
    { rewrite <- Hs at 1. unfold Py.strip. rewrite rstrip_idem. exact Hs. }
    apply (f_equal (@rev N)) in Hrs. unfold Py.rstrip in Hrs.
    by rewrite rev_involutive in Hrs. }
  destruct (rev f) as [|c r] eqn:E.
  - apply (f_equal (@rev N)) in E. rewrite rev_involutive in E. done.
  - exists (rev r), c. split.
    + apply (f_equal (@rev N)) in E. by rewrite rev_involutive in E.
    + by eapply lstrip_head.
Qed.

(** X16.  A line of the listing with a device, a size and a manufacturer
    between tabs is read as that row, when no field has a tab or a blank at
    an end; the size and the manufacturer may be empty, the device may
    not. *)
Theorem X16_parse_row_reads_the_fields dev size manufacturer :
  dev <> [] ->
  Py.strip dev = dev -> Py.strip size = size ->
  Py.strip manufacturer = manufacturer ->
  ~ In 9%N dev -> ~ In 9%N size -> ~ In 9%N manufacturer ->
  parse_row (dev ++ [9%N] ++ size ++ [9%N] ++ manufacturer)
  = Some (dev, size, manufacturer).
Proof.
  intros Hne Hd Hs Hm Td Ts Tm.
  destruct (stripped_first dev Hd Hne) as (c & dev' & Ed & Hc).
  assert (Hrow : forall line parts,
            Py.strip (dev ++ [9%N] ++ size ++ [9%N] ++ manufacturer) = line ->
            line <> [] -> Py.split 9%N line = parts ->
            nth 0 (List.map Py.strip parts) [] = dev ->
            nth 1 (List.map Py.strip parts) [] = size ->
            nth 2 (List.map Py.strip parts) [] = manufacturer ->
            parse_row (dev ++ [9%N] ++ size ++ [9%N] ++ manufacturer)
            = Some (dev, size, manufacturer)).
  { intros line parts E1 E2 E3 E4 E5 E6. unfold parse_row.
    rewrite E1. destruct line as [|x line]; [done|].
    rewrite E3, E4, E5, E6. by rewrite Ed. }
  destruct (decide (manufacturer = [])) as [->|Hm0].
  - destruct (decide (size = [])) as [->|Hs0].
    + apply (Hrow dev [dev]);
        [|by rewrite Ed| |cbn; exact Hd|reflexivity|reflexivity].
      * change (dev ++ [9%N] ++ [] ++ [9%N] ++ [])
          with ([] ++ dev ++ [9%N; 9%N]).
        by rewrite strip_spaces.
      * unfold Py.split. by rewrite split_from_free.
    + destruct (stripped_last size Hs Hs0) as (size' & c' & Es & Hc').
      apply (Hrow (dev ++ [9%N] ++ size) [dev; size]);
        [|by rewrite Ed| |cbn; exact Hd|cbn; exact Hs|reflexivity].
      * replace (dev ++ [9%N] ++ size ++ [9%N] ++ [])
          with ([] ++ (dev ++ [9%N] ++ size) ++ [9%N])
          by (cbn; by rewrite <- !app_assoc).
        rewrite strip_spaces by done.
        rewrite Ed, Es. cbn [app].
        replace (dev' ++ 9%N :: size' ++ [c'])
          with ((dev' ++ 9%N :: size') ++ [c'])
          by (by rewrite <- app_assoc).
        by apply strip_ends.
      * unfold Py.split. cbn [app].
        rewrite split_from_app, split_from_free by done. done.
  - destruct (stripped_last manufacturer Hm Hm0) as (man' & c' & Em & Hc').
    apply (Hrow (dev ++ [9%N] ++ size ++ [9%N] ++ manufacturer)
             [dev; size; manufacturer]);
      [|by rewrite Ed| |cbn; exact Hd|cbn; exact Hs|cbn; exact Hm].
    + rewrite Ed, Em. cbn [app].
      replace (dev' ++ 9%N :: size ++ 9%N :: man' ++ [c'])
        with ((dev' ++ 9%N :: size ++ 9%N :: man') ++ [c'])
        by (rewrite <- !app_assoc; cbn; by rewrite <- !app_assoc).
      by apply strip_ends.
    + unfold Py.split. cbn [app].
      rewrite !split_from_app, split_from_free by done. done.
Qed.

End ListingProperties.

Lemma X16_parse_row_reads_the_fields_witness :
  MainWindow.parse_row
    (Session.sdb ++ [9%N] ++ Py.lit "8G" ++ [9%N] ++ Py.lit "Kingston")
  = Some (Session.sdb, Py.lit "8G", Py.lit "Kingston").
Proof.
  apply (X16_parse_row_reads_the_fields Session.sdb (Py.lit "8G")
           (Py.lit "Kingston"));
    first [discriminate | reflexivity
          | vm_compute; intros H;
            repeat (destruct H as [H|H]; [discriminate H|]); exact H].
Defined.

(** ** The process of a run *)

Section SetupFacts.

Import Task WorkflowRunTask RunRecord.

Context (ud : UnicodeData) (WORKFLOW_SCRIPT_PATH : str).

Lemma same_setup_refl t : same_setup t t.
Proof. by repeat split. Qed.

Lemma same_setup_trans t1 t2 t3 :
  same_setup t1 t2 -> same_setup t2 t3 -> same_setup t1 t3.
Proof.
  intros (? & ? & ? & ? & ?) (? & ? & ? & ? & ?).
  repeat split; congruence.
Qed.

Lemma keeps_bind {A B : Type} (m : M A) (f : A -> M B) :
  keeps_setup m -> (forall a, keeps_setup (f a)) -> keeps_setup (bind m f).
Proof.
  intros Hm Hf t. unfold bind. specialize (Hm t).
  destruct (m t) as [[t1 ev1] [a|e]]; [|exact Hm].
  specialize (Hf a t1). destruct (f a t1) as [[t2 ev2] r].
  by eapply same_setup_trans.
Qed.

Lemma keeps_ret {A : Type} (a : A) : keeps_setup (ret a).
Proof. intros t. apply same_setup_refl. Qed.

Lemma keeps_raise {A : Type} e : keeps_setup (raise (A := A) e).
Proof. intros t. apply same_setup_refl. Qed.

Lemma keeps_emit ev : keeps_setup (emit ev).
Proof. intros t. apply same_setup_refl. Qed.

Lemma keeps_read {A : Type} (f : WorkflowRunTask -> A) : keeps_setup (read f).
Proof. intros t. apply same_setup_refl. Qed.

Lemma keeps_set_info f : keeps_setup (set_info f).
Proof. intros t. by repeat split. Qed.

Lemma keeps_set_flash_total_bytes n : keeps_setup (set_flash_total_bytes n).
Proof. intros t. by repeat split. Qed.

Lemma keeps_set_last_progress_percent p :
  keeps_setup (set_last_progress_percent p).
Proof. intros t. by repeat split. Qed.

Lemma keeps_set_process f :
  (forall p, started_with (f p) = started_with p /\ killed (f p) = killed p) ->
  keeps_setup (set_process f).
Proof.
  intros Hf t. destruct (Hf (process t)) as [H1 H2]. by repeat split.
Qed.

Ltac keeps :=
  repeat first
    [ apply keeps_ret | apply keeps_raise | apply keeps_emit
    | apply keeps_read | apply keeps_set_info
    | apply keeps_set_flash_total_bytes
    | apply keeps_set_last_progress_percent
    | apply keeps_set_process; intros []; by split
    | apply keeps_bind; [|intros ?]
    | progress unfold dev
    | case_match ].

Lemma keeps__update_flash_progress : keeps_setup (_update_flash_progress ud).
Proof. unfold _update_flash_progress. keeps. Qed.

Lemma keeps_scan_run_url lines : keeps_setup (scan_run_url lines).
Proof. induction lines as [|line lines IH]; cbn [scan_run_url]; keeps; done. Qed.

Lemma keeps__read_stdout : keeps_setup (_read_stdout ud).
Proof.
  unfold _read_stdout. keeps;
    first [apply keeps_scan_run_url | apply keeps__update_flash_progress].
Qed.

Lemma keeps__read_stderr : keeps_setup (_read_stderr ud).
Proof. unfold _read_stderr. keeps; apply keeps__update_flash_progress. Qed.

Lemma keeps_deliver sig : keeps_setup (deliver ud sig).
Proof.
  unfold deliver. apply keeps_bind.
  - apply keeps_set_process. intros p.
    destruct sig as [data|data|code|e]; try destruct e; by destruct p.
  - intros _. destruct sig as [data|data|code|e]; cbn [slot].
    + apply keeps__read_stdout.
    + apply keeps__read_stderr.
    + unfold _on_finished. keeps;
        first [apply keeps_scan_run_url | apply keeps__read_stdout
              | apply keeps__read_stderr].
    + unfold _on_error. keeps;
        first [apply keeps_scan_run_url | apply keeps__read_stdout
              | apply keeps__read_stderr].
Qed.

Lemma keeps_deliver_all sigs : forall t,
  same_setup t (deliver_all ud sigs t).1.
Proof.
  induction sigs as [|sig sigs IH]; intros t; [apply same_setup_refl|].
  cbn [deliver_all]. pose proof (keeps_deliver sig t) as H1.
  destruct (deliver ud sig t) as [[t1 ev1] r1]. specialize (IH t1).
  destruct (deliver_all ud sigs t1) as [t2 ev2].
  by eapply same_setup_trans.
Qed.

(** X17.  The process of a run is started by [start] and by nothing else:
    during the whole run it is the process started with the script, the
    device and the inputs with a value, or no process at all when the
    script is missing.  The task never kills it, and it never starts its
    authentication process. *)
Theorem X17_process_is_started_once dev inputs script_exists sigs :
  let t := (run ud WORKFLOW_SCRIPT_PATH dev inputs script_exists sigs).1 in
  started_with (process t)
  = (if script_exists
     then Some ([WORKFLOW_SCRIPT_PATH; Py.lit "--run-custom";
                 Py.lit "--device-path"; dev] ++ input_args inputs)
     else None)
  /\ killed (process t) = false
  /\ auth_process t = QProc.fresh
  /\ _inputs t = inputs.
Proof.
  cbn zeta. rewrite run_unfold. cbn [fst].
  destruct (keeps_deliver_all sigs
              (started WORKFLOW_SCRIPT_PATH dev inputs script_exists))
    as (-> & _ & -> & -> & ->).
  by destruct script_exists.
Qed.

End SetupFacts.

(** ** The start-up authentication *)

Section RegexFacts.

Lemma literal_spec l : forall prev s k r,
  Re.literal l prev s k = Some r ->
  exists p' s', s = l ++ s' /\ k p' s' = Some r.
Proof.
  induction l as [|a l IH]; intros prev s k r H; cbn in H.
  - by exists prev, s.
  - destruct s as [|c s]; [done|].
    destruct (N.eqb_spec a c) as [->|]; [|done].
    destruct (IH _ _ _ _ H) as (p' & s' & -> & Hk). by exists p', s'.
Qed.

Lemma match_here_group_literal l w prev s x :
  Re.match_here (Re.Cat (Re.Group (Re.Lit l)) (Re.WordB w)) prev s = Some x ->
  x.1 = Some l.
Proof.
  unfold Re.match_here. cbn [Re.rmatch]. intros E.
  apply literal_spec in E as (p' & s' & Hs & Hk).
  destruct (xorb _ _); [|done]. injection Hk as <-. cbn [fst]. f_equal.
  subst s. rewrite length_app, Nat.add_sub. by rewrite take_app_length.
Qed.

(** A match of a pattern that is a literal in a group, then a word
    boundary, captures the literal. *)
Lemma search_group_literal l w s cap :
  Re.search (Re.Cat (Re.Group (Re.Lit l)) (Re.WordB w)) s = Some cap ->
  cap = l.
Proof.
  unfold Re.search.
  assert (H : forall s prev x,
            Re.search_from (Re.Cat (Re.Group (Re.Lit l)) (Re.WordB w)) prev s
            = Some x -> x.1 = Some l).
  { clear s cap. induction s as [|c s IH]; intros prev x;
      cbn [Re.search_from];
      destruct (Re.match_here _ prev _) as [r|] eqn:E;
      try done; try apply IH;
      intros [= <-]; by eapply match_here_group_literal. }
  destruct (Re.search_from _ None s) as [[c rest]|] eqn:E; [|done].
  intros [= <-]. apply H in E. cbn in E. by subst c.
Qed.

End RegexFacts.

Section AuthFacts.

Import StartupAuth.

Context (ud : UnicodeData) (GH_AUTH_SCRIPT_PATH : str).

Lemma fresh_texts_app l1 : forall prev l2,
  fresh_texts prev l1 -> fresh_texts (List.last l1 prev) l2 ->
  fresh_texts prev (l1 ++ l2).
Proof.
  induction l1 as [|t l1 IH]; intros prev l2 H1 H2; [exact H2|].
  destruct H1 as (Hne & Hp & H1). cbn [app fresh_texts].
  split_and!; try done. apply IH; [done|]. by rewrite last_cons in H2.
Qed.

Lemma at_most_once_seq f0 f1 f2 l1 l2 x :
  at_most_once f0 f1 l1 x -> at_most_once f1 f2 l2 x ->
  at_most_once f0 f2 (l1 ++ l2) x.
Proof.
  intros [[-> ->]|(-> & -> & ->)] [[-> ->]|(-> & ? & ->)]; try done.
  - by left.
  - by right.
  - by right.
Qed.

Lemma orderly_seq m1 m2 : orderly m1 -> orderly m2 -> orderly (seq m1 m2).
Proof.
  intros H1 H2 a. unfold seq. specialize (H1 a).
  destruct (m1 a) as [a1 x1]. specialize (H2 a1).
  destruct (m2 a1) as [a2 x2]. cbn [fst snd] in *.
  destruct H1 as (U1 & W1 & T1 & L1 & R1), H2 as (U2 & W2 & T2 & L2 & R2).
  unfold urls_opened, data_written, texts_shown in *.
  rewrite !omap_app. split_and!.
  - by eapply at_most_once_seq.
  - by eapply at_most_once_seq.
  - apply fresh_texts_app; [done|]. by rewrite <- L1.
  - by rewrite last_app_default, <- L1.
  - by apply Forall_app.
Qed.

Lemma orderly_quiet (m : M) :
  (forall a, (m a).2 = []
             /\ _startup_auth_browser_opened (m a).1
                = _startup_auth_browser_opened a
             /\ _startup_auth_enter_sent (m a).1 = _startup_auth_enter_sent a
             /\ _startup_auth_last_emitted_text (m a).1
                = _startup_auth_last_emitted_text a) ->
  orderly m.
Proof.
  intros H a. destruct (H a) as (-> & -> & -> & ->).
  split_and!; try done; by left.
Qed.

Lemma orderly_silent (m : M) acts :
  (forall a, (m a).2 = acts
             /\ _startup_auth_browser_opened (m a).1
                = _startup_auth_browser_opened a
             /\ _startup_auth_enter_sent (m a).1 = _startup_auth_enter_sent a
             /\ _startup_auth_last_emitted_text (m a).1
                = _startup_auth_last_emitted_text a) ->
  urls_opened acts = [] -> data_written acts = [] -> texts_shown acts = [] ->
  orderly m.
Proof.
  intros H Hu Hw Ht a. destruct (H a) as (-> & -> & -> & ->).
  rewrite Hu, Hw, Ht. split_and!; try done; by left.
Qed.

Lemma orderly__start_startup_auth script_exists :
  orderly (_start_startup_auth GH_AUTH_SCRIPT_PATH script_exists).
Proof.
  apply orderly_quiet. intros a. unfold _start_startup_auth.
  by repeat case_match.
Qed.

Lemma orderly__handle chunk :
  orderly (_handle_startup_auth_interactive_output ud chunk).
Proof.
  unfold _handle_startup_auth_interactive_output. apply orderly_seq.
  - intros a. destruct (Re.search (login_re ud) chunk) as [url|] eqn:E.
    + apply search_group_literal in E. subst url.
      destruct (_startup_auth_browser_opened a) eqn:Eo; cbn;
        split_and!; try done; first [by left | by right].
    + cbn. split_and!; try done; by left.
  - intros a.
    destruct (Py.contains enter_prompt chunk); cbn;
      [|split_and!; try done; by left].
    destruct (_startup_auth_enter_sent a) eqn:Es; cbn;
      split_and!; try done; first [by left | by right].
Qed.

Lemma orderly__emit : orderly _emit_startup_auth_output_update.
Proof.
  intros a. unfold _emit_startup_auth_output_update. cbv zeta.
  match goal with |- context [Py.rstrip ?x] =>
    match x with context [Py.lit "[stderr]"] => set (text := Py.rstrip x) end
  end.
  assert (Hr : Py.rstrip text = text) by apply rstrip_idem.
  clearbody text.
  unfold Py.str_eqb. repeat case_bool_decide; cbn;
    split_and!; try done; try (by left).
  by repeat constructor.
Qed.

Lemma orderly__read_stdout : orderly (_read_startup_auth_stdout ud).
Proof.
  intros a. unfold _read_startup_auth_stdout. cbv zeta.
  destruct (out_buf (startup_auth_process a)) as [|c chunk].
  - cbn. split_and!; try done; by left.
  - apply (orderly_seq _ _ (orderly__handle (c :: chunk)) orderly__emit
             (add_stdout (c :: chunk) (upd_process QProc.take_out a))).
Qed.

Lemma orderly__read_stderr : orderly (_read_startup_auth_stderr ud).
Proof.
  intros a. unfold _read_startup_auth_stderr. cbv zeta.
  destruct (err_buf (startup_auth_process a)) as [|c chunk].
  - cbn. split_and!; try done; by left.
  - apply (orderly_seq _ _ (orderly__handle (c :: chunk)) orderly__emit
             (add_stderr (c :: chunk) (upd_process QProc.take_err a))).
Qed.

Lemma orderly_slot sig : orderly (slot ud sig).
Proof.
  destruct sig as [data|data|code|e]; cbn [slot].
  - apply orderly__read_stdout.
  - apply orderly__read_stderr.
  - unfold _on_startup_auth_finished.
    repeat first [apply orderly_seq | apply orderly__read_stdout
                 | apply orderly__read_stderr | apply orderly__emit].
    intros a. repeat case_match; cbn; split_and!; try done; by left.
  - unfold _on_startup_auth_error.
    repeat first [apply orderly_seq | apply orderly__read_stdout
                 | apply orderly__read_stderr | apply orderly__emit].
    intros a. cbn; split_and!; try done; by left.
Qed.

Lemma orderly_on_event ev : orderly (on_event ud ev).
Proof.
  destruct ev as [sig|]; cbn [on_event].
  - intros a.
    apply (orderly_slot sig (upd_process (WorkflowRunTask.before_slot sig) a)).
  - intros a. cbn. split_and!; try done; by left.
Qed.

Lemma orderly_run evs : orderly (run ud evs).
Proof.
  induction evs as [|ev evs IH]; cbn [run].
  - intros a. cbn. split_and!; try done; by left.
  - apply orderly_seq; [apply orderly_on_event|exact IH].
Qed.

(** X18.  Whatever the script writes and however often, the browser is
    opened at most once, at [https://github.com/login/device], and at most
    one line feed is sent to the script; neither happens again in a window
    where it has happened. *)
Theorem X18_browser_and_enter_at_most_once evs a :
  let acts := (run ud evs a).2 in
  (urls_opened acts = []
   \/ (urls_opened acts = [login_url]
       /\ _startup_auth_browser_opened a = false))
  /\ (data_written acts = []
      \/ (data_written acts = [[10%N]]
          /\ _startup_auth_enter_sent a = false)).
Proof.
  cbn zeta. destruct (orderly_run evs a) as (U & W & _).
  split.
  - destruct U as [[-> _]|(-> & -> & _)]; [by left|by right].
  - destruct W as [[-> _]|(-> & -> & _)]; [by left|by right].
Qed.

(** X19.  The output dialog is shown a text only when the text is new: no
    text shown is empty or ends with a blank, none is the text shown just
    before it, and the window remembers the last one. *)
Theorem X19_output_shown_when_new evs a :
  let r := run ud evs a in
  fresh_texts (_startup_auth_last_emitted_text a) (texts_shown r.2)
  /\ Forall (fun t => Py.rstrip t = t) (texts_shown r.2)
  /\ _startup_auth_last_emitted_text r.1
     = List.last (texts_shown r.2) (_startup_auth_last_emitted_text a).
Proof.
  cbn zeta. by destruct (orderly_run evs a) as (_ & _ & T & L & R).
Qed.

End AuthFacts.

(** ** The dialogs *)

Section DialogProperties.

Import MainWindow.

(** X20.  The output view of the status dialog is empty exactly when the
    record has no output at all; its text never ends with a blank, and the
    line of the run link shows the link of the record as it is. *)
Theorem X20_status_text info :
  let v := WorkflowStatusDialog.set_info info in
  (output_view v = [] <-> stdout info = [] /\ stderr info = [])
  /\ Py.rstrip (output_view v) = output_view v
  /\ run_url_label v = run_url info.
Proof.
  cbn zeta. unfold WorkflowStatusDialog.set_info. cbn [output_view run_url_label].
  split_and!; [|apply rstrip_idem|reflexivity].
  unfold Py.str_eqb.
  destruct (decide (stdout info = [])) as [Ho|Ho];
    destruct (decide (stderr info = [])) as [He|He].
  - rewrite !bool_decide_eq_true_2 by done. done.
  - rewrite (bool_decide_eq_true_2 (stdout info = [])) by done.
    rewrite (bool_decide_eq_false_2 (stderr info = [])) by done.
    rewrite bool_decide_eq_true_2 by done. cbn [app Py.lit List.map
      list_ascii_of_string N_of_ascii].
    split; [|by intros []].
    match goal with |- Py.rstrip (?c :: ?s) = [] -> _ =>
      destruct (rstrip_cons c s eq_refl) as (s' & ->) end. done.
  - rewrite (bool_decide_eq_false_2 (stdout info = [])) by done.
    rewrite (bool_decide_eq_true_2 (stderr info = [])) by done.
    cbn [app Py.lit List.map list_ascii_of_string N_of_ascii].
    split; [|by intros []].
    match goal with |- Py.rstrip (?c :: ?s) = [] -> _ =>
      destruct (rstrip_cons c s eq_refl) as (s' & ->) end. done.
  - rewrite (bool_decide_eq_false_2 (stdout info = [])) by done.
    rewrite (bool_decide_eq_false_2 (stderr info = [])) by done.
    cbn [app Py.lit List.map list_ascii_of_string N_of_ascii].
    rewrite bool_decide_eq_false_2 by done.
    cbn [app]. split; [|by intros []].
    match goal with |- Py.rstrip (?c :: ?s) = [] -> _ =>
      destruct (rstrip_cons c s eq_refl) as (s' & ->) end. done.
Qed.

(** X21.  In every window the program can be in, a double click on a
    device that has a task, running or over, shows the status dialog of
    the device and creates no options dialog. *)
Theorem X21_double_click_shows_status ud WORKFLOW_SCRIPT_PATH w device_path r :
  reachable ud WORKFLOW_SCRIPT_PATH w ->
  Py.strip device_path <> [] ->
  _workflow_runs w !! Py.strip device_path = Some r ->
  Dialogs._open_workflow_options device_path w
  = (_open_workflow_status (Py.strip device_path) w, None).
Proof.
  intros Hw Hne Hr. destruct (reachable_tasks _ _ _ Hw) as (Hh & _).
  unfold Dialogs._open_workflow_options. cbv zeta.
  unfold Py.str_eqb. rewrite bool_decide_eq_false_2 by done.
  rewrite bool_decide_eq_true_2; [done|]. rewrite Hh, Hr. by eexists.
Qed.

End DialogProperties.

Lemma X21_double_click_shows_status_witness :
  Dialogs._open_workflow_options (Py.lit " /dev/sdb") Session.flashing
  = (MainWindow._open_workflow_status Session.sdb Session.flashing, None).
Proof.
  apply (X21_double_click_shows_status ascii_only Session.script
           Session.flashing (Py.lit " /dev/sdb") 0%nat).
  - apply MainWindow.reach_start, MainWindow.reach_listing,
      MainWindow.reach_initial.
  - discriminate.
  - vm_compute. reflexivity.
Defined.

(** ** One device, one task *)

Section DeviceFacts.

Import Task WorkflowRunTask RunRecord.

Context (ud : UnicodeData) (WORKFLOW_SCRIPT_PATH : str).

Lemma speaks_bind {A B : Type} d (m : M A) (f : A -> M B) :
  speaks_for d m -> (forall a, speaks_for d (f a)) -> speaks_for d (bind m f).
Proof.
  intros Hm Hf t Ht. unfold bind. destruct (Hm t Ht) as [H1 H2].
  destruct (m t) as [[t1 ev1] [a|e]]; [|by split].
  cbn [fst snd] in *. destruct (Hf a t1 H1) as [H3 H4].
  destruct (f a t1) as [[t2 ev2] r]. cbn [fst snd] in *.
  split; [done|]. by apply Forall_app.
Qed.

Lemma speaks_bind_dev {B : Type} d (f : str -> M B) :
  speaks_for d (f d) -> speaks_for d (bind dev f).
Proof.
  intros Hf t Ht. unfold bind, dev, read. rewrite Ht.
  destruct (Hf t Ht) as [H1 H2]. destruct (f d t) as [[t2 ev2] r].
  by split.
Qed.

Lemma speaks_ret {A : Type} d (a : A) : speaks_for d (ret a).
Proof. by intros t Ht. Qed.

Lemma speaks_raise {A : Type} d e : speaks_for d (raise (A := A) e).
Proof. by intros t Ht. Qed.

Lemma speaks_emit d ev : event_dev ev = d -> speaks_for d (emit ev).
Proof. intros H t Ht. split; [done|]. by repeat constructor. Qed.

Lemma speaks_read {A : Type} d (f : WorkflowRunTask -> A) :
  speaks_for d (read f).
Proof. by intros t Ht. Qed.

Lemma speaks_set_info d f :
  (forall i, device_path (f i) = device_path i) -> speaks_for d (set_info f).
Proof. intros H t Ht. cbn. by rewrite H. Qed.

Lemma speaks_set_process d f : speaks_for d (set_process f).
Proof. by intros t Ht. Qed.

Lemma speaks_set_flash_total_bytes d n :
  speaks_for d (set_flash_total_bytes n).
Proof. by intros t Ht. Qed.

Lemma speaks_set_last_progress_percent d p :
  speaks_for d (set_last_progress_percent p).
Proof. by intros t Ht. Qed.

Lemma speaks_set_pending d a : speaks_for d (set_pending_workflow_args a).
Proof. by intros t Ht. Qed.

Ltac speaks :=
  repeat first
    [ apply speaks_ret | apply speaks_raise | apply speaks_emit; reflexivity
    | apply speaks_read | apply speaks_set_info; intros []; reflexivity
    | apply speaks_set_process
    | apply speaks_set_flash_total_bytes
    | apply speaks_set_last_progress_percent
    | apply speaks_set_pending
    | apply speaks_bind_dev
    | apply speaks_bind; [|intros ?]
    | case_match
    | progress cbv zeta ].

Lemma speaks__update_flash_progress d :
  speaks_for d (_update_flash_progress ud).
Proof. unfold _update_flash_progress. speaks. Qed.

Lemma speaks_scan_run_url d lines : speaks_for d (scan_run_url lines).
Proof.
  induction lines as [|line lines IH]; cbn [scan_run_url]; speaks; done.
Qed.

Lemma speaks__read_stdout d : speaks_for d (_read_stdout ud).
Proof.
  unfold _read_stdout. speaks. apply speaks_scan_run_url.
Qed.

Lemma speaks__read_stderr d : speaks_for d (_read_stderr ud).
Proof.
  unfold _read_stderr. speaks.
Qed.

Lemma speaks_deliver d sig : speaks_for d (deliver ud sig).
Proof.
  unfold deliver. apply speaks_bind; [apply speaks_set_process|].
  intros _. destruct sig as [data|data|code|e]; cbn [slot].
  - apply speaks__read_stdout.
  - apply speaks__read_stderr.
  - unfold _on_finished.
    apply speaks_bind; [apply speaks__read_stdout|intros _].
    apply speaks_bind; [apply speaks__read_stderr|intros _].
    speaks.
  - unfold _on_error.
    apply speaks_bind; [apply speaks__read_stdout|intros _].
    apply speaks_bind; [apply speaks__read_stderr|intros _].
    speaks.
Qed.

Lemma speaks_start d script_exists :
  speaks_for d (start WORKFLOW_SCRIPT_PATH script_exists).
Proof. unfold start, _start_workflow_process. speaks. Qed.

Lemma speaks_deliver_all sigs : forall t,
  Forall (fun ev => event_dev ev = device_path (info t))
    (deliver_all ud sigs t).2.
Proof.
  induction sigs as [|sig sigs IH]; intros t; [constructor|].
  cbn [deliver_all].
  destruct (speaks_deliver (device_path (info t)) sig t eq_refl) as [H1 H2].
  destruct (deliver ud sig t) as [[t1 ev1] r1]. cbn [fst snd] in *.
  specialize (IH t1). destruct (deliver_all ud sigs t1) as [t2 ev2].
  cbn [snd] in *. apply Forall_app. split; [done|]. by rewrite <- H1.
Qed.

(** X22.  Every signal a task emits during a run is about the device the
    task was created for. *)
Theorem X22_signals_are_about_the_device dev inputs script_exists sigs :
  Forall (fun ev => event_dev ev = dev)
    (run ud WORKFLOW_SCRIPT_PATH dev inputs script_exists sigs).2.
Proof.
  rewrite run_unfold. cbn [snd]. apply Forall_app. split.
  - by destruct script_exists; repeat constructor.
  - destruct (start_spec WORKFLOW_SCRIPT_PATH dev inputs script_exists)
      as (_ & _ & Hd & _).
    pose proof (speaks_deliver_all sigs
                  (started WORKFLOW_SCRIPT_PATH dev inputs script_exists))
      as H.
    by rewrite Hd in H.
Qed.

End DeviceFacts.

Section IsolationFacts.

Import MainWindow RunRecord.

Context (ud : UnicodeData).

Lemma on_event_other ev w d :
  event_dev ev <> d ->
  _device_states (on_event ev w) !! d = _device_states w !! d
  /\ _device_progress (on_event ev w) !! d = _device_progress w !! d
  /\ _workflow_history (on_event ev w) !! d = _workflow_history w !! d.
Proof.
  intros Hne. destruct ev as [d0 st|d0|d0|d0 q]; cbn in Hne |- *;
    unfold _on_workflow_output_changed, _on_workflow_task_finished,
      refresh_history.
  - rewrite lookup_insert_ne by done. split_and!; try done.
    destruct st; try done. by rewrite lookup_insert_ne.
  - destruct (_workflow_runs w !! d0); cbn; split_and!; try done.
    by rewrite lookup_insert_ne.
  - destruct (_workflow_runs w !! d0); cbn; split_and!; try done.
    by rewrite lookup_insert_ne.
  - rewrite lookup_insert_ne by done. done.
Qed.

Lemma dispatch_other evs d : forall w,
  Forall (fun ev => event_dev ev <> d) evs ->
  _device_states (dispatch evs w) !! d = _device_states w !! d
  /\ _device_progress (dispatch evs w) !! d = _device_progress w !! d
  /\ _workflow_history (dispatch evs w) !! d = _workflow_history w !! d.
Proof.
  induction evs as [|ev evs IH]; intros w H; [done|].
  apply Forall_cons in H as [Hev H].
  change (dispatch (ev :: evs) w) with (dispatch evs (on_event ev w)).
  destruct (IH (on_event ev w) H) as (-> & -> & ->).
  by apply on_event_other.
Qed.

(** X23.  A signal of the process of a task changes nothing that the
    window keeps for another device: the states, the percentages and the
    histories of the other devices stay, and so do all the runs, the status
    dialogs and the last listing. *)
Theorem X23_signal_touches_one_device r sig w t d :
  tasks w !! r = Some t ->
  d <> device_path (info t) ->
  let w' := task_signal ud r sig w in
  _device_states w' !! d = _device_states w !! d
  /\ _device_progress w' !! d = _device_progress w !! d
  /\ _workflow_history w' !! d = _workflow_history w !! d
  /\ _workflow_runs w' = _workflow_runs w
  /\ _status_dialogs w' = _status_dialogs w
  /\ _last_devices w' = _last_devices w
  /\ _last_device_rows w' = _last_device_rows w.
Proof.
  intros Ht Hd w'. subst w'. unfold task_signal. rewrite Ht.
  destruct (speaks_deliver ud (device_path (info t)) sig t eq_refl)
    as [_ Hev].
  destruct (WorkflowRunTask.deliver ud sig t) as [[t' evs] res].
  cbn [fst snd] in Hev.
  destruct (dispatch_other evs d (set_task r t' w)) as (-> & -> & ->).
  { eapply Forall_impl; [exact Hev|]. cbn. intros ev ->. done. }
  destruct (dispatch_keeps evs (set_task r t' w)) as (-> & _ & -> & _).
  destruct (dispatch_listing evs (set_task r t' w)) as (-> & ->).
  done.
Qed.

End IsolationFacts.

Lemma X23_signal_touches_one_device_witness :
  let w := MainWindow._start_workflow_for_device Session.script
             (Py.lit "/dev/sdc") [] true Session.flashing in
  let w' := MainWindow.task_signal ascii_only 1 (finished 0) w in
  _device_states w' !! Session.sdb = Some running
  /\ _device_states w' !! Py.lit "/dev/sdc" = Some done.
Proof.
  cbn zeta. split; [|vm_compute; reflexivity].
  destruct (X23_signal_touches_one_device ascii_only 1 (finished 0)
              (MainWindow._start_workflow_for_device Session.script
                 (Py.lit "/dev/sdc") [] true Session.flashing)
              (WorkflowRunTask.started Session.script (Py.lit "/dev/sdc")
                 [] true)
              Session.sdb) as (H & _).
  - vm_compute. reflexivity.
  - discriminate.
  - rewrite H. vm_compute. reflexivity.
Defined.

(** ** The end of a run in the window *)

Section EndOfRun.

Import Task WorkflowRunTask MainWindow.

Context (ud : UnicodeData) (WORKFLOW_SCRIPT_PATH : str).

(** [_on_finished] of a task with nothing unread, in full. *)
Lemma _on_finished_full code t :
  quiet t ->
  WorkflowRunTask._on_finished ud code t
  = ({| info := with_state (if code =? 0 then done else failed)
                  (with_exit_code code (info t));
        _inputs := _inputs t;
        _pending_workflow_args := _pending_workflow_args t;
        auth_process := auth_process t;
        _flash_total_bytes := _flash_total_bytes t;
        _last_progress_percent :=
          List.last (final_progress code (_last_progress_percent t))
            (_last_progress_percent t);
        process := process t |},
     List.map (progress_changed (device_path (info t)))
       (final_progress code (_last_progress_percent t))
     ++ [state_changed (device_path (info t))
           (if code =? 0 then done else failed);
         finished_for_device (device_path (info t));
         output_changed (device_path (info t))],
     Ok tt).
Proof.
  intros [Ho He].
  destruct t as [i inp pend ap total last [ps ob eb sw k]].
  cbn in Ho, He. subst ob eb.
  unfold WorkflowRunTask._on_finished, _read_stdout, _read_stderr, final_progress.
  cbv [bind read set_process modify ret set_info dev emit
       set_last_progress_percent upd_process upd_info upd_progress
       QProc.take_out QProc.take_err].
  cbn [process out_buf err_buf info _last_progress_percent device_path
       with_state with_exit_code state app pstate started_with killed
       _inputs _pending_workflow_args auth_process _flash_total_bytes].
  destruct ((code =? 0) && negb (last =? 100)); reflexivity.
Qed.

Lemma refresh_history_states d w :
  _device_states (refresh_history d w) = _device_states w.
Proof. unfold refresh_history. by destruct (_workflow_runs w !! d). Qed.

Lemma refresh_history_progress d w :
  _device_progress (refresh_history d w) = _device_progress w.
Proof. unfold refresh_history. by destruct (_workflow_runs w !! d). Qed.

(** X24.  When the process of a task ends, the window shows it: in every
    window the program can be in, after [finished] the state kept for the
    device of the task is [done] for the exit code 0 and [failed]
    otherwise, the percentage is 100 after a success and what it was after
    a failure, and the task is no longer busy, with the exit code in its
    record. *)
Theorem X24_finished_reaches_the_window w r t code :
  reachable ud WORKFLOW_SCRIPT_PATH w ->
  tasks w !! r = Some t ->
  let d := device_path (info t) in
  let w' := task_signal ud r (finished code) w in
  _device_states w' !! d = Some (if code =? 0 then done else failed)
  /\ _device_progress w' !! d
     = (if code =? 0 then Some 100 else _device_progress w !! d)
  /\ exists t', tasks w' !! r = Some t'
       /\ QProc.is_active (process t') = false
       /\ state (info t') = (if code =? 0 then done else failed)
       /\ exit_code (info t') = Some code.
Proof.
  intros Hw Ht d w'. subst w'.
  destruct (reachable_tasks _ _ _ Hw) as (_ & _ & Hq & _).
  assert (Hqt : quiet t) by (by eapply Forall_lookup_1 in Hq).
  unfold task_signal. rewrite Ht.
  pose proof (_on_finished_full code
                (upd_process (QProc.set_state NotRunning) t)
                ltac:(destruct Hqt; by split)) as E.
  cbn [info upd_process device_path _last_progress_percent _inputs
       _pending_workflow_args auth_process _flash_total_bytes process] in E.
  fold d in E.
  match type of E with _ = (?x, ?l, _) =>
    set (t' := x) in *; set (evs := l) in *;
    assert (Hdel : deliver ud (finished code) t = (t', evs, Ok tt))
  end.
  { unfold deliver, bind. cbv [set_process modify]. cbn [before_slot slot].
    by rewrite E. }
  rewrite Hdel.
  destruct (dispatch_keeps evs (set_task r t' w)) as (_ & Htasks & _).
  rewrite Htasks. cbn [tasks set_task].
  assert (Hlook : <[r := t']> (tasks w) !! r = Some t')
    by (apply list_lookup_insert_eq; by eapply lookup_lt_Some).
  assert (Hdisp : forall w0,
            _device_states (dispatch evs w0) !! d
            = Some (if code =? 0 then done else failed)
            /\ _device_progress (dispatch evs w0) !! d
               = (if code =? 0 then Some 100 else _device_progress w0 !! d)).
  { intros w0. subst evs. unfold final_progress, dispatch.
    destruct (Z.eqb_spec code 0) as [->|Hne]; cbn [andb];
      [destruct (negb (_last_progress_percent t =? 100))|];
      cbn [List.map app foldl on_event];
      unfold _on_workflow_output_changed, _on_workflow_task_finished;
      rewrite !refresh_history_states, !refresh_history_progress;
      cbn [_on_workflow_state_changed _on_workflow_progress_changed
           _device_states _device_progress];
      by rewrite !lookup_insert_eq. }
  destruct (Hdisp (set_task r t' w)) as [-> ->]. split_and!; try done.
  exists t'. split_and!; done.
Qed.

End EndOfRun.

Lemma X24_finished_reaches_the_window_witness :
  let w' := MainWindow.task_signal ascii_only 0 (finished 0)
              Session.flashing in
  _device_states w' !! Session.sdb = Some done
  /\ _device_progress w' !! Session.sdb = Some 100.
Proof.
  cbn zeta.
  destruct (X24_finished_reaches_the_window ascii_only Session.script
              Session.flashing 0
              (WorkflowRunTask.started Session.script Session.sdb [] true) 0)
    as (H1 & H2 & _).
  - apply MainWindow.reach_start, MainWindow.reach_listing,
      MainWindow.reach_initial.
  - vm_compute. reflexivity.
  - split; [exact H1|exact H2].
Defined.

(** ** The progress bar *)

Section BarProperties.

Import DeviceListDelegate.


End BarProperties.


(** ** What the window never does to a task *)

Section NeverKilled.

Import MainWindow RunRecord.

Context (ud : UnicodeData) (WORKFLOW_SCRIPT_PATH : str).

Lemma _start_workflow_for_device_tasks d inputs script_exists w :
  let w' := _start_workflow_for_device WORKFLOW_SCRIPT_PATH d inputs
              script_exists w in
  tasks w' = tasks w
  \/ tasks w' = tasks w ++ [WorkflowRunTask.started WORKFLOW_SCRIPT_PATH d
                              (dict_of_items inputs) script_exists].
Proof.
  cbn zeta. unfold _start_workflow_for_device.
  destruct (has_busy_task w d); [by left|right].
  destruct (start_spec WORKFLOW_SCRIPT_PATH d (dict_of_items inputs)
              script_exists) as (-> & _).
  match goal with |- context [dispatch ?evs ?w1] =>
    destruct (dispatch_keeps evs w1) as (_ & Ht & _)
  end.
  cbn [tasks _open_workflow_status]. rewrite Ht. cbn [tasks set_task register].
  by rewrite insert_app_r_alt, Nat.sub_diag.
Qed.

Lemma task_signal_tasks r sig w t :
  tasks w !! r = Some t ->
  tasks (task_signal ud r sig w)
  = <[r := (WorkflowRunTask.deliver ud sig t).1.1]> (tasks w).
Proof.
  intros Ht. unfold task_signal. rewrite Ht.
  destruct (WorkflowRunTask.deliver ud sig t) as [[t' evs] res].
  by destruct (dispatch_keeps evs (set_task r t' w)) as (_ & -> & _).
Qed.

(** X26.  In every window the program can be in, no task has a killed
    process and no task has started its authentication process: a task is
    busy exactly when its own process is active. *)
Theorem X26_no_task_is_ever_killed w r t :
  reachable ud WORKFLOW_SCRIPT_PATH w ->
  tasks w !! r = Some t ->
  killed (process t) = false
  /\ auth_process t = QProc.fresh
  /\ task_busy t = QProc.is_active (process t).
Proof.
  intros Hw Ht.
  assert (H : killed (process t) = false /\ auth_process t = QProc.fresh).
  { revert r t Ht.
    induction Hw as [|stdout code w _ IH|dev inputs script_exists w _ IH
                     |r0 sig w _ IH]; intros r t Ht.
    - done.
    - rewrite _on_finished_tasks in Ht. by eapply IH.
    - destruct (_start_workflow_for_device_tasks dev inputs script_exists w)
        as [E|E]; rewrite E in Ht; [by eapply IH|].
      apply lookup_app_Some in Ht as [Ht|[_ Ht]]; [by eapply IH|].
      apply list_lookup_singleton_Some in Ht as [_ <-].
      by destruct script_exists.
    - destruct (tasks w !! r0) as [t0|] eqn:E0.
      + rewrite (task_signal_tasks r0 sig w t0 E0) in Ht.
        destruct (decide (r = r0)) as [->|Hne].
        * rewrite list_lookup_insert_eq in Ht by (by eapply lookup_lt_Some).
          injection Ht as <-.
          destruct (keeps_deliver ud sig t0) as (_ & _ & -> & _ & ->).
          by eapply IH.
        * rewrite list_lookup_insert_ne in Ht by done. by eapply IH.
      + unfold task_signal in Ht. rewrite E0 in Ht. by eapply IH. }
  destruct H as [Hk Ha]. split_and!; try done.
  unfold task_busy. by rewrite Ha.
Qed.

(** X27.  A listing that differs from the last one is accepted with the
    rows observed, in their order, at the head; what follows them is the
    last known rows of the devices that are retained; and when no device
    that vanished has a busy task, the accepted listing is the observed one
    and nothing else. *)
Theorem X27_accepted_listing_begins_with_observed stdout w :
  parse_rows stdout <> default [] (_last_device_rows w) ->
  let w' := _on_finished stdout 0 w in
  _last_device_rows w'
  = Some (parse_rows stdout
          ++ List.map (last_known w) (retained w (parse_rows stdout)))
  /\ _last_devices w'
     = Some (List.map row_dev (parse_rows stdout)
             ++ retained w (parse_rows stdout))
  /\ ((forall d, d ∈ default [] (_last_devices w) ->
                 has_busy_task w d = false) ->
      _last_device_rows w' = Some (parse_rows stdout)
      /\ _last_devices w' = Some (List.map row_dev (parse_rows stdout))).
Proof.
  intros Hne w'. subst w'. rewrite _on_finished_changed by done.
  rewrite reconcile_spec. cbn [fst snd accept_listing _last_device_rows
    _last_devices device_rows devices].
  split_and!; try done. intros Hidle.
  assert (Hnil : retained w (parse_rows stdout) = []).
  { destruct (retained w (parse_rows stdout)) as [|d ds] eqn:E; [done|].
    assert (Hd : d ∈ retained w (parse_rows stdout))
      by (rewrite E; by left).
    apply retained_elem in Hd as (Hd & _ & Hb).
    rewrite (Hidle d Hd) in Hb. done. }
  rewrite Hnil. cbn. by rewrite !app_nil_r.
Qed.

End NeverKilled.

Lemma X26_no_task_is_ever_killed_witness :
  exists t, tasks Session.flashing !! 0%nat = Some t
            /\ killed (process t) = false
            /\ MainWindow.task_busy t = QProc.is_active (process t).
Proof.
  exists (WorkflowRunTask.started Session.script Session.sdb [] true).
  assert (Ht : tasks Session.flashing !! 0%nat
               = Some (WorkflowRunTask.started Session.script Session.sdb []
                         true)) by (vm_compute; reflexivity).
  destruct (X26_no_task_is_ever_killed ascii_only Session.script
              Session.flashing 0%nat _
              ltac:(apply MainWindow.reach_start, MainWindow.reach_listing,
                      MainWindow.reach_initial) Ht) as (H1 & _ & H3).
  split_and!; assumption.
Defined.

Lemma X27_accepted_listing_begins_with_observed_witness :
  _last_device_rows Session.polled
  = Some (MainWindow.parse_rows Session.listing)
  /\ _last_devices Session.polled = Some [Session.sdb].
Proof.
  destruct (X27_accepted_listing_begins_with_observed Session.listing
              MainWindow.initial) as (_ & _ & H).
  - vm_compute. discriminate.
  - apply H. intros d Hd. vm_compute in Hd. by apply elem_of_nil in Hd.
Defined.
